(** * SWIFT line-of-sight extraction and serial snapshot I/O

  The development follows the C sources
  - [src/line_of_sight.c]   (sightline generation, two-pass filter, gather
                             bookkeeping, LOS dataset creation),
  - [src/serial_io.c]       (readArray, prepareArray, writeArray, rank
                             slices, Exscan, header particle counts),
  - [src/parser.h]          (parseFile, getParam),
  - [src/stars/EAGLE/stars.h] (yield table bins, stellar evolution
                             bookkeeping).

  Conventions.
  - C [double] and [float] quantities are modelled by exact rationals [Q];
    rounding, infinities and NaN are outside the model.
  - C integers are modelled by [Z]; where the source computes in a fixed
    width the wrap-around is written out ([wrap_int], [wrap_llong]).
  - Constants, macros and functions whose definition lives in a header that
    is not part of the sources at hand ([kernel_gamma], [nearest],
    [time_bin_inhibited], [RAND_MAX], ...) are Section variables. *)

From Stdlib Require Import ZArith QArith Qminmax Bool String Ascii List Lia Lqa.
From Stdlib Require Import Strings.Byte.
From Stdlib Require Import Permutation Sorted.
Import ListNotations.

Local Open Scope Z_scope.

(* ===================================================================== *)
(** * Machine integers                                                    *)
(* ===================================================================== *)

Module MachineInt.

Definition INT_MAX : Z := 2147483647.
Definition INT_MIN : Z := -2147483648.
Definition LLONG_MAX : Z := 9223372036854775807.
Definition LLONG_MIN : Z := -9223372036854775808.

(** Two's complement reduction of [z] to [w] bits. *)
Definition wrap_signed (w : Z) (z : Z) : Z :=
  (z + 2 ^ (w - 1)) mod 2 ^ w - 2 ^ (w - 1).

Definition wrap_int (z : Z) : Z := wrap_signed 32 z.
Definition wrap_llong (z : Z) : Z := wrap_signed 64 z.

Definition int_add (a b : Z) : Z := wrap_int (a + b).
Definition llong_add (a b : Z) : Z := wrap_llong (a + b).
Definition llong_sub (a b : Z) : Z := wrap_llong (a - b).
Definition llong_mul (a b : Z) : Z := wrap_llong (a * b).
(** C division truncates towards zero. *)
Definition llong_div (a b : Z) : Z := wrap_llong (Z.quot a b).

End MachineInt.

(** Outcome of a routine that may call [error()], which aborts the run. *)
Inductive outcome (A : Type) : Type :=
| Returns (a : A)
| Fatal (msg : string).
Arguments Returns {A} a.
Arguments Fatal {A} msg.

Definition bind {A B} (m : outcome A) (k : A -> outcome B) : outcome B :=
  match m with
  | Returns a => k a
  | Fatal msg => Fatal msg
  end.

Notation "x <- m ;; k" := (bind m (fun x => k))
  (at level 61, m at next level, right associativity).

(* ===================================================================== *)
(** * The part of the HDF5 interface the writers drive                    *)
(* ===================================================================== *)

Module H5.

(** [hsize_t] is an unsigned 64-bit integer. *)
Definition to_hsize (z : Z) : Z := z mod 2 ^ 64.

Inductive filter : Type :=
| Fletcher32
| Shuffle
| Deflate (level : Z).

Definition filter_eqb (f g : filter) : bool :=
  match f, g with
  | Fletcher32, Fletcher32 => true
  | Shuffle, Shuffle => true
  | Deflate a, Deflate b => a =? b
  | _, _ => false
  end.

Definition is_deflate (f : filter) : bool :=
  match f with Deflate _ => true | _ => false end.

(** A simple data space: its rank and current extent. *)
Record dataspace : Type := DataSpace {
  space_rank : Z;
  space_dims : list Z
}.

(** A dataset-creation property list: chunk extent and filter pipeline, in
    the order the filters were added. *)
Record dataset_create_plist : Type := DatasetCreate {
  chunk_dims : option (list Z);
  filter_pipeline : list filter
}.

(** [H5Screate(H5S_SIMPLE)] *)
Definition H5Screate_simple_empty : dataspace := DataSpace 0 [].

(** [H5Sset_extent_simple(space, rank, dims, _)] reads [rank] entries of
    [dims]. *)
Definition H5Sset_extent_simple (sp : dataspace) (rank : Z) (dims : list Z)
  : dataspace :=
  DataSpace rank (firstn (Z.to_nat rank) dims).

(** [H5Pcreate(H5P_DATASET_CREATE)] *)
Definition H5Pcreate_dataset_create : dataset_create_plist :=
  DatasetCreate None [].

(** [H5Pset_chunk(plist, rank, dims)] reads [rank] entries of [dims]. *)
Definition H5Pset_chunk (p : dataset_create_plist) (rank : Z) (dims : list Z)
  : dataset_create_plist :=
  DatasetCreate (Some (firstn (Z.to_nat rank) dims)) (filter_pipeline p).

Definition add_filter (p : dataset_create_plist) (f : filter)
  : dataset_create_plist :=
  DatasetCreate (chunk_dims p) (filter_pipeline p ++ [f]).

Definition H5Pset_fletcher32 (p : dataset_create_plist) :=
  add_filter p Fletcher32.
Definition H5Pset_shuffle (p : dataset_create_plist) := add_filter p Shuffle.
Definition H5Pset_deflate (p : dataset_create_plist) (level : Z) :=
  add_filter p (Deflate level).

Definition has_filter (f : filter) (p : dataset_create_plist) : bool :=
  existsb (filter_eqb f) (filter_pipeline p).

Definition has_deflate (p : dataset_create_plist) : bool :=
  existsb is_deflate (filter_pipeline p).

(** What a dataset is created with. *)
Record dataset_layout : Type := DatasetLayout {
  h_space : dataspace;
  h_prop : dataset_create_plist
}.

(** The shape of a dataset of [N] elements of width [d]: [[N]] for a scalar
    field, [[N, d]] for a vector field. *)
Definition expected_shape (N d : Z) : list Z :=
  if d >? 1 then [N; d] else [N].

(** The chunk extent: [max_chunk] along the leading axis, clipped to [N]. *)
Definition expected_chunk (max_chunk N d : Z) : list Z :=
  if d >? 1 then [Z.min max_chunk N; d] else [Z.min max_chunk N].

End H5.

(* ===================================================================== *)
(** * src/line_of_sight.c                                                 *)
(* ===================================================================== *)

Module LineOfSight.

Import MachineInt.

(** [enum los_direction], used as an index into [x[3]] and [dim[3]]. *)
Inductive los_direction : Type :=
| simulation_x_axis
| simulation_y_axis
| simulation_z_axis.

(** A [double v[3]]. *)
Record vec3 : Type := Vec3 { v0 : Q; v1 : Q; v2 : Q }.

Definition at_axis (v : vec3) (a : los_direction) : Q :=
  match a with
  | simulation_x_axis => v0 v
  | simulation_y_axis => v1 v
  | simulation_z_axis => v2 v
  end.

(** The fields of [struct part] read by the filter. *)
Record part : Type := Part {
  x : vec3;
  h : Q;
  time_bin : Z
}.

(** [struct xpart] is copied as an opaque record. *)
Record xpart : Type := XPart { xpart_payload : Z }.

Record line_of_sight : Type := Los {
  Xpos : Q;
  Ypos : Q;
  particles_in_los_local : Z;
  particles_in_los_total : Z;
  xaxis : los_direction;
  yaxis : los_direction;
  zaxis : los_direction;
  periodic : Z;
  dim : vec3
}.

Definition set_particles_in_los_local (l : line_of_sight) (n : Z) :=
  Los (Xpos l) (Ypos l) n (particles_in_los_total l)
      (xaxis l) (yaxis l) (zaxis l) (periodic l) (dim l).

Definition set_particles_in_los_total (l : line_of_sight) (n : Z) :=
  Los (Xpos l) (Ypos l) (particles_in_los_local l) n
      (xaxis l) (yaxis l) (zaxis l) (periodic l) (dim l).

Definition create_line_of_sight (Xpos Ypos : Q)
           (xaxis yaxis zaxis : los_direction)
           (periodic : Z) (dim : vec3) : line_of_sight :=
  Los Xpos Ypos 0 0 xaxis yaxis zaxis periodic dim.

Section Filter.

(** [kernel_gamma] (kernel_hydro.h), [time_bin_inhibited] (timeline.h)
    and [nearest] (periodic.h) are defined outside the sources at hand. *)
Variable kernel_gamma : Q.
Variable time_bin_inhibited : Z.
Variable nearest : Q -> Q -> Q.

(** Body of the loop of [los_first_loop_mapper]: the new value of
    [los_particle_count] after looking at one part. *)
Definition first_loop_body (LOS_list : line_of_sight) (p : part)
           (los_particle_count : Z) : Z :=
  if time_bin p =? time_bin_inhibited then los_particle_count
  else
    let dx := (at_axis (x p) (xaxis LOS_list) - Xpos LOS_list)%Q in
    let dx := if periodic LOS_list =? 0 then dx
              else nearest dx (at_axis (dim LOS_list) (xaxis LOS_list)) in
    let hsml := (h p * kernel_gamma)%Q in
    if Qle_bool dx hsml then
      let dy := (at_axis (x p) (yaxis LOS_list) - Ypos LOS_list)%Q in
      let dy := if periodic LOS_list =? 0 then dy
                else nearest dy (at_axis (dim LOS_list) (yaxis LOS_list)) in
      if Qle_bool dy hsml then
        let r2 := (dx * dx + dy * dy)%Q in
        if Qle_bool r2 (hsml * hsml) then los_particle_count + 1
        else los_particle_count
      else los_particle_count
    else los_particle_count.

Fixpoint first_loop (LOS_list : line_of_sight) (parts : list part)
         (los_particle_count : Z) : Z :=
  match parts with
  | [] => los_particle_count
  | p :: rest =>
      first_loop LOS_list rest (first_loop_body LOS_list p los_particle_count)
  end.

(** [los_first_loop_mapper(map_data, count, extra_data)]: [map_data] is the
    chunk of [count] parts, the result is the updated sightline after the
    final [atomic_add]. *)
Definition los_first_loop_mapper (map_data : list part)
           (extra_data : line_of_sight) : line_of_sight :=
  let los_particle_count := first_loop extra_data map_data 0 in
  set_particles_in_los_local extra_data
    (particles_in_los_local extra_data + los_particle_count).

(** [threadpool_map]: the mapper is run once per chunk, every chunk
    against the same shared sightline; the order in which chunks are
    taken is up to the scheduler. *)
Definition threadpool_map (chunks : list (list part))
           (extra_data : line_of_sight) : line_of_sight :=
  fold_left (fun los chunk => los_first_loop_mapper chunk los)
            chunks extra_data.

(** The second loop of [do_line_of_sight]: state is the pair of output
    buffers (filled up to [count]) together with [count]. *)
Record los_buffers : Type := LosBuffers {
  LOS_parts : list part;
  LOS_xparts : list xpart;
  count : Z
}.

Definition second_loop_body (los : line_of_sight) (p : part) (xp : xpart)
           (b : los_buffers) : los_buffers :=
  if time_bin p =? time_bin_inhibited then b
  else
    let dx := (at_axis (x p) (xaxis los) - Xpos los)%Q in
    let dx := if periodic los =? 0 then dx
              else nearest dx (at_axis (dim los) (xaxis los)) in
    let hsml := (h p * kernel_gamma)%Q in
    if Qle_bool dx hsml then
      let dy := (at_axis (x p) (yaxis los) - Ypos los)%Q in
      let dy := if periodic los =? 0 then dy
                else nearest dy (at_axis (dim los) (yaxis los)) in
      if Qle_bool dy hsml then
        let r2 := (dx * dx + dy * dy)%Q in
        if Qle_bool r2 (hsml * hsml) then
          (* memcpy(&LOS_parts[count], ...); memcpy(&LOS_xparts[count], ...) *)
          LosBuffers (LOS_parts b ++ [p]) (LOS_xparts b ++ [xp]) (count b + 1)
        else b
      else b
    else b.

Fixpoint second_loop (los : line_of_sight) (parts : list part)
         (xparts : list xpart) (b : los_buffers) : los_buffers :=
  match parts, xparts with
  | p :: ps, xp :: xps =>
      second_loop los ps xps (second_loop_body los p xp b)
  | _, _ => b
  end.

(** ** The membership predicate in the words of the specification *)

Definition wrapped_dx (los : line_of_sight) (p : part) : Q :=
  let d := (at_axis (x p) (xaxis los) - Xpos los)%Q in
  if periodic los =? 0 then d
  else nearest d (at_axis (dim los) (xaxis los)).

Definition wrapped_dy (los : line_of_sight) (p : part) : Q :=
  let d := (at_axis (x p) (yaxis los) - Ypos los)%Q in
  if periodic los =? 0 then d
  else nearest d (at_axis (dim los) (yaxis los)).

(** Not inhibited and squared planar distance at most (h * kernel_gamma)^2. *)
Definition planar_distance_predicate (los : line_of_sight) (p : part) : bool :=
  negb (time_bin p =? time_bin_inhibited)
  && Qle_bool (wrapped_dx los p * wrapped_dx los p
               + wrapped_dy los p * wrapped_dy los p)
              ((h p * kernel_gamma) * (h p * kernel_gamma)).

(** The predicate of the code, guards included. *)
Definition guarded_predicate (los : line_of_sight) (p : part) : bool :=
  negb (time_bin p =? time_bin_inhibited)
  && Qle_bool (wrapped_dx los p) (h p * kernel_gamma)
  && Qle_bool (wrapped_dy los p) (h p * kernel_gamma)
  && Qle_bool (wrapped_dx los p * wrapped_dx los p
               + wrapped_dy los p * wrapped_dy los p)
              ((h p * kernel_gamma) * (h p * kernel_gamma)).

(** A record is counted by the first pass when running the mapper on it
    alone raises the local count by one. *)
Definition counted_by_first_pass (los : line_of_sight) (p : part) : Prop :=
  particles_in_los_local (los_first_loop_mapper [p] los)
  = particles_in_los_local los + 1.

(** Indices (counted from [i]) of the records of [parts] that pass the
    predicate of the code. *)
Fixpoint accepted_indices (los : line_of_sight) (parts : list part) (i : nat)
  : list nat :=
  match parts with
  | [] => []
  | p :: rest =>
      if guarded_predicate los p
      then i :: accepted_indices los rest (S i)
      else accepted_indices los rest (S i)
  end.

End Filter.


(** ** Concrete values of the external constants, for evaluation *)

(** Modelled from the spec: periodic.h is not among the sources; [nearest]
    wraps a coordinate difference into the range implied by the domain size,
    [[-dim/2, dim/2]]. *)
Definition box_wrap (dx dim : Q) : Q :=
  if Qle_bool dx (dim / 2) then
    if Qle_bool (- (dim / 2)) dx then dx else (dx + dim)%Q
  else (dx - dim)%Q.

(** The support multiplier of the 3-D cubic spline kernel and the time bin
    that marks a removed particle. *)
Definition cubic_spline_gamma : Q := 1825742 # 1000000.
Definition inhibited_bin : Z := 58.

Definition origin : vec3 := Vec3 0 0 0.
Definition default_part : part := Part origin 0 0.
Definition default_xpart : xpart := XPart 0.

(** A periodic sightline at (1/2, 1/2) shooting down z in a box of side 10,
    and four particles: one on the sightline, one far away, one inhibited,
    one that is close only across the periodic boundary. *)
Definition sample_los : line_of_sight :=
  create_line_of_sight (1 # 2) (1 # 2) simulation_x_axis simulation_y_axis
                       simulation_z_axis 1 (Vec3 10 10 10).

Definition sample_parts : list part :=
  [ Part (Vec3 (1 # 2) (1 # 2) 3) (1 # 10) 0;
    Part (Vec3 5 5 5) (1 # 10) 0;
    Part (Vec3 (1 # 2) (1 # 2) 0) (1 # 10) inhibited_bin;
    Part (Vec3 (99 # 10) (1 # 2) 1) 1 0 ].

Definition sample_xparts : list xpart :=
  [ XPart 10; XPart 11; XPart 12; XPart 13 ].

Definition sample_chunks : list (list part) :=
  [ firstn 2 sample_parts; skipn 2 sample_parts ].

(** A particle sitting on a non-periodic sightline through the origin, with
    smoothing length -1. *)
Definition origin_los : line_of_sight :=
  create_line_of_sight 0 0 simulation_x_axis simulation_y_axis
                       simulation_z_axis 0 (Vec3 10 10 10).

Definition negative_h_part : part := Part origin (-1) 0.

(** ** Sightline generation: [los_init], [generate_line_of_sights] *)

Record los_props : Type := LosProps {
  num_along_xy : Z;
  num_along_yz : Z;
  num_along_xz : Z;
  num_tot : Z;
  xmin : Q; xmax : Q;
  ymin : Q; ymax : Q;
  zmin : Q; zmax : Q;
  basename : string
}.

Section Init.

(** The parameter-file readers live in a parser that is not part of the
    sources at hand; each takes the store, the key and (for the optional
    readers) the default. *)
Variable swift_params : Type.
Variable parser_get_opt_param_int : swift_params -> string -> Z -> Z.
Variable parser_get_opt_param_double : swift_params -> string -> Q -> Q.
Variable parser_get_param_string : swift_params -> string -> string.

Definition los_init (dim : vec3) (params : swift_params) : los_props :=
  let num_along_xy :=
    parser_get_opt_param_int params "LineOfSight:num_along_xy" 0 in
  let num_along_yz :=
    parser_get_opt_param_int params "LineOfSight:num_along_yz" 0 in
  let num_along_xz :=
    parser_get_opt_param_int params "LineOfSight:num_along_xz" 0 in
  let xmin := parser_get_opt_param_double params "LineOfSight:xmin" 0%Q in
  let xmax := parser_get_opt_param_double params "LineOfSight:xmax" (v0 dim) in
  let ymin := parser_get_opt_param_double params "LineOfSight:ymin" 0%Q in
  let ymax := parser_get_opt_param_double params "LineOfSight:ymax" (v1 dim) in
  let zmin := parser_get_opt_param_double params "LineOfSight:zmin" 0%Q in
  let zmax := parser_get_opt_param_double params "LineOfSight:zmax" (v2 dim) in
  let num_tot := int_add (int_add num_along_xy num_along_yz) num_along_xz in
  LosProps num_along_xy num_along_yz num_along_xz num_tot
           xmin xmax ymin ymax zmin zmax
           (parser_get_param_string params "LineOfSight:basename").

End Init.

Section Generate.

(** [RAND_MAX] comes from the C library; [rand k] is the value returned by
    the k-th call of [rand()] (the process-wide generator is never seeded
    here, so the sequence is simply an input). *)
Variable RAND_MAX : Z.
Variable rand : nat -> Z.

(** State threaded through the three loops: number of [rand()] calls made so
    far, the filled prefix [Los[0..count)] and [count]. *)
Record gen_state : Type := GenState {
  rand_calls : nat;
  Los_filled : list line_of_sight;
  gen_count : Z
}.

(** [(float)rand() / (float)(RAND_MAX) * (hi - lo) + lo] *)
Definition draw (k : nat) (lo hi : Q) : Q :=
  (inject_Z (rand k) / inject_Z RAND_MAX * (hi - lo) + lo)%Q.

(** One iteration of one of the three loops: two draws, one
    [create_line_of_sight] into [Los[count]], [count += 1]. *)
Definition generate_one (lo1 hi1 lo2 hi2 : Q)
           (xaxis yaxis zaxis : los_direction)
           (periodic : Z) (dim : vec3) (st : gen_state) : gen_state :=
  let Xpos := draw (rand_calls st) lo1 hi1 in
  let Ypos := draw (S (rand_calls st)) lo2 hi2 in
  GenState (S (S (rand_calls st)))
           (Los_filled st ++
              [create_line_of_sight Xpos Ypos xaxis yaxis zaxis periodic dim])
           (int_add (gen_count st) 1).

(** [for (int i = 0; i < n; i++) body], by the number of iterations left. *)
Fixpoint for_loop {S : Type} (iterations : nat) (body : S -> S) (st : S) : S :=
  match iterations with
  | O => st
  | Datatypes.S k => for_loop k body (body st)
  end.

Definition generate_line_of_sights (params : los_props) (periodic : Z)
           (dim : vec3) : outcome (list line_of_sight) :=
  let st := GenState 0 [] 0 in
  (* Sightlines in XY plane, shoots down Z. *)
  let st := for_loop (Z.to_nat (num_along_xy params))
              (generate_one (xmin params) (xmax params)
                            (ymin params) (ymax params)
                            simulation_x_axis simulation_y_axis
                            simulation_z_axis periodic dim) st in
  (* Sightlines in YZ plane, shoots down X. *)
  let st := for_loop (Z.to_nat (num_along_yz params))
              (generate_one (ymin params) (ymax params)
                            (zmin params) (zmax params)
                            simulation_y_axis simulation_z_axis
                            simulation_x_axis periodic dim) st in
  (* Sightlines in XZ plane, shoots down Y. *)
  let st := for_loop (Z.to_nat (num_along_xz params))
              (generate_one (xmin params) (xmax params)
                            (zmin params) (zmax params)
                            simulation_x_axis simulation_z_axis
                            simulation_y_axis periodic dim) st in
  if negb (gen_count st =? num_tot params)
  then Fatal "Could not make the right number of sightlines"
  else Returns (Los_filled st).

End Generate.

(** [v] lies between the two bounds, whichever is the larger. *)
Definition between (a b v : Q) : Prop := (Qmin a b <= v <= Qmax a b)%Q.

(** The planar position of a sightline lies in the rectangle spanned by the
    configured bounds of the plane it was drawn in. *)
Definition within_configured_rectangle (params : los_props)
           (los : line_of_sight) : Prop :=
  match xaxis los, yaxis los with
  | simulation_x_axis, simulation_y_axis =>
      between (xmin params) (xmax params) (Xpos los)
      /\ between (ymin params) (ymax params) (Ypos los)
  | simulation_y_axis, simulation_z_axis =>
      between (ymin params) (ymax params) (Xpos los)
      /\ between (zmin params) (zmax params) (Ypos los)
  | simulation_x_axis, simulation_z_axis =>
      between (xmin params) (xmax params) (Xpos los)
      /\ between (zmin params) (zmax params) (Ypos los)
  | _, _ => False
  end.

(** The same with the intervals [[min, max]] written out. *)
Definition within_min_max (params : los_props) (los : line_of_sight) : Prop :=
  match xaxis los, yaxis los with
  | simulation_x_axis, simulation_y_axis =>
      (xmin params <= Xpos los <= xmax params
       /\ ymin params <= Ypos los <= ymax params)%Q
  | simulation_y_axis, simulation_z_axis =>
      (ymin params <= Xpos los <= ymax params
       /\ zmin params <= Ypos los <= zmax params)%Q
  | simulation_x_axis, simulation_z_axis =>
      (xmin params <= Xpos los <= xmax params
       /\ zmin params <= Ypos los <= zmax params)%Q
  | _, _ => False
  end.

(** A parameter store for evaluation: keys with integer or rational values;
    the optional readers fall back on the default when the key is absent. *)
Record sample_store : Type := SampleStore {
  int_entries : list (string * Z);
  double_entries : list (string * Q);
  string_entries : list (string * string)
}.

Fixpoint assoc {V : Type} (key : string) (l : list (string * V)) : option V :=
  match l with
  | [] => None
  | (k, v) :: rest => if String.eqb key k then Some v else assoc key rest
  end.

Definition sample_get_opt_int (st : sample_store) (key : string) (def : Z)
  : Z :=
  match assoc key (int_entries st) with Some v => v | None => def end.

Definition sample_get_opt_double (st : sample_store) (key : string) (def : Q)
  : Q :=
  match assoc key (double_entries st) with Some v => v | None => def end.

Definition sample_get_string (st : sample_store) (key : string) : string :=
  match assoc key (string_entries st) with Some v => v | None => "" end.

(** Two sightlines in the XY plane, one in YZ, none in XZ, x restricted to
    [[2, 4]], the other axes left at the full extent of a box of side 10. *)
Definition sample_params_store : sample_store :=
  SampleStore [("LineOfSight:num_along_xy"%string, 2);
               ("LineOfSight:num_along_yz"%string, 1)]
              [("LineOfSight:xmin"%string, 2%Q);
               ("LineOfSight:xmax"%string, 4%Q)]
              [("LineOfSight:basename"%string, "los"%string)].

Definition sample_los_props : los_props :=
  los_init sample_store sample_get_opt_int sample_get_opt_double
           sample_get_string (Vec3 10 10 10) sample_params_store.

(** A random source for evaluation, cycling through 0, RAND_MAX/4, ...,
    RAND_MAX with [RAND_MAX = 2^31 - 1]. *)
Definition sample_RAND_MAX : Z := 2147483647.
Definition sample_rand (k : nat) : Z :=
  (Z.of_nat (k mod 5) * sample_RAND_MAX) / 4.

(** ** Cross-rank counts and displacements (WITH_MPI build) *)

(** The loop over [k] after [MPI_Allgather]: accumulates
    [particles_in_los_total], fills [LOS_disps[k]] and advances the [int]
    [disp_count]. *)
Fixpoint count_disp_loop (LOS_counts : list Z) (los : line_of_sight)
         (LOS_disps : list Z) (disp_count : Z) : line_of_sight * list Z :=
  match LOS_counts with
  | [] => (los, LOS_disps)
  | c :: rest =>
      let los := set_particles_in_los_total los
                   (int_add (particles_in_los_total los) c) in
      let LOS_disps := LOS_disps ++ [disp_count] in
      count_disp_loop rest los LOS_disps (int_add disp_count c)
  end.

(** Sum of a vector of counts. *)
Definition sum_Z (l : list Z) : Z := fold_right Z.add 0 l.

(** [size_t] addition. *)
Definition size_t_add (a b : Z) : Z := (a + b) mod 2 ^ 64.


(** ** The extraction pass of [do_line_of_sight] (WITH_MPI build) *)

(** What one rank holds: its particle arrays and the chunks its thread pool
    cuts [parts] into for the counting pass. *)
Record rank_data : Type := RankData {
  rank_parts : list part;
  rank_xparts : list xpart;
  rank_chunks : list (list part)
}.

(** Observable actions of one rank during the pass. *)
Inductive los_event : Type :=
| EvFileCreate
| EvPrintLosInfo (j : Z)
| EvWarningEmpty (j : Z)
| EvMalloc (label : string) (elements : Z)
| EvGatherv (sendcount : Z) (recvcounts displs : list Z)
| EvGroupCreate (j : Z)
| EvWriteAttribute (name : string)
| EvWriteDatasets (j : Z) (N : Z)
| EvGroupClose (j : Z)
| EvFree (label : string)
| EvWriteHeader (total_num_parts_in_los : Z)
| EvFileClose.

Record los_pass_state : Type := LosPassState {
  trace : list los_event;
  total_num_parts_in_los : Z;
  LOS_done : list line_of_sight
}.

Section Driver.

Variable kernel_gamma : Q.
Variable time_bin_inhibited : Z.
Variable nearest : Q -> Q -> Q.

(** Build flag, and the outcome of the calls that can fail outside the
    program's control. *)
Variable SWIFT_DEBUG_CHECKS : bool.
Variable swift_malloc_ok : string -> Z -> bool.
Variable H5Gcreate_ok : Z -> bool.

(** Counting pass on every rank, [MPI_Allgather] of the local counts, then
    the loop that builds the total and the displacements.  Returns this
    rank's updated sightline, [LOS_counts] and [LOS_disps]. *)
Definition los_count_phase (world : list rank_data) (me : rank_data)
           (los : line_of_sight) : line_of_sight * list Z * list Z :=
  let mine :=
    threadpool_map kernel_gamma time_bin_inhibited nearest
                   (rank_chunks me) los in
  let LOS_counts :=
    map (fun r => particles_in_los_local
                    (threadpool_map kernel_gamma time_bin_inhibited nearest
                                    (rank_chunks r) los)) world in
  let '(mine, LOS_disps) := count_disp_loop LOS_counts mine [] 0 in
  (mine, LOS_counts, LOS_disps).

(** The sightline as this rank holds it after the counting phase. *)
Definition los_recorded (world : list rank_data) (me : rank_data)
           (los : line_of_sight) : line_of_sight :=
  fst (fst (los_count_phase world me los)).

(** Body of the main loop over sightlines, for sightline [j] on rank
    [nodeID]. *)
Definition los_iteration (nodeID : Z) (world : list rank_data)
           (me : rank_data) (j : Z) (los : line_of_sight)
           (st : los_pass_state) : outcome los_pass_state :=
  let '(los, LOS_counts, LOS_disps) := los_count_phase world me los in
  let total := size_t_add (total_num_parts_in_los st)
                          (particles_in_los_total los) in
  let tr := trace st ++
            (if SWIFT_DEBUG_CHECKS && (nodeID =? 0)
             then [EvPrintLosInfo j] else []) in
  (* Don't work with empty LOS *)
  if particles_in_los_total los =? 0 then
    let tr := tr ++ (if nodeID =? 0
                     then [EvWarningEmpty j; EvPrintLosInfo j] else []) in
    Returns (LosPassState tr total (LOS_done st ++ [los]))
  else
    let elements := if nodeID =? 0 then particles_in_los_total los
                    else particles_in_los_local los in
    if negb (swift_malloc_ok "los_parts_array" elements)
    then Fatal "Failed to allocate LOS part memory."
    else if negb (swift_malloc_ok "los_xparts_array" elements)
    then Fatal "Failed to allocate LOS xpart memory."
    else
      let tr := tr ++ [EvMalloc "los_parts_array" elements;
                       EvMalloc "los_xparts_array" elements] in
      let b := second_loop kernel_gamma time_bin_inhibited nearest los
                           (rank_parts me) (rank_xparts me)
                           (LosBuffers [] [] 0) in
      if SWIFT_DEBUG_CHECKS && negb (count b =? particles_in_los_local los)
      then Fatal "LOS counts don't add up"
      else
        let sendcount := if nodeID =? 0 then 0
                         else particles_in_los_local los in
        let tr := tr ++ [EvGatherv sendcount LOS_counts LOS_disps;
                         EvGatherv sendcount LOS_counts LOS_disps] in
        if nodeID =? 0 then
          if negb (H5Gcreate_ok j)
          then Fatal "Error while creating LOS HDF5 group"
          else
            let tr := tr ++ [EvGroupCreate j;
                             EvWriteAttribute "NumParts";
                             EvWriteAttribute "Xaxis";
                             EvWriteAttribute "Yaxis";
                             EvWriteAttribute "Zaxis";
                             EvWriteAttribute "Xpos";
                             EvWriteAttribute "Ypos";
                             EvWriteDatasets j (particles_in_los_total los);
                             EvGroupClose j;
                             EvFree "los_parts_array";
                             EvFree "los_xparts_array"] in
            Returns (LosPassState tr total (LOS_done st ++ [los]))
        else
          let tr := tr ++ [EvFree "los_parts_array";
                           EvFree "los_xparts_array"] in
          Returns (LosPassState tr total (LOS_done st ++ [los])).

(** [for (int j = 0; j < LOS_params->num_tot; j++)], over the sightlines
    still to be done, the first of which has index [j]. *)
Fixpoint los_main_loop (nodeID : Z) (world : list rank_data) (me : rank_data)
         (j : Z) (LOS_list : list line_of_sight) (st : los_pass_state)
  : outcome los_pass_state :=
  match LOS_list with
  | [] => Returns st
  | los :: rest =>
      st <- los_iteration nodeID world me j los st ;;
      los_main_loop nodeID world me (j + 1) rest st
  end.

(** The whole pass on rank [nodeID], given the sightlines every rank holds
    after the broadcast; [H5Fcreate_ok] tells whether rank 0 could create
    the file. *)
Definition do_line_of_sight (nodeID : Z) (world : list rank_data)
           (me : rank_data) (H5Fcreate_ok : bool)
           (LOS_list : list line_of_sight) : outcome los_pass_state :=
  if (nodeID =? 0) && negb H5Fcreate_ok
  then Fatal "Error while opening file"
  else
    let st := LosPassState (if nodeID =? 0 then [EvFileCreate] else []) 0 [] in
    st <- los_main_loop nodeID world me 0 LOS_list st ;;
    Returns (LosPassState
               (trace st ++ (if nodeID =? 0
                             then [EvWriteHeader (total_num_parts_in_los st);
                                   EvFileClose]
                             else []))
               (total_num_parts_in_los st) (LOS_done st)).

End Driver.

(** A run on two ranks: rank 0 holds a single particle far from every
    sightline, rank 1 holds [sample_parts]; the second sightline passes
    through empty space. *)
Definition far_part : part := Part (Vec3 5 5 5) (1 # 10) 0.

Definition sample_rank0 : rank_data :=
  RankData [far_part] [XPart 1] [[far_part]].

Definition sample_rank1 : rank_data :=
  RankData sample_parts sample_xparts sample_chunks.

Definition sample_world : list rank_data := [sample_rank0; sample_rank1].

Definition empty_los : line_of_sight :=
  create_line_of_sight 8 8 simulation_x_axis simulation_y_axis
                       simulation_z_axis 1 (Vec3 10 10 10).

Definition sample_LOS_list : list line_of_sight := [sample_los; empty_los].

Definition always_ok_malloc (label : string) (elements : Z) : bool := true.
Definition always_ok_group (j : Z) : bool := true.

(** The pass on rank 0 of the sample run, debug checks on. *)
Definition sample_pass : outcome los_pass_state :=
  do_line_of_sight cubic_spline_gamma inhibited_bin box_wrap true
                   always_ok_malloc always_ok_group
                   0 sample_world sample_rank0 true sample_LOS_list.


(** ** Dataset creation in [write_los_hdf5_dataset] *)

(** The fields of [struct io_props] that decide the layout. *)
Record io_props : Type := IoProps {
  name : string;
  dimension : Z
}.

(** [write_los_hdf5_dataset] up to [H5Dcreate]: the data space and the
    creation property list the dataset is created with ([N] is a [size_t],
    [snapshot_compression] is [e->snapshot_compression]).  Every HDF5 call
    is taken to succeed. *)
Definition write_los_hdf5_dataset (props : io_props) (N : Z)
           (snapshot_compression : Z) : H5.dataset_layout :=
  let h_space := H5.H5Screate_simple_empty in
  let '(rank, shape, chunk_shape) :=
    if dimension props >? 1
    then (2, [H5.to_hsize N; H5.to_hsize (dimension props)],
             [H5.to_hsize (Z.shiftl 1 20); H5.to_hsize (dimension props)])
    else (1, [H5.to_hsize N; 0],
             [H5.to_hsize (Z.shiftl 1 20); 0]) in
  (* Make sure the chunks are not larger than the dataset *)
  let chunk_shape :=
    if nth 0 chunk_shape 0 >? H5.to_hsize N
    then H5.to_hsize N :: tl chunk_shape
    else chunk_shape in
  let h_space := H5.H5Sset_extent_simple h_space rank shape in
  let h_prop := H5.H5Pcreate_dataset_create in
  let h_prop := H5.H5Pset_chunk h_prop rank chunk_shape in
  (* Impose check-sum to verify data corruption *)
  let h_prop := H5.H5Pset_fletcher32 h_prop in
  (* Impose data compression *)
  let h_prop :=
    if snapshot_compression >? 0
    then H5.H5Pset_deflate (H5.H5Pset_shuffle h_prop) snapshot_compression
    else h_prop in
  H5.DatasetLayout h_space h_prop.

End LineOfSight.

(* ===================================================================== *)
(** * src/serial_io.c                                                     *)
(* ===================================================================== *)

Module SerialIO.

Import MachineInt.

(** ** Particle memory *)

(** Byte-addressed memory holding the particle array; addresses are offsets
    from the start of the array. *)
Definition memory : Type := nat -> byte.

Definition in_range (dst n a : nat) : bool :=
  (dst <=? a)%nat && (a <? dst + n)%nat.

(** [memset(dst, 0, n)] *)
Definition memset_zero (m : memory) (dst n : nat) : memory :=
  fun a => if in_range dst n a then x00 else m a.

(** [memcpy(dst, &src[from], n)] out of a buffer held as a list of bytes. *)
Definition memcpy_from (m : memory) (dst : nat) (src : list byte)
           (from n : nat) : memory :=
  fun a => if in_range dst n a then nth (from + (a - dst)) src x00 else m a.

(** ** The file side of [readArray] *)

(** A dataset of a particle group: one row of bytes per particle. *)
Definition dataset : Type := list (list byte).

(** A particle group of the file, together with the faults the library may
    report on it. *)
Record h5_group : Type := H5Group {
  datasets : list (string * dataset);
  H5Lexists_fails : bool;
  H5Dopen_fails : bool;
  H5Dget_type_fails : bool;
  H5Dread_fails : bool
}.

Fixpoint lookup_dataset (name : string) (l : list (string * dataset))
  : option dataset :=
  match l with
  | [] => None
  | (n, d) :: rest => if String.eqb name n then Some d
                      else lookup_dataset name rest
  end.

(** [H5Lexists(grp, name, 0)]: negative on failure, zero when the link is
    absent, positive when it is there. *)
Definition H5Lexists (grp : h5_group) (name : string) : Z :=
  if H5Lexists_fails grp then -1
  else match lookup_dataset name (datasets grp) with
       | Some _ => 1
       | None => 0
       end.

(** Rows [offset, offset + N) of a dataset, [width] bytes of each. *)
Definition hyperslab (d : dataset) (offset N width : nat) : list (list byte) :=
  map (firstn width) (firstn N (skipn offset d)).

(** [H5Dread] of the selection [offsets = {offset, 0}], [shape = {N, cols}]
    into the temporary buffer; [None] stands for [h_err < 0]. *)
Definition H5Dread (grp : h5_group) (name : string) (offset N width : nat)
  : option (list byte) :=
  if H5Dread_fails grp then None
  else match lookup_dataset name (datasets grp) with
       | None => None
       | Some d =>
           if (offset + N <=? List.length d)%nat
           then Some (concat (hyperslab d offset N width))
           else None
       end.

Inductive IO_IMPORTANCE : Type := COMPULSORY | OPTIONAL.

Section ReadArray.

(** [enum DATA_TYPE], [sizeOfType], [isDoublePrecision] (common_io.h),
    [enum UnitConversionFactor], [struct UnitSystem] and
    [units_conversion_factor] (units.h) are declared outside the sources at
    hand.  [scale_buffer dbl factor buf] stands for the in-place
    [temp[i] *= factor] over the buffer read as doubles ([dbl = true]) or
    floats. *)
Variable DATA_TYPE : Type.
Variable sizeOfType : DATA_TYPE -> nat.
Variable isDoublePrecision : DATA_TYPE -> bool.
Variable UnitConversionFactor : Type.
Variable UnitSystem : Type.
Variable units_conversion_factor :
  UnitSystem -> UnitSystem -> UnitConversionFactor -> Q.
Variable scale_buffer : bool -> Q -> list byte -> list byte.
Variable malloc_ok : nat -> bool.

(** [struct io_props]: [field] is the address of the first occurrence of the
    field in the particle array, [partSize] the size of one particle. *)
Record io_props : Type := IoProps {
  name : string;
  type : DATA_TYPE;
  dimension : Z;
  importance : IO_IMPORTANCE;
  units : UnitConversionFactor;
  field : nat;
  partSize : nat
}.

(** [for (size_t i = 0; i < N; ++i) memset(props.field + i * props.partSize,
    0, copySize);], by the iterations left, [i] being the current index. *)
Fixpoint zero_fill_loop (props : io_props) (copySize : nat)
         (iterations i : nat) (m : memory) : memory :=
  match iterations with
  | O => m
  | S k =>
      zero_fill_loop props copySize k (S i)
        (memset_zero m (field props + i * partSize props) copySize)
  end.

(** [for (size_t i = 0; i < N; ++i) memcpy(props.field + i * props.partSize,
    &temp_c[i * copySize], copySize);] *)
Fixpoint copy_loop (props : io_props) (copySize : nat) (temp_c : list byte)
         (iterations i : nat) (m : memory) : memory :=
  match iterations with
  | O => m
  | S k =>
      copy_loop props copySize temp_c k (S i)
        (memcpy_from m (field props + i * partSize props) temp_c
                     (i * copySize) copySize)
  end.

(** [readArray]: the particle memory after the call, or the fatal error. *)
Definition readArray (grp : h5_group) (props : io_props) (N : nat)
           (N_total : Z) (offset : nat)
           (internal_units ic_units : UnitSystem) (m : memory)
  : outcome memory :=
  let typeSize := sizeOfType (type props) in
  let copySize := (typeSize * Z.to_nat (dimension props))%nat in
  let num_elements := (N * Z.to_nat (dimension props))%nat in
  (* Check whether the dataspace exists or not *)
  let exist := H5Lexists grp (name props) in
  if exist <? 0 then
    Fatal "Error while checking the existence of data set"
  else if exist =? 0 then
    match importance props with
    | COMPULSORY => Fatal "Compulsory data set not present in the file."
    | OPTIONAL => Returns (zero_fill_loop props copySize N 0 m)
    end
  else
    (* Open data space *)
    if H5Dopen_fails grp then Fatal "Error while opening data space"
    else if H5Dget_type_fails grp
    then Fatal "Unable to retrieve data type from the file"
    else if negb (malloc_ok (num_elements * typeSize))
    then Fatal "Unable to allocate memory for temporary buffer"
    else
      (* Prepare information for hyper-slab *)
      let cols := if dimension props >? 1 then Z.to_nat (dimension props)
                  else 1%nat in
      match H5Dread grp (name props) offset N (cols * typeSize) with
      | None => Fatal "Error while reading data array"
      | Some temp =>
          (* Unit conversion if necessary *)
          let factor :=
            units_conversion_factor ic_units internal_units (units props) in
          let temp :=
            if negb (Qeq_bool factor 1) && negb (exist =? 0)
            then scale_buffer (isDoublePrecision (type props)) factor temp
            else temp in
          (* Copy temporary buffer to particle data *)
          Returns (copy_loop props copySize temp N 0 m)
      end.

(** ** [prepareArray] *)

(** [prepareArray] up to [H5Dcreate]: the data space and the creation
    property list of the dataset ([N_total] is a [long long]).  Every HDF5
    call is taken to succeed. *)
Definition prepareArray (props : io_props) (N_total : Z) : H5.dataset_layout :=
  let h_space := H5.H5Screate_simple_empty in
  let '(rank, shape, chunk_shape) :=
    if dimension props >? 1
    then (2, [H5.to_hsize N_total; H5.to_hsize (dimension props)],
             [H5.to_hsize (Z.shiftl 1 16); H5.to_hsize (dimension props)])
    else (1, [H5.to_hsize N_total; 0],
             [H5.to_hsize (Z.shiftl 1 16); 0]) in
  (* Make sure the chunks are not larger than the dataset *)
  let chunk_shape :=
    if nth 0 chunk_shape 0 >? H5.to_hsize N_total
    then H5.to_hsize N_total :: tl chunk_shape
    else chunk_shape in
  let h_space := H5.H5Sset_extent_simple h_space rank shape in
  let h_prop := H5.H5Pcreate_dataset_create in
  let h_prop := H5.H5Pset_chunk h_prop rank chunk_shape in
  (* Impose data compression *)
  let h_prop := H5.H5Pset_deflate h_prop 4 in
  H5.DatasetLayout h_space h_prop.

End ReadArray.

(** ** Division of the particles among the ranks in [read_ic_serial] *)

(** [offset[ptype] = mpi_rank * N_total[ptype] / mpi_size;] with [mpi_rank],
    [mpi_size] of type [int] and [N_total] of type [long long]. *)
Definition read_ic_offset (mpi_rank mpi_size N_total : Z) : Z :=
  llong_div (llong_mul mpi_rank N_total) mpi_size.

(** [N[ptype] = (mpi_rank + 1) * N_total[ptype] / mpi_size - offset[ptype];]
    stored in a [size_t]. *)
Definition read_ic_N (mpi_rank mpi_size N_total : Z) : Z :=
  (llong_sub (llong_div (llong_mul (int_add mpi_rank 1) N_total) mpi_size)
             (read_ic_offset mpi_rank mpi_size N_total)) mod 2 ^ 64.

(** ** Offsets and totals in [write_output_serial] *)

(** [MPI_Exscan(..., MPI_SUM)] over one [long long] per rank: rank [r]
    receives the sum of the values of the ranks below it; rank 0 keeps the
    zero its [offset] was initialised with. *)
Fixpoint MPI_Exscan_sum (below : Z) (N : list Z) : list Z :=
  match N with
  | [] => []
  | n :: rest => below :: MPI_Exscan_sum (llong_add below n) rest
  end.

(** [N_total[ptype] = offset[ptype] + N[ptype]] on every rank, then
    [MPI_Bcast] from rank [mpi_size - 1]. *)
Definition write_output_N_total (N : list Z) : Z :=
  let offset := MPI_Exscan_sum 0 N in
  let N_total :=
    map (fun on => llong_add (fst on) (snd on)) (combine offset N) in
  nth (List.length N - 1) N_total 0.

(** ** Concrete values for evaluation *)

(** [enum DATA_TYPE] as the I/O layer lists it, with the sizes of the types
    on an LP64 machine. *)
Inductive sample_DATA_TYPE : Type :=
| INT | LONG | LONGLONG | UINT | ULONG | ULONGLONG | FLOAT | DOUBLE | CHAR.

Definition sample_sizeOfType (t : sample_DATA_TYPE) : nat :=
  match t with
  | INT | UINT | FLOAT => 4
  | LONG | LONGLONG | ULONG | ULONGLONG | DOUBLE => 8
  | CHAR => 1
  end.

Definition sample_isDoublePrecision (t : sample_DATA_TYPE) : bool :=
  match t with DOUBLE => true | _ => false end.

(** A three-component [float] field at offset 8 of a 32-byte particle. *)
Definition sample_vector_field (imp : IO_IMPORTANCE)
  : io_props sample_DATA_TYPE unit :=
  IoProps sample_DATA_TYPE unit "Velocities" FLOAT 3 imp tt 8 32.

(** A group holding the dataset "Velocities" with four rows of twelve bytes
    (row [r] is filled with the byte [r + 1]), and an empty group. *)
Definition sample_rows : dataset :=
  [ repeat x01 12; repeat x02 12; repeat x03 12; repeat x04 12 ].

Definition sample_group : h5_group :=
  H5Group [("Velocities"%string, sample_rows)] false false false false.

Definition empty_group : h5_group := H5Group [] false false false false.

(** Memory filled with 0xff, unit factors, a scaling that leaves the buffer
    as it is, and an allocator that never fails. *)
Definition sample_memory : memory := fun _ => xff.
Definition unit_factor (from to : unit) (u : unit) : Q := 1%Q.
Definition no_scaling (dbl : bool) (factor : Q) (buf : list byte) := buf.
Definition malloc_always_ok (bytes : nat) : bool := true.

Definition sample_readArray (grp : h5_group) (imp : IO_IMPORTANCE)
  : outcome memory :=
  readArray sample_DATA_TYPE sample_sizeOfType sample_isDoublePrecision
            unit unit unit_factor no_scaling malloc_always_ok
            grp (sample_vector_field imp) 2 4 1 tt tt sample_memory.

End SerialIO.

(* ===================================================================== *)
(** * src/parser.h                                                        *)
(* ===================================================================== *)

Module Parser.

Import MachineInt.

Definition MAX_LINE_SIZE : nat := 128.
Definition MAX_NO_OF_PARAMS : nat := 4.

(** [struct parameter]: each [char[MAX_LINE_SIZE]] holds a C string, kept
    here as its characters up to the terminating NUL. *)
Record parameter : Type := MkParameter {
  name : string;
  value : string
}.

(** [struct swift_params]: [data] is an array of [MAX_NO_OF_PARAMS]
    entries. *)
Record swift_params : Type := SwiftParams {
  data : list parameter
}.

Definition empty_parameter : parameter := MkParameter "" "".

(** [strcmp]: zero when the strings are equal, otherwise negative or
    positive by the first characters that differ (compared as unsigned
    chars). *)
Fixpoint strcmp (s1 s2 : string) : Z :=
  match s1, s2 with
  | EmptyString, EmptyString => 0
  | EmptyString, String _ _ => -1
  | String _ _, EmptyString => 1
  | String a r1, String b r2 =>
      if Ascii.eqb a b then strcmp r1 r2
      else if (nat_of_ascii a <? nat_of_ascii b)%nat then -1 else 1
  end.

Definition isspace (c : ascii) : bool :=
  let n := nat_of_ascii c in
  (n =? 32)%nat || ((9 <=? n)%nat && (n <=? 13)%nat).

Definition isdigit (c : ascii) : bool :=
  let n := nat_of_ascii c in (48 <=? n)%nat && (n <=? 57)%nat.

Fixpoint skip_spaces (s : string) : string :=
  match s with
  | String c rest => if isspace c then skip_spaces rest else s
  | EmptyString => s
  end.

Fixpoint digits_value (acc : Z) (s : string) : Z :=
  match s with
  | String c rest =>
      if isdigit c
      then digits_value (10 * acc + (Z.of_nat (nat_of_ascii c) - 48)) rest
      else acc
  | EmptyString => acc
  end.

(** [atoi]: optional white space, optional sign, decimal digits; the value
    is reduced to an [int]. *)
Definition atoi (s : string) : Z :=
  match skip_spaces s with
  | String "-"%char rest => wrap_int (- digits_value 0 rest)
  | String "+"%char rest => wrap_int (digits_value 0 rest)
  | t => wrap_int (digits_value 0 t)
  end.

(** The loop of [getParam], by the iterations left: [Some v] when the loop
    stores [v] into [*retParam] and returns, [None] when it runs to the end
    without a store. *)
Fixpoint getParam_loop (params : swift_params) (name_ : string)
         (iterations i : nat) : option Z :=
  match iterations with
  | O => None
  | S k =>
      let p := nth i (data params) empty_parameter in
      if negb (strcmp name_ (name p) =? 0)
      then Some (atoi (value p))
      else getParam_loop params name_ k (S i)
  end.

(** [getParam(params, name, retParam)]: the value of [*retParam] after the
    call, given its value before. *)
Definition getParam (params : swift_params) (name_ : string) (retParam : Z)
  : Z :=
  match getParam_loop params name_ MAX_NO_OF_PARAMS 0 with
  | Some v => v
  | None => retParam
  end.

(** The test of the loop: [strcmp(name, stored)] is non-zero. *)
Definition differs (name_ : string) (p : parameter) : bool :=
  negb (strcmp name_ (name p) =? 0).

(** A full store for evaluation, and one whose four names are all equal. *)
Definition sample_params : swift_params :=
  SwiftParams [ MkParameter "dt" " 10"; MkParameter "steps" "200";
                MkParameter "seed" "-7"; MkParameter "ranks" "4" ].

Definition uniform_params : swift_params :=
  SwiftParams [ MkParameter "dt" "1"; MkParameter "dt" "2";
                MkParameter "dt" "3"; MkParameter "dt" "4" ].

End Parser.

(* ===================================================================== *)
(** * src/stars/EAGLE/stars.h                                             *)
(* ===================================================================== *)

Module Stars.

(** [sp->to_distribute] *)
Record feedback_to_distribute : Type := ToDistribute {
  num_SNIa : Q;
  num_SNII : Q;
  num_SNe : Q;
  mass : Q;
  metal_mass : list Q;
  total_metal_mass : Q;
  mass_from_AGB : Q;
  metal_mass_from_AGB : Q;
  mass_from_SNII : Q;
  metal_mass_from_SNII : Q;
  mass_from_SNIa : Q;
  metal_mass_from_SNIa : Q;
  Fe_mass_from_SNIa : Q
}.

Definition set_num_SNIa (d : feedback_to_distribute) (v : Q) :=
  ToDistribute v (num_SNII d) (num_SNe d) (mass d) (metal_mass d)
    (total_metal_mass d) (mass_from_AGB d) (metal_mass_from_AGB d)
    (mass_from_SNII d) (metal_mass_from_SNII d) (mass_from_SNIa d)
    (metal_mass_from_SNIa d) (Fe_mass_from_SNIa d).

Definition set_num_SNII (d : feedback_to_distribute) (v : Q) :=
  ToDistribute (num_SNIa d) v (num_SNe d) (mass d) (metal_mass d)
    (total_metal_mass d) (mass_from_AGB d) (metal_mass_from_AGB d)
    (mass_from_SNII d) (metal_mass_from_SNII d) (mass_from_SNIa d)
    (metal_mass_from_SNIa d) (Fe_mass_from_SNIa d).

Definition set_num_SNe (d : feedback_to_distribute) (v : Q) :=
  ToDistribute (num_SNIa d) (num_SNII d) v (mass d) (metal_mass d)
    (total_metal_mass d) (mass_from_AGB d) (metal_mass_from_AGB d)
    (mass_from_SNII d) (metal_mass_from_SNII d) (mass_from_SNIa d)
    (metal_mass_from_SNIa d) (Fe_mass_from_SNIa d).

Definition set_mass (d : feedback_to_distribute) (v : Q) :=
  ToDistribute (num_SNIa d) (num_SNII d) (num_SNe d) v (metal_mass d)
    (total_metal_mass d) (mass_from_AGB d) (metal_mass_from_AGB d)
    (mass_from_SNII d) (metal_mass_from_SNII d) (mass_from_SNIa d)
    (metal_mass_from_SNIa d) (Fe_mass_from_SNIa d).

Definition set_metal_mass (d : feedback_to_distribute) (v : list Q) :=
  ToDistribute (num_SNIa d) (num_SNII d) (num_SNe d) (mass d) v
    (total_metal_mass d) (mass_from_AGB d) (metal_mass_from_AGB d)
    (mass_from_SNII d) (metal_mass_from_SNII d) (mass_from_SNIa d)
    (metal_mass_from_SNIa d) (Fe_mass_from_SNIa d).

Definition set_total_metal_mass (d : feedback_to_distribute) (v : Q) :=
  ToDistribute (num_SNIa d) (num_SNII d) (num_SNe d) (mass d) (metal_mass d) v
    (mass_from_AGB d) (metal_mass_from_AGB d) (mass_from_SNII d)
    (metal_mass_from_SNII d) (mass_from_SNIa d) (metal_mass_from_SNIa d)
    (Fe_mass_from_SNIa d).

Definition set_mass_from_AGB (d : feedback_to_distribute) (v : Q) :=
  ToDistribute (num_SNIa d) (num_SNII d) (num_SNe d) (mass d) (metal_mass d)
    (total_metal_mass d) v (metal_mass_from_AGB d) (mass_from_SNII d)
    (metal_mass_from_SNII d) (mass_from_SNIa d) (metal_mass_from_SNIa d)
    (Fe_mass_from_SNIa d).

Definition set_metal_mass_from_AGB (d : feedback_to_distribute) (v : Q) :=
  ToDistribute (num_SNIa d) (num_SNII d) (num_SNe d) (mass d) (metal_mass d)
    (total_metal_mass d) (mass_from_AGB d) v (mass_from_SNII d)
    (metal_mass_from_SNII d) (mass_from_SNIa d) (metal_mass_from_SNIa d)
    (Fe_mass_from_SNIa d).

Definition set_mass_from_SNII (d : feedback_to_distribute) (v : Q) :=
  ToDistribute (num_SNIa d) (num_SNII d) (num_SNe d) (mass d) (metal_mass d)
    (total_metal_mass d) (mass_from_AGB d) (metal_mass_from_AGB d) v
    (metal_mass_from_SNII d) (mass_from_SNIa d) (metal_mass_from_SNIa d)
    (Fe_mass_from_SNIa d).

Definition set_metal_mass_from_SNII (d : feedback_to_distribute) (v : Q) :=
  ToDistribute (num_SNIa d) (num_SNII d) (num_SNe d) (mass d) (metal_mass d)
    (total_metal_mass d) (mass_from_AGB d) (metal_mass_from_AGB d)
    (mass_from_SNII d) v (mass_from_SNIa d) (metal_mass_from_SNIa d)
    (Fe_mass_from_SNIa d).

Definition set_mass_from_SNIa (d : feedback_to_distribute) (v : Q) :=
  ToDistribute (num_SNIa d) (num_SNII d) (num_SNe d) (mass d) (metal_mass d)
    (total_metal_mass d) (mass_from_AGB d) (metal_mass_from_AGB d)
    (mass_from_SNII d) (metal_mass_from_SNII d) v (metal_mass_from_SNIa d)
    (Fe_mass_from_SNIa d).

Definition set_metal_mass_from_SNIa (d : feedback_to_distribute) (v : Q) :=
  ToDistribute (num_SNIa d) (num_SNII d) (num_SNe d) (mass d) (metal_mass d)
    (total_metal_mass d) (mass_from_AGB d) (metal_mass_from_AGB d)
    (mass_from_SNII d) (metal_mass_from_SNII d) (mass_from_SNIa d) v
    (Fe_mass_from_SNIa d).

Definition set_Fe_mass_from_SNIa (d : feedback_to_distribute) (v : Q) :=
  ToDistribute (num_SNIa d) (num_SNII d) (num_SNe d) (mass d) (metal_mass d)
    (total_metal_mass d) (mass_from_AGB d) (metal_mass_from_AGB d)
    (mass_from_SNII d) (metal_mass_from_SNII d) (mass_from_SNIa d)
    (metal_mass_from_SNIa d) v.

(** The fields of [struct spart] the stellar evolution reads and writes. *)
Record spart : Type := SPart {
  birth_time : Q;
  mass_init : Q;
  metal_mass_fraction_total : Q;
  metal_mass_fraction : list Q;
  to_distribute : feedback_to_distribute
}.

Definition set_to_distribute (sp : spart) (d : feedback_to_distribute) :=
  SPart (birth_time sp) (mass_init sp) (metal_mass_fraction_total sp)
        (metal_mass_fraction sp) d.

(** The resampled yield tables of one channel. *)
Record yield_table : Type := YieldTable {
  metallicity : list Q;
  yield_IMF_resampled : list Q;
  ejecta_IMF_resampled : list Q;
  total_metals_IMF_resampled : list Q
}.

(** [stars_props.feedback], as far as it is read here. *)
Record stars_props : Type := StarsProps {
  SNII_n_z : Z;
  AGB_n_z : Z;
  yield_SNII : yield_table;
  yield_AGB : yield_table;
  log10_SNIa_max_mass_msun : Q;
  log10_SNII_min_mass_msun : Q;
  log10_SNII_max_mass_msun : Q;
  SNIa_efficiency : Q;
  SNIa_timescale : Q;
  const_solar_mass : Q;
  yield_SNIa_total_metals_IMF_resampled : Q;
  yield_SNIa_IMF_resampled : list Q;
  SNII_wind_delay : Q
}.

(** [a[i]] and [a[i] = v] on a C array held as a list. *)
Definition arr (a : list Q) (i : Z) : Q := nth (Z.to_nat i) a 0%Q.

Fixpoint list_set (a : list Q) (i : nat) (v : Q) : list Q :=
  match a, i with
  | [], _ => []
  | _ :: rest, O => v :: rest
  | q :: rest, S k => q :: list_set rest k v
  end.

Definition arr_set (a : list Q) (i : Z) (v : Q) : list Q :=
  if i <? 0 then a else list_set a (Z.to_nat i) v.

(** [for (i = from; ...; i++) body], by the number of iterations left. *)
Fixpoint for_range {S : Type} (iterations : nat) (i : Z)
         (body : Z -> S -> S) (st : S) : S :=
  match iterations with
  | O => st
  | Datatypes.S k => for_range k (i + 1) body (body i st)
  end.

(** [for (i = lo; i < hi; i++) body] *)
Definition for_lt {S : Type} (lo hi : Z) (body : Z -> S -> S) (st : S) : S :=
  for_range (Z.to_nat (hi - lo)) lo body st.

Definition Qgt_bool (a b : Q) : bool := negb (Qle_bool a b).
Definition Qge_bool (a b : Q) : bool := Qle_bool b a.
Definition Qlt_bool (a b : Q) : bool := negb (Qle_bool b a).

(** The relation the routine leaves between the three quantities. *)
Definition mass_is_metals_plus_H_He (d : feedback_to_distribute) : Prop :=
  (mass d
   == total_metal_mass d + arr (metal_mass d) 0 + arr (metal_mass d) 1)%Q.

(** Body of the loop [for (i...) sp->to_distribute.metal_mass[i] = 0]. *)
Definition zero_metal_mass (i : Z) (d : feedback_to_distribute) :=
  set_metal_mass d (arr_set (metal_mass d) i 0%Q).

Section Evolution.

(** Declared in headers outside the sources at hand: the chemistry
    enumeration, the IMF grid and its integrator, the lifetime tables, the
    unit system, and the C library's [exp] and [log10]. *)
Variable chemistry_element_count : Z.
Variable chemistry_element_H : Z.
Variable chemistry_element_He : Z.
Variable chemistry_element_Fe : Z.
Variable n_mass_bins : Z.
Variable log_min_metallicity : Q.
Variable M_LN10 : Q.
Variable exp : Q -> Q.
Variable log10 : Q -> Q.
Variable lifetime_in_Gyr : Q -> Q -> stars_props -> Q.
Variable dying_mass_msun : Q -> Q -> stars_props -> Q.
Variable determine_imf_bins : Q -> Q -> stars_props -> Z * Z.
Variable integrate_imf : Q -> Q -> Q -> Z -> list Q -> stars_props -> Q.
Variable row_major_index_2d : Z -> Z -> Z -> Z -> Z.
Variable row_major_index_3d : Z -> Z -> Z -> Z -> Z -> Z -> Z.
Variable unit_system : Type.
Variable time_cgs_conversion_factor : unit_system -> Q.

(** The search loop shared by the two [determine_bin_yield_*] routines:
    [for (j = 0; j < n_z - 1 && log_metallicity > metallicity[j + 1]; j++);] *)
Fixpoint find_metallicity_bin (fuel : nat) (n_z : Z) (tab : list Q)
         (log_metallicity : Q) (j : Z) : Z :=
  match fuel with
  | O => j
  | S k =>
      if (j <? n_z - 1) && Qgt_bool log_metallicity (arr tab (j + 1))
      then find_metallicity_bin k n_z tab log_metallicity (j + 1)
      else j
  end.

(** Body common to [determine_bin_yield_AGB] and [determine_bin_yield_SNII]
    for the table [tab] with [n_z] metallicities: [(iz_low, iz_high, dz)].
    The branch [dz = 0] for a non-positive [deltaz] re-seats the local
    pointer and leaves [*dz] as it is. *)
Definition determine_bin_yield (n_z : Z) (tab : list Q) (log_metallicity : Q)
  : Z * Z * Q :=
  if Qgt_bool log_metallicity log_min_metallicity then
    let j := find_metallicity_bin (Z.to_nat (n_z - 1)) n_z tab
                                  log_metallicity 0 in
    let iz_low := j in
    let iz_high := iz_low + 1 in
    let dz :=
      if Qge_bool log_metallicity (arr tab 0)
         && Qle_bool log_metallicity (arr tab (n_z - 1))
      then (log_metallicity - arr tab iz_low)%Q
      else 0%Q in
    let deltaz := (arr tab iz_high - arr tab iz_low)%Q in
    let dz := if Qgt_bool deltaz 0 then (dz / deltaz)%Q else dz in
    (iz_low, iz_high, dz)
  else (0, 0, 0%Q).

Definition determine_bin_yield_AGB (log_metallicity : Q)
           (star_properties : stars_props) : Z * Z * Q :=
  determine_bin_yield (AGB_n_z star_properties)
                      (metallicity (yield_AGB star_properties))
                      log_metallicity.

Definition determine_bin_yield_SNII (log_metallicity : Q)
           (star_properties : stars_props) : Z * Z * Q :=
  determine_bin_yield (SNII_n_z star_properties)
                      (metallicity (yield_SNII star_properties))
                      log_metallicity.

(** [evolve_SNIa] *)
Definition evolve_SNIa (log10_min_mass log10_max_mass : Q)
           (stars : stars_props) (sp : spart) (star_age_Gyr dt_Gyr : Q)
  : spart :=
  (* Check if we're outside the mass range for SNIa *)
  if Qge_bool log10_min_mass (log10_SNIa_max_mass_msun stars) then sp
  else
    let '(log10_max_mass, dt_Gyr, star_age_Gyr) :=
      if Qgt_bool log10_max_mass (log10_SNIa_max_mass_msun stars) then
        let lifetime_Gyr :=
          lifetime_in_Gyr (exp (M_LN10 * log10_SNIa_max_mass_msun stars))
                          (metal_mass_fraction_total sp) stars in
        (log10_SNIa_max_mass_msun stars,
         (star_age_Gyr + dt_Gyr - lifetime_Gyr)%Q, lifetime_Gyr)
      else (log10_max_mass, dt_Gyr, star_age_Gyr) in
    let num_SNIa_per_msun :=
      (SNIa_efficiency stars
       * (exp (- star_age_Gyr / SNIa_timescale stars)
          - exp (- (star_age_Gyr + dt_Gyr) / SNIa_timescale stars))
       * mass_init sp)%Q in
    let d := to_distribute sp in
    let d := set_num_SNIa d (num_SNIa_per_msun * const_solar_mass stars)%Q in
    (* compute total mass released by SNIa *)
    let d := set_mass d
               (mass d + num_SNIa_per_msun
                         * yield_SNIa_total_metals_IMF_resampled stars)%Q in
    (* compute mass fractions of each metal *)
    let d := for_lt 0 chemistry_element_count
               (fun i d =>
                  set_metal_mass d
                    (arr_set (metal_mass d) i
                       (arr (metal_mass d) i
                        + num_SNIa_per_msun
                          * arr (yield_SNIa_IMF_resampled stars) i)%Q)) d in
    let d := set_metal_mass_from_SNIa d
               (metal_mass_from_SNIa d
                + num_SNIa_per_msun
                  * yield_SNIa_total_metals_IMF_resampled stars)%Q in
    let d := set_total_metal_mass d
               (total_metal_mass d
                + num_SNIa_per_msun
                  * yield_SNIa_total_metals_IMF_resampled stars)%Q in
    let d := set_mass_from_SNIa d
               (mass_from_SNIa d
                + num_SNIa_per_msun
                  * yield_SNIa_total_metals_IMF_resampled stars)%Q in
    let d := set_Fe_mass_from_SNIa d
               (Fe_mass_from_SNIa d
                + num_SNIa_per_msun
                  * arr (yield_SNIa_IMF_resampled stars)
                        chemistry_element_Fe)%Q in
    set_to_distribute sp d.

(** [evolve_SNII]: the particle and the scratch array [stellar_yields]
    after the call, or the fatal error. *)
Definition evolve_SNII (log10_min_mass log10_max_mass : Q)
           (stellar_yields : list Q) (stars : stars_props) (sp : spart)
  : outcome (spart * list Q) :=
  (* If mass at beginning of step is less than tabulated lower bound for IMF,
     limit it. *)
  let log10_min_mass :=
    if Qlt_bool log10_min_mass (log10_SNII_min_mass_msun stars)
    then log10_SNII_min_mass_msun stars else log10_min_mass in
  (* If mass at end of step is greater than tabulated upper bound for IMF,
     limit it. *)
  let log10_max_mass :=
    if Qgt_bool log10_max_mass (log10_SNII_max_mass_msun stars)
    then log10_SNII_max_mass_msun stars else log10_max_mass in
  (* Don't do anything if the stellar mass hasn't decreased by the end of
     the step *)
  if Qge_bool log10_min_mass log10_max_mass then Returns (sp, stellar_yields)
  else
    (* determine which IMF mass bins contribute to the integral *)
    let '(ilow, ihigh) :=
      determine_imf_bins log10_min_mass log10_max_mass stars in
    (* Integrate IMF to determine number of SNII *)
    let d := set_num_SNII (to_distribute sp)
               (integrate_imf log10_min_mass log10_max_mass 0 0
                              stellar_yields stars) in
    (* determine which metallicity bin and offset this star belongs to *)
    let '(iz_low, iz_high, dz) :=
      determine_bin_yield_SNII (log10 (metal_mass_fraction_total sp)) stars in
    (* compute metals produced *)
    let '(metals, sy) :=
      for_lt 0 chemistry_element_count
        (fun i '(metals, sy) =>
           let sy :=
             for_lt ilow (ihigh + 1)
               (fun imass sy =>
          let low_index_3d :=
            row_major_index_3d iz_low i imass (SNII_n_z stars)
                               chemistry_element_count n_mass_bins in
          let high_index_3d :=
            row_major_index_3d iz_high i imass (SNII_n_z stars)
                               chemistry_element_count n_mass_bins in
          let low_index_2d :=
            row_major_index_2d iz_low imass (SNII_n_z stars) n_mass_bins in
          let high_index_2d :=
            row_major_index_2d iz_high imass (SNII_n_z stars) n_mass_bins in
          arr_set sy imass
            ((1 - dz)
             * (arr (yield_IMF_resampled (yield_SNII stars)) low_index_3d
                + arr (metal_mass_fraction sp) i
                  * arr (ejecta_IMF_resampled (yield_SNII stars)) low_index_2d)
             + dz
               * (arr (yield_IMF_resampled (yield_SNII stars)) high_index_3d
                  + arr (metal_mass_fraction sp) i
                    * arr (ejecta_IMF_resampled (yield_SNII stars)) high_index_2d))%Q)
                sy in
           (arr_set metals i
              (integrate_imf log10_min_mass log10_max_mass 0 2 sy stars), sy))
        (repeat 0%Q (Z.to_nat chemistry_element_count), stellar_yields) in
    (* Compute mass produced *)
    let sy :=
      for_lt ilow (ihigh + 1)
        (fun imass sy =>
        let low_index_2d :=
          row_major_index_2d iz_low imass (SNII_n_z stars) n_mass_bins in
        let high_index_2d :=
          row_major_index_2d iz_high imass (SNII_n_z stars) n_mass_bins in
        arr_set sy imass
          ((1 - dz)
           * (arr (total_metals_IMF_resampled (yield_SNII stars)) low_index_2d
              + metal_mass_fraction_total sp
                * arr (ejecta_IMF_resampled (yield_SNII stars)) low_index_2d)
           + dz
             * (arr (total_metals_IMF_resampled (yield_SNII stars))
                    high_index_2d
                + metal_mass_fraction_total sp
                  * arr (ejecta_IMF_resampled (yield_SNII stars)) high_index_2d))%Q)
              sy in
    let mass_ := integrate_imf log10_min_mass log10_max_mass 0 2 sy stars in
    (* zero all negative values *)
    let metals :=
      for_lt 0 chemistry_element_count
        (fun i metals =>
           if Qlt_bool (arr metals i) 0 then arr_set metals i 0%Q else metals)
        metals in
    let mass_ := if Qlt_bool mass_ 0 then 0%Q else mass_ in
    (* compute the total metal mass ejected from the star *)
    let sy :=
      for_lt ilow (ihigh + 1)
        (fun imass sy =>
        let low_index_2d :=
          row_major_index_2d iz_low imass (SNII_n_z stars) n_mass_bins in
        let high_index_2d :=
          row_major_index_2d iz_high imass (SNII_n_z stars) n_mass_bins in
        arr_set sy imass
          ((1 - dz) * arr (ejecta_IMF_resampled (yield_SNII stars)) low_index_2d
           + dz * arr (ejecta_IMF_resampled (yield_SNII stars)) high_index_2d)%Q)
       sy in
    let norm0 := integrate_imf log10_min_mass log10_max_mass 0 2 sy stars in
    (* compute the total mass ejected *)
    let norm1 := (mass_ + arr metals chemistry_element_H
                  + arr metals chemistry_element_He)%Q in
    let norm_factor := (norm0 / norm1 * mass_init sp)%Q in
    (* normalize the yields *)
    if Qgt_bool norm1 0 then
      let d := for_lt 0 chemistry_element_count
                 (fun i d =>
                    set_metal_mass d
                      (arr_set (metal_mass d) i
                         (arr (metal_mass d) i + arr metals i * norm_factor)%Q))
                 d in
      let d := for_lt 0 chemistry_element_count
                 (fun i d =>
                    set_mass_from_SNII d
                      (mass_from_SNII d + arr (metal_mass d) i)%Q) d in
      let d := set_mass d (mass d + mass_from_SNII d)%Q in
      let d := set_total_metal_mass d
                 (total_metal_mass d + mass_ * norm_factor)%Q in
      let d := set_metal_mass_from_SNII d
                 (metal_mass_from_SNII d + mass_ * norm_factor)%Q in
      Returns (set_to_distribute sp d, sy)
    else Fatal "wrong normalization!!!!".

(** [evolve_AGB]: the particle and the scratch array [stellar_yields]
    after the call, or the fatal error. *)
Definition evolve_AGB (log10_min_mass log10_max_mass : Q)
           (stellar_yields : list Q) (stars : stars_props) (sp : spart)
  : outcome (spart * list Q) :=
  (* If mass at end of step is greater than tabulated lower bound for IMF,
     limit it. *)
  let log10_max_mass :=
    if Qgt_bool log10_max_mass (log10_SNII_min_mass_msun stars)
    then log10_SNII_min_mass_msun stars else log10_max_mass in
  (* Don't do anything if the stellar mass hasn't decreased by the end of
     the step *)
  if Qge_bool log10_min_mass log10_max_mass then Returns (sp, stellar_yields)
  else
    (* determine which IMF mass bins contribute to the integral *)
    let '(ilow, ihigh) :=
      determine_imf_bins log10_min_mass log10_max_mass stars in
    let d := to_distribute sp in
    (* determine which metallicity bin and offset this star belongs to *)
    let '(iz_low, iz_high, dz) :=
      determine_bin_yield_AGB (log10 (metal_mass_fraction_total sp)) stars in
    (* compute metals produced *)
    let '(metals, sy) :=
      for_lt 0 chemistry_element_count
        (fun i '(metals, sy) =>
           let sy :=
             for_lt ilow (ihigh + 1)
               (fun imass sy =>
          let low_index_3d :=
            row_major_index_3d iz_low i imass (AGB_n_z stars)
                               chemistry_element_count n_mass_bins in
          let high_index_3d :=
            row_major_index_3d iz_high i imass (AGB_n_z stars)
                               chemistry_element_count n_mass_bins in
          let low_index_2d :=
            row_major_index_2d iz_low imass (AGB_n_z stars) n_mass_bins in
          let high_index_2d :=
            row_major_index_2d iz_high imass (AGB_n_z stars) n_mass_bins in
          arr_set sy imass
            ((1 - dz)
             * (arr (yield_IMF_resampled (yield_AGB stars)) low_index_3d
                + arr (metal_mass_fraction sp) i
                  * arr (ejecta_IMF_resampled (yield_AGB stars)) low_index_2d)
             + dz
               * (arr (yield_IMF_resampled (yield_AGB stars)) high_index_3d
                  + arr (metal_mass_fraction sp) i
                    * arr (ejecta_IMF_resampled (yield_AGB stars)) high_index_2d))%Q)
                sy in
           (arr_set metals i
              (integrate_imf log10_min_mass log10_max_mass 0 2 sy stars), sy))
        (repeat 0%Q (Z.to_nat chemistry_element_count), stellar_yields) in
    (* Compute mass produced *)
    let sy :=
      for_lt ilow (ihigh + 1)
        (fun imass sy =>
        let low_index_2d :=
          row_major_index_2d iz_low imass (AGB_n_z stars) n_mass_bins in
        let high_index_2d :=
          row_major_index_2d iz_high imass (AGB_n_z stars) n_mass_bins in
        arr_set sy imass
          ((1 - dz)
           * (arr (total_metals_IMF_resampled (yield_AGB stars)) low_index_2d
              + metal_mass_fraction_total sp
                * arr (ejecta_IMF_resampled (yield_AGB stars)) low_index_2d)
           + dz
             * (arr (total_metals_IMF_resampled (yield_AGB stars)) high_index_2d
                + metal_mass_fraction_total sp
                  * arr (ejecta_IMF_resampled (yield_AGB stars)) high_index_2d))%Q)
              sy in
    let mass_ := integrate_imf log10_min_mass log10_max_mass 0 2 sy stars in
    (* zero all negative values *)
    let metals :=
      for_lt 0 chemistry_element_count
        (fun i metals =>
           if Qlt_bool (arr metals i) 0 then arr_set metals i 0%Q else metals)
        metals in
    let mass_ := if Qlt_bool mass_ 0 then 0%Q else mass_ in
    (* compute the total metal mass ejected from the star *)
    let sy :=
      for_lt ilow (ihigh + 1)
        (fun imass sy =>
        let low_index_2d :=
          row_major_index_2d iz_low imass (AGB_n_z stars) n_mass_bins in
        let high_index_2d :=
          row_major_index_2d iz_high imass (AGB_n_z stars) n_mass_bins in
        arr_set sy imass
          ((1 - dz) * arr (ejecta_IMF_resampled (yield_AGB stars)) low_index_2d
           + dz * arr (ejecta_IMF_resampled (yield_AGB stars)) high_index_2d)%Q)
       sy in
    let norm0 := integrate_imf log10_min_mass log10_max_mass 0 2 sy stars in
    (* compute the total mass ejected *)
    let norm1 := (mass_ + arr metals chemistry_element_H
                  + arr metals chemistry_element_He)%Q in
    let norm_factor := (norm0 / norm1 * mass_init sp)%Q in
    (* normalize the yields *)
    if Qgt_bool norm1 0 then
      let d := for_lt 0 chemistry_element_count
                 (fun i d =>
                    let d := set_metal_mass d
                               (arr_set (metal_mass d) i
                                  (arr (metal_mass d) i
                                   + arr metals i * norm_factor)%Q) in
                    set_mass_from_AGB d
                      (mass_from_AGB d + arr metals i * norm_factor)%Q) d in
      let d := set_total_metal_mass d
                 (total_metal_mass d + mass_ * norm_factor)%Q in
      let d := set_metal_mass_from_AGB d
                 (metal_mass_from_AGB d + mass_ * norm_factor)%Q in
      let d := set_mass d
                 (mass d + (total_metal_mass d + arr (metal_mass d) 0
                            + arr (metal_mass d) 1))%Q in
      Returns (set_to_distribute sp d, sy)
    else Fatal "wrong normalization!!!!".

(** [compute_stellar_evolution]; [stellar_yields] is the content of the
    freshly allocated scratch array. *)
Definition compute_stellar_evolution (star_properties : stars_props)
           (sp : spart) (us : unit_system) (age dt : Q)
           (stellar_yields : list Q) : outcome spart :=
  (* Convert dt and stellar age from internal units to Gyr. *)
  let Gyr_in_cgs := inject_Z 31550000000000000 in
  let dt_Gyr := (dt * time_cgs_conversion_factor us / Gyr_in_cgs)%Q in
  let star_age_Gyr := (age * time_cgs_conversion_factor us / Gyr_in_cgs)%Q in
  let log10_max_dying_mass_msun :=
    log10 (dying_mass_msun star_age_Gyr (metal_mass_fraction_total sp)
                           star_properties) in
  let log10_min_dying_mass_msun :=
    log10 (dying_mass_msun (star_age_Gyr + dt_Gyr)%Q
                           (metal_mass_fraction_total sp) star_properties) in
  (* Sanity check. *)
  if Qgt_bool log10_min_dying_mass_msun log10_max_dying_mass_msun
  then Fatal "min dying mass is greater than max dying mass"
  (* Integration interval is zero: return without doing any feedback. *)
  else if Qeq_bool log10_min_dying_mass_msun log10_max_dying_mass_msun
  then Returns sp
  else
    (* Evolve SNIa, SNII, AGB *)
    let sp := evolve_SNIa log10_min_dying_mass_msun log10_max_dying_mass_msun
                          star_properties sp star_age_Gyr dt_Gyr in
    r <- evolve_SNII log10_min_dying_mass_msun log10_max_dying_mass_msun
                     stellar_yields star_properties sp ;;
    r <- evolve_AGB log10_min_dying_mass_msun log10_max_dying_mass_msun
                    (snd r) star_properties (fst r) ;;
    let sp := fst r in
    let d := to_distribute sp in
    let d := set_mass d (total_metal_mass d + arr (metal_mass d) 0
                         + arr (metal_mass d) 1)%Q in
    Returns (set_to_distribute sp d).

(** [compute_SNe]: both branches return 0 in this version. *)
Definition compute_SNe (sp : spart) (stars_properties : stars_props)
           (age dt : Q) : Q :=
  if Qle_bool age (SNII_wind_delay stars_properties)
     && Qgt_bool (age + dt) (SNII_wind_delay stars_properties)
  then 0%Q
  else 0%Q.

(** [stars_evolve_spart] *)
Definition stars_evolve_spart (sp : spart) (stars_properties : stars_props)
           (us : unit_system) (current_time dt : Q)
           (stellar_yields : list Q) : outcome spart :=
  (* Determine the age of the star *)
  let star_age := (current_time - birth_time sp)%Q in
  (* Zero the number of SN and amount of mass that is distributed *)
  let d := to_distribute sp in
  let d := set_num_SNIa d 0%Q in
  let d := set_num_SNII d 0%Q in
  let d := set_mass d 0%Q in
  (* Zero the enrichment quantities *)
  let d := for_lt 0 chemistry_element_count
             (fun i d => set_metal_mass d (arr_set (metal_mass d) i 0%Q)) d in
  let d := set_total_metal_mass d 0%Q in
  let d := set_mass_from_AGB d 0%Q in
  let d := set_metal_mass_from_AGB d 0%Q in
  let d := set_mass_from_SNII d 0%Q in
  let d := set_metal_mass_from_SNII d 0%Q in
  let d := set_mass_from_SNIa d 0%Q in
  let d := set_metal_mass_from_SNIa d 0%Q in
  let d := set_Fe_mass_from_SNIa d 0%Q in
  let sp := set_to_distribute sp d in
  (* Compute amount of enrichment and feedback that needs to be done in this
     step *)
  sp <- compute_stellar_evolution stars_properties sp us star_age dt
                                  stellar_yields ;;
  (* Compute the number of type II SNe that went off *)
  Returns (set_to_distribute sp
             (set_num_SNe (to_distribute sp)
                          (compute_SNe sp stars_properties star_age dt))).

End Evolution.

(** ** Concrete values for evaluation *)

(** Nine tracked elements with hydrogen, helium and iron at indices 0, 1
    and 8; a four-bin IMF grid; crude stand-ins for the tables and the
    library functions (a linearly decreasing dying mass, a constant IMF
    integral), with one internal time unit equal to one Gyr. *)
Definition sample_table : yield_table :=
  YieldTable [(-3)%Q; (-2)%Q] (repeat (1 # 100) 72) (repeat (1 # 10) 8)
             (repeat (1 # 50) 8).

Definition sample_stars_props : stars_props :=
  StarsProps 2 2 sample_table sample_table
             (90308999 # 100000000) (77815125 # 100000000) 2
             (2 # 1000) 2 1 (1 # 100) (repeat (1 # 1000) 9) (3 # 100).

Definition sample_spart : spart :=
  SPart 0 1000 (1 # 100) ((752 # 1000) :: (248 # 1000) :: repeat 0%Q 7)
        (ToDistribute 5 5 5 5 (repeat 5%Q 9) 5 5 5 5 5 5 5 5).

Definition sample_stars_evolve_spart (current_time dt : Q) : outcome spart :=
  stars_evolve_spart
    9 0 1 8 4 (-20)%Q (23 # 10)
    (fun x => 1%Q)                               (* exp *)
    (fun x => x)                                 (* log10 *)
    (fun m z _ => 1%Q)                           (* lifetime_in_Gyr *)
    (fun age z _ => (3 - age)%Q)                 (* dying_mass_msun *)
    (fun lo hi _ => (0, 3))                      (* determine_imf_bins *)
    (fun lo hi m2 mode yields _ => (hi - lo)%Q)  (* integrate_imf *)
    (fun x y nx ny => x * ny + y)
    (fun x y z nx ny nz => (x * ny + y) * nz + z)
    unit (fun _ => inject_Z 31550000000000000)
    sample_spart sample_stars_props tt current_time dt (repeat 0%Q 4).

End Stars.

(* ===================================================================== *)
(** * src/serial_io.c: particle counts in the file header                 *)
(* ===================================================================== *)

Module SerialHeader.

Import MachineInt.

(** [(unsigned int) z] *)
Definition to_uint (z : Z) : Z := z mod 2 ^ 32.

(** [write_output_serial]:
    [numParticles[ptype] = (unsigned int)N_total[ptype];]
    [numParticlesHighWord[ptype] = (unsigned int)(N_total[ptype] >> 32);]
    written as the attributes "NumPart_Total" and
    "NumPart_Total_HighWord" of type UINT. *)
Definition numParticles_written (N_total : Z) : Z := to_uint N_total.

Definition numParticlesHighWord_written (N_total : Z) : Z :=
  to_uint (Z.shiftr N_total 32).

(** [read_ic_serial] reads the two UINT attributes into arrays of [int]:
    the 32 bits are kept and seen as a signed value. *)
Definition uint_read_into_int (u : Z) : Z := wrap_int u.

(** [N_total[ptype] = ((long long)numParticles[ptype]) +
                      ((long long)numParticles_highWord[ptype] << 32);] *)
Definition N_total_read (numParticles numParticles_highWord : Z) : Z :=
  llong_add numParticles (wrap_llong (Z.shiftl numParticles_highWord 32)).

(** The total the reader computes from a header written for [N_total]. *)
Definition N_total_read_back (N_total : Z) : Z :=
  N_total_read (uint_read_into_int (numParticles_written N_total))
               (uint_read_into_int (numParticlesHighWord_written N_total)).

(** Sum of [f r] over the ranks [0 .. P - 1]. *)
Definition sum_over_ranks (P : Z) (f : Z -> Z) : Z :=
  fold_right Z.add 0 (map (fun r => f (Z.of_nat r)) (seq 0 (Z.to_nat P))).

End SerialHeader.

(* ===================================================================== *)
(** * src/stars/EAGLE/stars.h: metallicity bins                           *)
(* ===================================================================== *)

Module StarsBins.

Import Stars.

(** [determine_bin_yield_*] with the last branch storing 0 through the
    pointer ([*dz = 0]) instead of re-seating the pointer ([dz = 0]). *)
Definition determine_bin_yield_storing_zero (log_min_metallicity : Q)
           (n_z : Z) (tab : list Q) (log_metallicity : Q) : Z * Z * Q :=
  if Qgt_bool log_metallicity log_min_metallicity then
    let j := find_metallicity_bin (Z.to_nat (n_z - 1)) n_z tab
                                  log_metallicity 0 in
    let iz_low := j in
    let iz_high := iz_low + 1 in
    let dz :=
      if Qge_bool log_metallicity (arr tab 0)
         && Qle_bool log_metallicity (arr tab (n_z - 1))
      then (log_metallicity - arr tab iz_low)%Q
      else 0%Q in
    let deltaz := (arr tab iz_high - arr tab iz_low)%Q in
    let dz := if Qgt_bool deltaz 0 then (dz / deltaz)%Q else 0%Q in
    (iz_low, iz_high, dz)
  else (0, 0, 0%Q).

(** A three-entry metallicity table, for evaluation. *)
Definition sample_metallicities : list Q := [(-3)%Q; (-2)%Q; (-1)%Q].

End StarsBins.

(* ===================================================================== *)
(** * src/line_of_sight.c: what a pass leaves in its trace                *)
(* ===================================================================== *)

Module LineOfSightTrace.

Import LineOfSight.

(** Events that stay inside a rank's memory or go through MPI: buffer
    allocation, the gathers and the frees. *)
Definition rank_local_event (e : los_event) : bool :=
  match e with
  | EvMalloc _ _ | EvGatherv _ _ _ | EvFree _ => true
  | _ => false
  end.

(** The groups [/LOS_%04i] created during a pass, by index, in order. *)
Definition created_groups (tr : list los_event) : list Z :=
  flat_map (fun e => match e with EvGroupCreate j => [j] | _ => [] end) tr.

(** The calls of [write_los_hdf5_datasets] made during a pass: sightline
    index and number of particles written, in order. *)
Definition written_datasets (tr : list los_event) : list (Z * Z) :=
  flat_map (fun e => match e with EvWriteDatasets j N => [(j, N)] | _ => [] end)
           tr.

(** Index and global count of the sightlines of a list that are not empty,
    the first sightline of the list having index [j]. *)
Fixpoint nonempty_sightlines (j : Z) (sightlines : list line_of_sight)
  : list (Z * Z) :=
  match sightlines with
  | [] => []
  | los :: rest =>
      (if particles_in_los_total los =? 0 then []
       else [(j, particles_in_los_total los)])
      ++ nonempty_sightlines (j + 1) rest
  end.

(** Number of particles the thread pools of all ranks go through. *)
Definition world_particles (world : list rank_data) : nat :=
  fold_right (fun r acc => (List.length (concat (rank_chunks r)) + acc)%nat)
             0%nat world.

End LineOfSightTrace.

(* ===================================================================== *)
(** * src/line_of_sight.c: the sightlines in terms of the random draws     *)
(* ===================================================================== *)

Module LineOfSightDraws.

Import LineOfSight.

Section Draws.

Variable RAND_MAX : Z.
Variable rand : nat -> Z.

(** The sightline built from the draws number [2 i] and [2 i + 1], the
    first scaled into [[lo1, hi1]], the second into [[lo2, hi2]]. *)
Definition sightline_of_draws (lo1 hi1 lo2 hi2 : Q)
           (xaxis yaxis zaxis : los_direction) (periodic : Z) (dim : vec3)
           (i : nat) : line_of_sight :=
  create_line_of_sight (draw RAND_MAX rand (2 * i) lo1 hi1)
                       (draw RAND_MAX rand (S (2 * i)) lo2 hi2)
                       xaxis yaxis zaxis periodic dim.

Definition xy_sightline (params : los_props) (periodic : Z) (dim : vec3)
  : nat -> line_of_sight :=
  sightline_of_draws (xmin params) (xmax params) (ymin params) (ymax params)
                     simulation_x_axis simulation_y_axis simulation_z_axis
                     periodic dim.

Definition yz_sightline (params : los_props) (periodic : Z) (dim : vec3)
  : nat -> line_of_sight :=
  sightline_of_draws (ymin params) (ymax params) (zmin params) (zmax params)
                     simulation_y_axis simulation_z_axis simulation_x_axis
                     periodic dim.

Definition xz_sightline (params : los_props) (periodic : Z) (dim : vec3)
  : nat -> line_of_sight :=
  sightline_of_draws (xmin params) (xmax params) (zmin params) (zmax params)
                     simulation_x_axis simulation_z_axis simulation_y_axis
                     periodic dim.

End Draws.

(** Counts as a parameter file with a negative entry gives them. *)
Definition negative_count_props : los_props :=
  LosProps 2 (-1) 0 1 0 10 0 10 0 10 "los".

End LineOfSightDraws.

(* ===================================================================== *)
(** * src/serial_io.c: [writeArray] and the loop over the ranks            *)
(* ===================================================================== *)

Module SerialWrite.

Import MachineInt SerialIO.

(** Bytes [a, a + n) of the particle memory. *)
Definition bytes_at (m : memory) (a n : nat) : list byte := map m (seq a n).

(** A buffer handed to the library as [n] rows of [width] bytes. *)
Fixpoint rows_of (width n : nat) (buf : list byte) : list (list byte) :=
  match n with
  | O => []
  | S k => firstn width buf :: rows_of width k (skipn width buf)
  end.

(** Which of the library calls made on the writing side report a failure;
    like the flags of [h5_group] these are inputs. *)
Record write_faults : Type := WriteFaults {
  H5Screate_fails : bool;
  H5Sset_extent_simple_fails : bool;
  H5Pset_chunk_fails : bool;
  H5Pset_deflate_fails : bool;
  H5Dcreate_fails : bool;
  H5Dwrite_fails : bool
}.

Definition no_write_faults : write_faults :=
  WriteFaults false false false false false false.

Definition set_datasets (grp : h5_group) (l : list (string * dataset))
  : h5_group :=
  H5Group l (H5Lexists_fails grp) (H5Dopen_fails grp)
          (H5Dget_type_fails grp) (H5Dread_fails grp).

Fixpoint replace_dataset (name : string) (d : dataset)
         (l : list (string * dataset)) : list (string * dataset) :=
  match l with
  | [] => []
  | (n, d0) :: rest =>
      if String.eqb name n then (n, d) :: rest
      else (n, d0) :: replace_dataset name d rest
  end.

(** [H5Dcreate] of a dataset of [rows] rows of [width] bytes: fails when the
    name is already linked in the group; the new dataset reads as zeros (the
    library's default fill value) until it is written. *)
Definition H5Dcreate (f : write_faults) (grp : h5_group) (name : string)
           (rows width : nat) : option h5_group :=
  if H5Dcreate_fails f then None
  else match lookup_dataset name (datasets grp) with
       | Some _ => None
       | None =>
           Some (set_datasets grp
                   (datasets grp ++ [(name, repeat (repeat x00 width) rows)]))
       end.

(** The leading bytes of a row replaced by the bytes written. *)
Definition write_row (new old : list byte) : list byte :=
  new ++ skipn (List.length new) old.

(** [H5Dwrite] of the buffer [temp], seen as [N] rows of [width] bytes, onto
    the selection [offsets = {offset, 0}], [shape = {N, cols}] of the
    dataset; [None] stands for [h_err < 0], reported when the selection does
    not fit the dataset. *)
Definition H5Dwrite (f : write_faults) (grp : h5_group) (name : string)
           (offset N width : nat) (temp : list byte) : option h5_group :=
  if H5Dwrite_fails f then None
  else match lookup_dataset name (datasets grp) with
       | None => None
       | Some d =>
           let target := firstn N (skipn offset d) in
           if (offset + N <=? List.length d)%nat
              && forallb (fun row => (width <=? List.length row)%nat) target
           then
             let written :=
               map (fun p => write_row (fst p) (snd p))
                   (combine (rows_of width N temp) target) in
             Some (set_datasets grp
                     (replace_dataset name
                        (firstn offset d ++ written ++ skipn (offset + N) d)
                        (datasets grp)))
           else None
       end.

(** The object representation of a [float], four bytes. *)
Definition float_object : Type := (byte * byte * byte * byte)%type.

Definition float_bytes (v : float_object) : list byte :=
  let '(b0, b1, b2, b3) := v in [b0; b1; b2; b3].

Section WriteArray.

(** As for [readArray]; in addition [indeterminate k] is byte [k] of a
    buffer fresh from [malloc]. *)
Variable DATA_TYPE : Type.
Variable sizeOfType : DATA_TYPE -> nat.
Variable isDoublePrecision : DATA_TYPE -> bool.
Variable UnitConversionFactor : Type.
Variable UnitSystem : Type.
Variable units_conversion_factor :
  UnitSystem -> UnitSystem -> UnitConversionFactor -> Q.
Variable scale_buffer : bool -> Q -> list byte -> list byte.
Variable malloc_ok : nat -> bool.
Variable indeterminate : nat -> byte.

Local Abbreviation io_props := (SerialIO.io_props DATA_TYPE UnitConversionFactor).
Local Abbreviation field := (SerialIO.field DATA_TYPE UnitConversionFactor).
Local Abbreviation partSize := (SerialIO.partSize DATA_TYPE UnitConversionFactor).
Local Abbreviation name := (SerialIO.name DATA_TYPE UnitConversionFactor).
Local Abbreviation type := (SerialIO.type DATA_TYPE UnitConversionFactor).
Local Abbreviation dimension := (SerialIO.dimension DATA_TYPE UnitConversionFactor).
Local Abbreviation units := (SerialIO.units DATA_TYPE UnitConversionFactor).

(** [prepareArray] as it acts on the file: the checks in the order of the
    source, then the dataset of [N_total] rows that [H5Dcreate] adds to the
    group.  (The layout it is created with is [SerialIO.prepareArray]; the
    XMF line and the attributes of the dataset are not part of the
    group's datasets.) *)
Definition prepareArray_on_file (f : write_faults) (grp : h5_group)
           (props : io_props) (N_total : Z) : outcome h5_group :=
  if H5Screate_fails f
  then Fatal "Error while creating data space for field"
  else if H5Sset_extent_simple_fails f
  then Fatal "Error while changing data space shape for field"
  else if H5Pset_chunk_fails f
  then Fatal "Error while setting chunk size"
  else if H5Pset_deflate_fails f
  then Fatal "Error while setting compression options for field"
  else
    let cols := if dimension props >? 1 then Z.to_nat (dimension props)
                else 1%nat in
    match H5Dcreate f grp (name props) (Z.to_nat (H5.to_hsize N_total))
                    (cols * sizeOfType (type props)) with
    | None => Fatal "Error while creating dataspace"
    | Some grp => Returns grp
    end.

(** [for (size_t i = 0; i < N; ++i) memcpy(&temp_c[i * copySize],
    props.field + i * props.partSize, copySize);], by the iterations left:
    the buffer is filled front to back, record [i] landing at
    [i * copySize], the length reached so far. *)
Fixpoint pack_loop (props : io_props) (copySize : nat)
         (iterations i : nat) (m : memory) (temp : list byte) : list byte :=
  match iterations with
  | O => temp
  | S k =>
      pack_loop props copySize k (S i) m
        (temp ++ bytes_at m (field props + i * partSize props) copySize)
  end.

(** [for (size_t i = 0; i < N; ++i) temp_f[i] = convert(e, &parts[i]);] on
    a buffer of [size] bytes: [None] when the [N] floats do not fit the
    buffer (a write past its end); the bytes after the floats keep what
    [malloc] left there. *)
Definition convert_loop (convert : nat -> float_object) (N size : nat)
  : option (list byte) :=
  if (4 * N <=? size)%nat
  then Some (concat (map (fun i => float_bytes (convert i)) (seq 0 N))
             ++ map indeterminate (seq (4 * N) (size - 4 * N)))
  else None.

(** [writeArray]: the group after the call or the fatal error; [None] when
    the call runs into undefined behaviour (a buffer too small for what is
    written to or read from it).  [convert_part] and [convert_gpart] are the
    two function pointers of [props] ([None] for [NULL]), applied to the
    index of the particle. *)
Definition writeArray (f : write_faults) (grp : h5_group) (props : io_props)
           (convert_part convert_gpart : option (nat -> float_object))
           (N : nat) (N_total : Z) (mpi_rank : Z) (offset : nat)
           (internal_units snapshot_units : UnitSystem) (m : memory)
  : option (outcome h5_group) :=
  let typeSize := sizeOfType (type props) in
  let copySize := (typeSize * Z.to_nat (dimension props))%nat in
  let num_elements := (N * Z.to_nat (dimension props))%nat in
  (* Prepare the arrays in the file *)
  match (if mpi_rank =? 0 then prepareArray_on_file f grp props N_total
         else Returns grp) with
  | Fatal msg => Some (Fatal msg)
  | Returns grp =>
      (* Allocate temporary buffer *)
      if negb (malloc_ok (num_elements * typeSize))
      then Some (Fatal "Unable to allocate memory for temporary buffer")
      else
        (* Copy particle data to temporary buffer *)
        let filled :=
          match convert_part, convert_gpart with
          | None, None => Some (pack_loop props copySize N 0 m [])
          | Some convert, _ =>
              convert_loop convert N (num_elements * typeSize)
          | None, Some convert =>
              convert_loop convert N (num_elements * typeSize)
          end in
        match filled with
        | None => None
        | Some temp =>
            (* Unit conversion if necessary *)
            let factor :=
              units_conversion_factor internal_units snapshot_units
                                      (units props) in
            let temp :=
              if negb (Qeq_bool factor 1)
              then scale_buffer (isDoublePrecision (type props)) factor temp
              else temp in
            (* Construct information for the hyper-slab *)
            let cols := if dimension props >? 1
                        then Z.to_nat (dimension props) else 1%nat in
            let width := (cols * typeSize)%nat in
            if H5Screate_fails f
            then Some (Fatal "Error while creating data space (memory) for field")
            else if H5Sset_extent_simple_fails f
            then Some (Fatal "Error while changing data space (memory) shape for field")
            else
              (* Open pre-existing data set *)
              match (if H5Dopen_fails grp then None
                     else lookup_dataset (name props) (datasets grp)) with
              | None => Some (Fatal "Error while opening dataset")
              | Some _ =>
                  (* Write temporary buffer to HDF5 dataspace *)
                  if (List.length temp <? N * width)%nat then None
                  else
                    match H5Dwrite f grp (name props) offset N width temp with
                    | None => Some (Fatal "Error while writing data array")
                    | Some grp => Some (Returns grp)
                    end
              end
        end
  end.

(** The loop over the ranks of [write_output_serial], for one field of one
    particle type: the ranks take their turn in rank order, each calling
    [writeArray] with its own particles, count and offset. *)
Fixpoint rank_turns (f : write_faults) (props : io_props) (N_total : Z)
         (internal_units snapshot_units : UnitSystem)
         (rank : Z) (turns : list (memory * nat * Z)) (grp : h5_group)
  : option (outcome h5_group) :=
  match turns with
  | [] => Some (Returns grp)
  | (m, N, offset) :: rest =>
      match writeArray f grp props None None N N_total rank
                       (Z.to_nat offset) internal_units snapshot_units m with
      | Some (Returns grp) =>
          rank_turns f props N_total internal_units snapshot_units
                     (rank + 1) rest grp
      | stopped => stopped
      end
  end.

(** [write_output_serial] for one field without conversion function:
    offsets by [MPI_Exscan], the total broadcast from the last rank, nothing
    done when there is no particle of the kind, then the loop over the
    ranks.  [ranks] lists the particle memory and count of every rank. *)
Definition write_output_serial_field (f : write_faults) (props : io_props)
           (internal_units snapshot_units : UnitSystem)
           (ranks : list (memory * nat)) (grp : h5_group)
  : option (outcome h5_group) :=
  let N := map (fun r => Z.of_nat (snd r)) ranks in
  let offset := MPI_Exscan_sum 0 N in
  let N_total := write_output_N_total N in
  if N_total =? 0 then Some (Returns grp)
  else rank_turns f props N_total internal_units snapshot_units 0
                  (combine ranks offset) grp.

(** The rows a rank contributes: the field of each of its [N] records. *)
Definition field_rows (props : io_props) (m : memory) (N : nat)
  : list (list byte) :=
  let copySize :=
    (sizeOfType (type props) * Z.to_nat (dimension props))%nat in
  map (fun i => bytes_at m (field props + i * partSize props) copySize)
      (seq 0 N).

(** The rows of all ranks, in rank order. *)
Definition ranks_rows (props : io_props) (ranks : list (memory * nat))
  : list (list byte) :=
  concat (map (fun r => field_rows props (fst r) (snd r)) ranks).

End WriteArray.

(** [grp'] is [grp] with the dataset [name] set to [d]: every other dataset
    and the state of the library are as before. *)
Definition dataset_set_to (grp grp' : h5_group) (name : string) (d : dataset)
  : Prop :=
  lookup_dataset name (datasets grp') = Some d
  /\ (forall other, other <> name ->
                    lookup_dataset other (datasets grp')
                    = lookup_dataset other (datasets grp))
  /\ H5Lexists_fails grp' = H5Lexists_fails grp
  /\ H5Dopen_fails grp' = H5Dopen_fails grp
  /\ H5Dget_type_fails grp' = H5Dget_type_fails grp
  /\ H5Dread_fails grp' = H5Dread_fails grp.

(** The turns of the ranks write one after the other: each offset is where
    the rank before stopped, the first being [start]. *)
Fixpoint consecutive_turns (start : Z) (turns : list (memory * nat * Z))
  : Prop :=
  match turns with
  | [] => True
  | (_, N, offset) :: rest =>
      offset = start /\ consecutive_turns (start + Z.of_nat N) rest
  end.

(** Number of particles over a list of ranks. *)
Definition total_particles (ranks : list (memory * nat)) : nat :=
  fold_right (fun r acc => (snd r + acc)%nat) 0%nat ranks.

(** Two ranks for evaluation: particle memories filled with 0xaa and 0xbb,
    one and two particles. *)
Definition sample_rank_memories : list (memory * nat) :=
  [ (fun _ => xaa, 1%nat); (fun _ => xbb, 2%nat) ].

Definition sample_write_output : option (outcome h5_group) :=
  write_output_serial_field
    sample_DATA_TYPE sample_sizeOfType sample_isDoublePrecision
    unit unit unit_factor no_scaling malloc_always_ok (fun _ => xcc)
    no_write_faults (sample_vector_field COMPULSORY) tt tt
    sample_rank_memories empty_group.

End SerialWrite.

(* ===================================================================== *)
(** * src/parser.h: [parseFile]                                           *)
(* ===================================================================== *)

Module ParserFile.

Import Parser.

Definition newline : ascii := "010"%char.
Definition NUL : ascii := "000"%char.
Definition colon : ascii := ":"%char.

(** What the string functions see of a [char] buffer: the characters before
    the first NUL. *)
Fixpoint c_str (s : string) : string :=
  match s with
  | EmptyString => EmptyString
  | String c rest => if Ascii.eqb c NUL then EmptyString
                     else String c (c_str rest)
  end.

(** An open stream: what is still to be read, and the end-of-file
    indicator. *)
Record file_state : Type := FileState {
  unread : string;
  eof_flag : bool
}.

(** The characters [fgets] takes when there is room for [room] of them: up to
    and including the first newline; the flag tells whether the end of the
    file was hit before a newline or the limit. *)
Fixpoint fgets_chars (room : nat) (s : string) : string * string * bool :=
  match room with
  | O => (EmptyString, s, false)
  | S k =>
      match s with
      | EmptyString => (EmptyString, EmptyString, true)
      | String c rest =>
          if Ascii.eqb c newline then (String c EmptyString, rest, false)
          else let '(line, rest', hit) := fgets_chars k rest in
               (String c line, rest', hit)
      end
  end.

(** [fgets(line, size, fp)]: [None] for [NULL], returned when the end of the
    file is met before any character was read. *)
Definition fgets (size : nat) (fp : file_state) : option string * file_state :=
  let '(line, rest, hit) := fgets_chars (size - 1) (unread fp) in
  match line with
  | EmptyString =>
      if hit then (None, FileState rest true)
      else (Some line, FileState rest (eof_flag fp))
  | _ => (Some line, FileState rest (eof_flag fp || hit))
  end.

(** [strchr(line, ':')] is not [NULL]. *)
Fixpoint has_colon (s : string) : bool :=
  match s with
  | EmptyString => false
  | String c rest => Ascii.eqb c colon || has_colon rest
  end.

Fixpoint skip_colons (s : string) : string :=
  match s with
  | String c rest => if Ascii.eqb c colon then skip_colons rest else s
  | EmptyString => s
  end.

(** The token at the head of [s] and what follows the colon that ends it
    (nothing when the token runs to the end of the string). *)
Fixpoint token_split (s : string) : string * string :=
  match s with
  | EmptyString => (EmptyString, EmptyString)
  | String c rest =>
      if Ascii.eqb c colon then (EmptyString, rest)
      else let '(token, saved) := token_split rest in (String c token, saved)
  end.

(** [strtok(s, ":")] and [strtok(NULL, ":")] on the saved position: [None]
    for [NULL], returned when only colons are left; otherwise the token and
    the position saved for the next call. *)
Definition strtok (s : string) : option (string * string) :=
  match skip_colons s with
  | EmptyString => None
  | t => Some (token_split t)
  end.

(** [params->data] as the array of [MAX_NO_OF_PARAMS] entries it is. *)
Definition data_array (params : swift_params) : list parameter :=
  firstn MAX_NO_OF_PARAMS
         (data params ++ repeat empty_parameter MAX_NO_OF_PARAMS).

Definition store_entry (params : swift_params) (i : nat) (p : parameter)
  : swift_params :=
  SwiftParams (firstn i (data_array params) ++ [p]
               ++ skipn (S i) (data_array params)).

(** [strcpy(params->data[i].name, token)] *)
Definition strcpy_name (params : swift_params) (i : nat) (token : string)
  : swift_params :=
  store_entry params i
    (MkParameter token (value (nth i (data_array params) empty_parameter))).

(** [strcpy(params->data[i].value, token)] *)
Definition strcpy_value (params : swift_params) (i : nat) (token : string)
  : swift_params :=
  store_entry params i
    (MkParameter (name (nth i (data_array params) empty_parameter)) token).

Inductive parse_result : Type :=
| Parsed (params : swift_params)
| OpenError
| Undefined (why : string)
| OutOfFuel.

(** [while(!feof(fp)) { ... }], by the iterations left. *)
Fixpoint parse_loop (fuel : nat) (fp : file_state) (params : swift_params)
         (param_count : Z) : parse_result :=
  match fuel with
  | O => OutOfFuel
  | S k =>
      if eof_flag fp then Parsed params
      else
        (* Read a line of the file *)
        match fgets MAX_LINE_SIZE fp with
        | (None, fp) => parse_loop k fp params param_count
        | (Some line, fp) =>
            (* Check if the line contains a value *)
            if has_colon (c_str line) then
              match strtok (c_str line) with
              | None => Undefined "strcpy from a null pointer"
              | Some (token, saved) =>
                  if (param_count <? 0)
                     || (Z.of_nat MAX_NO_OF_PARAMS <=? param_count)
                  then Undefined "store past the end of params->data"
                  else
                    let i := Z.to_nat param_count in
                    let params := strcpy_name params i token in
                    match strtok saved with
                    | None => Undefined "strcpy from a null pointer"
                    | Some (token, _) =>
                        parse_loop k fp (strcpy_value params i token)
                                   (MachineInt.int_add param_count 1)
                    end
              end
            else parse_loop k fp params param_count
        end
  end.

(** [parseFile(params, file_name)]: [file] is the content of the file of
    that name, [None] when it cannot be opened.  Every turn of the loop
    takes a character off the stream or raises the end-of-file indicator, so
    the fuel given is never used up. *)
Definition parseFile (params : swift_params) (file : option string)
  : parse_result :=
  match file with
  | None => OpenError
  | Some content =>
      parse_loop (S (S (String.length content)))
                 (FileState content false) params 0
  end.

(** A line of a parameter file as it is meant to be written: a comment (no
    colon) or a name and a value. *)
Inductive file_line : Type :=
| Comment (text : string)
| Entry (name value : string).

Fixpoint no_char (c : ascii) (s : string) : bool :=
  match s with
  | EmptyString => true
  | String a rest => negb (Ascii.eqb a c) && no_char c rest
  end.

(** Free of colon, newline and NUL. *)
Definition plain (s : string) : bool :=
  no_char colon s && no_char newline s && no_char NUL s.

Definition well_formed (l : file_line) : bool :=
  match l with
  | Comment text =>
      plain text && (String.length text + 1 <? MAX_LINE_SIZE)%nat
  | Entry name value =>
      plain name && plain value
      && negb (String.eqb name EmptyString)
      && (String.length name + String.length value + 2 <? MAX_LINE_SIZE)%nat
  end.

Definition render_line (l : file_line) : string :=
  match l with
  | Comment text => text ++ String newline EmptyString
  | Entry name value =>
      name ++ String colon (value ++ String newline EmptyString)
  end.

Fixpoint render (lines : list file_line) : string :=
  match lines with
  | [] => EmptyString
  | l :: rest => render_line l ++ render rest
  end.

(** The entries of a file, as [parseFile] stores them: the value keeps the
    newline that ends its line. *)
Fixpoint entries (lines : list file_line) : list parameter :=
  match lines with
  | [] => []
  | Comment _ :: rest => entries rest
  | Entry name value :: rest =>
      MkParameter name (value ++ String newline EmptyString) :: entries rest
  end.

(** The same entries with the values as they are written in the file. *)
Fixpoint entries_as_written (lines : list file_line) : list parameter :=
  match lines with
  | [] => []
  | Comment _ :: rest => entries_as_written rest
  | Entry name value :: rest =>
      MkParameter name value :: entries_as_written rest
  end.

(** The store after [k] entries were written over its first [k] slots. *)
Definition stored (params : swift_params) (es : list parameter)
  : swift_params :=
  SwiftParams (es ++ skipn (List.length es) (data params)).

Definition sample_file : list file_line :=
  [ Comment "# run"; Entry "dt" " 10"; Entry "steps" "200" ].

End ParserFile.

(* ===================================================================== *)
(** * src/stars/EAGLE/stars.h: sums over the element array                *)
(* ===================================================================== *)

Module StarsBudget.

Import Stars.

(** [a[i] + a[i + 1] + ... ] over [n] entries. *)
Fixpoint sum_range (a : list Q) (n : nat) (i : Z) : Q :=
  match n with
  | O => 0%Q
  | S k => (arr a i + sum_range a k (i + 1))%Q
  end.

(** The sum of the first [chemistry_element_count] entries of an array. *)
Definition sum_elements (chemistry_element_count : Z) (a : list Q) : Q :=
  sum_range a (Z.to_nat chemistry_element_count) 0.

(** The particle with [to_distribute.num_SNe] set to [v]. *)
Definition with_num_SNe (v : Q) (sp : spart) : spart :=
  set_to_distribute sp (set_num_SNe (to_distribute sp) v).

(** The particle with another [to_distribute]. *)
Definition with_leftover (d : feedback_to_distribute) (sp : spart) : spart :=
  set_to_distribute sp d.

End StarsBudget.

(* ===================================================================== *)
(** * Properties                                                          *)
(* ===================================================================== *)

Module MachineIntFacts.

Import MachineInt.

Lemma wrap_int_small z : INT_MIN <= z <= INT_MAX -> wrap_int z = z.
Proof.
unfold wrap_int, wrap_signed, INT_MIN, INT_MAX. intros Hz.
change (2 ^ (32 - 1)) with 2147483648.
change (2 ^ 32) with 4294967296.
rewrite Z.mod_small; lia.
Qed.

Lemma wrap_llong_small z : LLONG_MIN <= z <= LLONG_MAX -> wrap_llong z = z.
Proof.
unfold wrap_llong, wrap_signed, LLONG_MIN, LLONG_MAX. intros Hz.
change (2 ^ (64 - 1)) with 9223372036854775808.
change (2 ^ 64) with 18446744073709551616.
rewrite Z.mod_small; lia.
Qed.

Lemma wrap_int_idem z : wrap_int (wrap_int z) = wrap_int z.
Proof.
unfold wrap_int, wrap_signed.
change (2 ^ (32 - 1)) with 2147483648.
change (2 ^ 32) with 4294967296.
replace ((z + 2147483648) mod 4294967296 - 2147483648 + 2147483648)
  with ((z + 2147483648) mod 4294967296) by lia.
rewrite Z.mod_mod by lia. reflexivity.
Qed.

Lemma wrap_int_add_l a b : wrap_int (wrap_int a + b) = wrap_int (a + b).
Proof.
unfold wrap_int, wrap_signed.
change (2 ^ (32 - 1)) with 2147483648.
change (2 ^ 32) with 4294967296.
f_equal.
replace ((a + 2147483648) mod 4294967296 - 2147483648 + b + 2147483648)
  with ((a + 2147483648) mod 4294967296 + b) by lia.
rewrite Z.add_mod_idemp_l by lia. f_equal. lia.
Qed.

End MachineIntFacts.

(* ===================================================================== *)
(** ** The two filtering passes                                           *)
(* ===================================================================== *)

Module LineOfSightFilter.

Import LineOfSight.

Section FilterFacts.

Variable kernel_gamma : Q.
Variable time_bin_inhibited : Z.
Variable nearest : Q -> Q -> Q.

Local Abbreviation guarded_predicate :=
  (LineOfSight.guarded_predicate kernel_gamma time_bin_inhibited nearest).
Local Abbreviation planar_distance_predicate :=
  (LineOfSight.planar_distance_predicate kernel_gamma time_bin_inhibited
                                         nearest).
Local Abbreviation first_loop_body :=
  (LineOfSight.first_loop_body kernel_gamma time_bin_inhibited nearest).
Local Abbreviation first_loop :=
  (LineOfSight.first_loop kernel_gamma time_bin_inhibited nearest).
Local Abbreviation los_first_loop_mapper :=
  (LineOfSight.los_first_loop_mapper kernel_gamma time_bin_inhibited nearest).
Local Abbreviation threadpool_map :=
  (LineOfSight.threadpool_map kernel_gamma time_bin_inhibited nearest).
Local Abbreviation second_loop_body :=
  (LineOfSight.second_loop_body kernel_gamma time_bin_inhibited nearest).
Local Abbreviation second_loop :=
  (LineOfSight.second_loop kernel_gamma time_bin_inhibited nearest).
Local Abbreviation accepted_indices :=
  (LineOfSight.accepted_indices kernel_gamma time_bin_inhibited nearest).
Local Abbreviation counted_by_first_pass :=
  (LineOfSight.counted_by_first_pass kernel_gamma time_bin_inhibited nearest).
Local Abbreviation wrapped_dx :=
  (LineOfSight.wrapped_dx nearest).
Local Abbreviation wrapped_dy :=
  (LineOfSight.wrapped_dy nearest).

Lemma first_loop_body_guarded los p c :
  first_loop_body los p c = if guarded_predicate los p then c + 1 else c.
Proof.
  unfold first_loop_body, guarded_predicate, wrapped_dx, wrapped_dy.
  destruct (time_bin p =? time_bin_inhibited); simpl; [reflexivity|].
  destruct (Qle_bool _ (h p * kernel_gamma)); simpl; [|reflexivity].
  destruct (Qle_bool _ (h p * kernel_gamma)); simpl; [|reflexivity].
  reflexivity.
Qed.

Lemma second_loop_body_guarded los p xp b :
  second_loop_body los p xp b =
  if guarded_predicate los p
  then LosBuffers (LOS_parts b ++ [p]) (LOS_xparts b ++ [xp]) (count b + 1)
  else b.
Proof.
  unfold second_loop_body, guarded_predicate, wrapped_dx, wrapped_dy.
  destruct (time_bin p =? time_bin_inhibited); simpl; [reflexivity|].
  destruct (Qle_bool _ (h p * kernel_gamma)); simpl; [|reflexivity].
  destruct (Qle_bool _ (h p * kernel_gamma)); simpl; [|reflexivity].
  reflexivity.
Qed.

Lemma first_loop_count los parts c :
  first_loop los parts c
  = c + Z.of_nat (length (filter (guarded_predicate los) parts)).
Proof.
  revert c. induction parts as [|p rest IH]; intros c; simpl.
  - lia.
  - rewrite IH, first_loop_body_guarded.
    destruct (guarded_predicate los p); simpl length; lia.
Qed.

(** The mapper only reads the geometry of the sightline, never its counts. *)
Lemma guarded_set_local los n p :
  guarded_predicate (set_particles_in_los_local los n) p
  = guarded_predicate los p.
Proof. reflexivity. Qed.

Lemma mapper_local los parts :
  particles_in_los_local (los_first_loop_mapper parts los)
  = particles_in_los_local los
    + Z.of_nat (length (filter (guarded_predicate los) parts)).
Proof.
  unfold los_first_loop_mapper. simpl. rewrite first_loop_count. lia.
Qed.

Lemma mapper_geometry los parts p :
  guarded_predicate (los_first_loop_mapper parts los) p
  = guarded_predicate los p.
Proof. reflexivity. Qed.

Lemma threadpool_map_local chunks : forall los,
  particles_in_los_local (threadpool_map chunks los)
  = particles_in_los_local los
    + Z.of_nat (length (filter (guarded_predicate los) (concat chunks)))
  /\ (forall p, guarded_predicate (threadpool_map chunks los) p
                = guarded_predicate los p).
Proof.
  unfold threadpool_map.
  induction chunks as [|c rest IH]; intros los; simpl.
  - split; [lia | reflexivity].
  - destruct (IH (los_first_loop_mapper c los)) as [Hn Hg]. split.
    + rewrite Hn, mapper_local.
      rewrite filter_app, length_app.
      change (filter (guarded_predicate (los_first_loop_mapper c los)) (concat rest))
        with (filter (guarded_predicate los) (concat rest)).
      lia.
    + intros p. rewrite Hg. reflexivity.
Qed.

Lemma filter_length_permutation (f : part -> bool) l l' :
  Permutation l l' -> length (filter f l) = length (filter f l').
Proof.
  induction 1 as [|a l l' HP IH|a b l|l l' l'' H1 IH1 H2 IH2]; simpl.
  - reflexivity.
  - destruct (f a); simpl; congruence.
  - destruct (f a), (f b); simpl; reflexivity.
  - congruence.
Qed.

(** *** The compacting loop against the index list *)

Lemma map_nth_shift (A : Type) (a : A) (l : list A) (d : A) (i : nat)
      (ks : list nat) :
  Forall (fun k => (S i <= k)%nat) ks ->
  map (fun k => nth (k - i) (a :: l) d) ks
  = map (fun k => nth (k - S i) l d) ks.
Proof.
  intros Hks. apply map_ext_in. intros k Hk.
  rewrite Forall_forall in Hks. specialize (Hks k Hk).
  replace (k - i)%nat with (S (k - S i)) by lia. reflexivity.
Qed.

Lemma second_loop_indices los : forall parts xparts b i,
  length xparts = length parts ->
  let b' := second_loop los parts xparts b in
  LOS_parts b' =
    LOS_parts b ++ map (fun k => nth (k - i) parts default_part)
                       (accepted_indices los parts i)
  /\ LOS_xparts b' =
    LOS_xparts b ++ map (fun k => nth (k - i) xparts default_xpart)
                        (accepted_indices los parts i)
  /\ count b' = count b + Z.of_nat (length (accepted_indices los parts i))
  /\ Forall (fun k => (i <= k)%nat) (accepted_indices los parts i).
Proof.
  induction parts as [|p rest IH]; intros xparts b i Hlen.
  - destruct xparts; cbn; rewrite !app_nil_r; repeat split; try lia; constructor.
  - destruct xparts as [|xp xrest]; [discriminate|].
    injection Hlen as Hlen.
    specialize (IH xrest (second_loop_body los p xp b) (S i) Hlen).
    destruct IH as (Hp & Hx & Hc & Hge).
    cbn [second_loop accepted_indices]. cbv zeta.
    rewrite Hp, Hx, Hc, second_loop_body_guarded.
    assert (Hge' : Forall (fun k => (i <= k)%nat) (accepted_indices los rest (S i))).
    { eapply Forall_impl; [|exact Hge]. cbn. lia. }
    destruct (guarded_predicate los p); cbn [LOS_parts LOS_xparts count map length].
    + rewrite Nat.sub_diag.
      rewrite !(map_nth_shift _ _ _ _ _ _ Hge), <- !app_assoc.
      cbn [nth app].
      repeat split; try lia.
      constructor; [lia | exact Hge'].
    + rewrite !(map_nth_shift _ _ _ _ _ _ Hge).
      repeat split; try lia; exact Hge'.
Qed.

Lemma indices_sorted los : forall parts i,
  StronglySorted lt (accepted_indices los parts i)
  /\ Forall (fun k => (i <= k)%nat) (accepted_indices los parts i).
Proof.
  induction parts as [|p rest IH]; intros i; simpl.
  - split; constructor.
  - destruct (IH (S i)) as [Hs Hge].
    assert (Hge' : Forall (fun k => (i <= k)%nat) (accepted_indices los rest (S i))).
    { eapply Forall_impl; [|exact Hge]. simpl. lia. }
    destruct (guarded_predicate los p).
    + split; constructor; try assumption; lia.
    + split; assumption.
Qed.

Lemma indices_spec los : forall parts i k,
  In k (accepted_indices los parts i) <->
  (i <= k < i + length parts)%nat
  /\ guarded_predicate los (nth (k - i) parts default_part) = true.
Proof.
  induction parts as [|p rest IH]; intros i k; simpl.
  - split; [tauto | lia].
  - destruct (guarded_predicate los p) eqn:G; simpl; rewrite IH.
    + split.
      * intros [<- | [Hr Hg]].
        -- rewrite Nat.sub_diag. split; [lia | exact G].
        -- replace (k - i)%nat with (S (k - S i)) by lia. split; [lia | exact Hg].
      * intros [Hr Hg]. destruct (Nat.eq_dec i k) as [->|Hne]; [left; reflexivity|].
        right. replace (k - i)%nat with (S (k - S i)) in Hg by lia.
        split; [lia | exact Hg].
    + split.
      * intros [Hr Hg].
        replace (k - i)%nat with (S (k - S i)) by lia. split; [lia | exact Hg].
      * intros [Hr Hg]. destruct (Nat.eq_dec i k) as [->|Hne].
        -- rewrite Nat.sub_diag in Hg. congruence.
        -- replace (k - i)%nat with (S (k - S i)) in Hg by lia.
           split; [lia | exact Hg].
Qed.

Lemma indices_filter los : forall parts i,
  length (accepted_indices los parts i)
  = length (filter (guarded_predicate los) parts).
Proof.
  induction parts as [|p rest IH]; intros i; simpl; [reflexivity|].
  destruct (guarded_predicate los p); simpl; rewrite IH; reflexivity.
Qed.

(** Running the mapper on a single record raises the count exactly when the
    record passes the predicate of the code, guards included. *)
Lemma counted_iff_guarded los p :
  counted_by_first_pass los p <-> guarded_predicate los p = true.
Proof.
  unfold counted_by_first_pass. rewrite mapper_local. simpl.
  destruct (guarded_predicate los p); simpl; split; intros;
    try lia; try reflexivity; try discriminate.
Qed.

(** With a non-negative search radius the two guards are implied by the
    squared-distance test. *)
Lemma guarded_is_planar los p :
  (0 <= h p * kernel_gamma)%Q ->
  guarded_predicate los p = planar_distance_predicate los p.
Proof.
  intros Hh. unfold guarded_predicate, planar_distance_predicate.
  destruct (negb (time_bin p =? time_bin_inhibited)); simpl; [|reflexivity].
  set (dx := wrapped_dx los p). set (dy := wrapped_dy los p).
  set (hsml := (h p * kernel_gamma)%Q) in *.
  destruct (Qle_bool (dx * dx + dy * dy) (hsml * hsml)) eqn:Hr.
  - apply Qle_bool_iff in Hr.
    assert (Hx : (dx <= hsml)%Q).
    { destruct (Qlt_le_dec hsml dx) as [Hlt|Hle]; [exfalso; nra | exact Hle]. }
    assert (Hy : (dy <= hsml)%Q).
    { destruct (Qlt_le_dec hsml dy) as [Hlt|Hle]; [exfalso; nra | exact Hle]. }
    apply Qle_bool_iff in Hx, Hy. rewrite Hx, Hy. reflexivity.
  - rewrite andb_false_r. reflexivity.
Qed.

Lemma planar_spec los p :
  planar_distance_predicate los p = true <->
  time_bin p <> time_bin_inhibited
  /\ (wrapped_dx los p * wrapped_dx los p + wrapped_dy los p * wrapped_dy los p
      <= (h p * kernel_gamma) * (h p * kernel_gamma))%Q.
Proof.
  unfold planar_distance_predicate.
  rewrite andb_true_iff, negb_true_iff, Z.eqb_neq, Qle_bool_iff. reflexivity.
Qed.

Lemma sorted_lt_NoDup (l : list nat) : StronglySorted lt l -> NoDup l.
Proof.
  induction 1 as [|a l Hs IH Hall]; constructor; [|exact IH].
  intros Hin. rewrite Forall_forall in Hall. specialize (Hall a Hin). lia.
Qed.


(** C2: on the same static data the compacting pass copies exactly the
    records the counting pass accepts, in array order and each array slot at
    most once (the copied slots form a strictly increasing index list), parts
    and xparts in step; the number of copies equals what the counting pass,
    run over any chunking of the array in any order, adds to the local
    count. *)
Theorem second_pass_agrees_with_first_pass :
  forall (los : line_of_sight) (parts : list part) (xparts : list xpart)
         (chunks : list (list part)),
    length xparts = length parts ->
    Permutation (concat chunks) parts ->
    let b := second_loop los parts xparts (LosBuffers [] [] 0) in
    exists idx : list nat,
      StronglySorted lt idx
      /\ NoDup idx
      /\ (forall k, In k idx <->
                    (k < length parts)%nat
                    /\ counted_by_first_pass los (nth k parts default_part))
      /\ LOS_parts b = map (fun k => nth k parts default_part) idx
      /\ LOS_xparts b = map (fun k => nth k xparts default_xpart) idx
      /\ count b = Z.of_nat (length idx)
      /\ particles_in_los_local (threadpool_map chunks los)
         = particles_in_los_local los + count b.
Proof.
  intros los parts xparts chunks Hlen Hperm b.
  exists (accepted_indices los parts 0).
  destruct (second_loop_indices los parts xparts (LosBuffers [] [] 0) 0%nat Hlen)
    as (Hp & Hx & Hc & _).
  destruct (indices_sorted los parts 0) as [Hs _].
  repeat split.
  - exact Hs.
  - apply sorted_lt_NoDup, Hs.
  - apply indices_spec in H. lia.
  - apply indices_spec in H. destruct H as [_ Hg].
    rewrite Nat.sub_0_r in Hg. apply counted_iff_guarded, Hg.
  - intros [Hk Hcnt]. apply indices_spec. split; [lia|].
    rewrite Nat.sub_0_r. apply counted_iff_guarded, Hcnt.
  - subst b. rewrite Hp. simpl. apply map_ext. intros k.
    rewrite Nat.sub_0_r. reflexivity.
  - subst b. rewrite Hx. simpl. apply map_ext. intros k.
    rewrite Nat.sub_0_r. reflexivity.
  - subst b. rewrite Hc. simpl. reflexivity.
  - destruct (threadpool_map_local chunks los) as [Hn _].
    rewrite Hn. subst b. rewrite Hc. simpl.
    rewrite (filter_length_permutation _ _ _ Hperm), indices_filter. reflexivity.
Qed.

End FilterFacts.

Example sample_first_pass_count :
  particles_in_los_local
    (threadpool_map cubic_spline_gamma inhibited_bin box_wrap
                    sample_chunks sample_los) = 2.
Proof. vm_compute. reflexivity. Qed.

Example sample_second_pass_copies :
  LOS_xparts (second_loop cubic_spline_gamma inhibited_bin box_wrap
                          sample_los sample_parts sample_xparts
                          (LosBuffers [] [] 0))
  = [XPart 10; XPart 13].
Proof. vm_compute. reflexivity. Qed.



Lemma second_pass_agrees_with_first_pass_witness :
  exists idx : list nat,
    StronglySorted lt idx
    /\ NoDup idx
    /\ (forall k, In k idx <->
                  (k < length sample_parts)%nat
                  /\ counted_by_first_pass cubic_spline_gamma inhibited_bin
                       box_wrap sample_los (nth k sample_parts default_part))
    /\ LOS_parts (second_loop cubic_spline_gamma inhibited_bin box_wrap
                              sample_los sample_parts sample_xparts
                              (LosBuffers [] [] 0))
       = map (fun k => nth k sample_parts default_part) idx
    /\ LOS_xparts (second_loop cubic_spline_gamma inhibited_bin box_wrap
                               sample_los sample_parts sample_xparts
                               (LosBuffers [] [] 0))
       = map (fun k => nth k sample_xparts default_xpart) idx
    /\ count (second_loop cubic_spline_gamma inhibited_bin box_wrap
                          sample_los sample_parts sample_xparts
                          (LosBuffers [] [] 0))
       = Z.of_nat (length idx)
    /\ particles_in_los_local
         (threadpool_map cubic_spline_gamma inhibited_bin box_wrap
                         sample_chunks sample_los)
       = particles_in_los_local sample_los
         + count (second_loop cubic_spline_gamma inhibited_bin box_wrap
                              sample_los sample_parts sample_xparts
                              (LosBuffers [] [] 0)).
Proof.
  apply (second_pass_agrees_with_first_pass cubic_spline_gamma inhibited_bin
           box_wrap sample_los sample_parts sample_xparts sample_chunks).
  - reflexivity.
  - simpl. apply Permutation_refl.
Defined.

End LineOfSightFilter.

(* ===================================================================== *)
(** ** Sightline generation                                               *)
(* ===================================================================== *)

Module LineOfSightGeneration.

Import MachineInt MachineIntFacts LineOfSight.

Lemma between_convex (lo hi t : Q) :
  (0 <= t <= 1)%Q -> between lo hi (t * (hi - lo) + lo).
Proof.
  intros [H0 H1]. unfold between.
  assert (Hup : (lo <= hi -> 0 <= t * (hi - lo) <= hi - lo)%Q).
  { intros Hle.
    assert (Ha : (0 <= t * (hi - lo))%Q) by (apply Qmult_le_0_compat; lra).
    assert (Hb : (0 <= (1 - t) * (hi - lo))%Q) by (apply Qmult_le_0_compat; lra).
    assert (E : ((1 - t) * (hi - lo) == (hi - lo) - t * (hi - lo))%Q) by ring.
    rewrite E in Hb. split; lra. }
  assert (Hdn : (hi <= lo -> hi - lo <= t * (hi - lo) <= 0)%Q).
  { intros Hle.
    assert (Ha : (0 <= t * (lo - hi))%Q) by (apply Qmult_le_0_compat; lra).
    assert (Hb : (0 <= (1 - t) * (lo - hi))%Q) by (apply Qmult_le_0_compat; lra).
    assert (E : ((1 - t) * (lo - hi) == (lo - hi) + t * (hi - lo))%Q) by ring.
    assert (E' : (t * (lo - hi) == - (t * (hi - lo)))%Q) by ring.
    rewrite E in Hb. rewrite E' in Ha. split; lra. }
  set (u := (t * (hi - lo))%Q) in *.
  destruct (Q.min_spec lo hi) as [[Hlt Hmin] | [Hle Hmin]];
    destruct (Q.max_spec lo hi) as [[Hlt' Hmax] | [Hle' Hmax]];
    rewrite Hmin, Hmax.
  - destruct Hup as [Ha Hb]; [lra|]. split; lra.
  - lra.
  - lra.
  - destruct Hdn as [Ha Hb]; [lra|]. split; lra.
Qed.

Lemma between_interval (lo hi v : Q) :
  (lo <= hi)%Q -> between lo hi v -> (lo <= v <= hi)%Q.
Proof.
  intros Hle [Ha Hb].
  rewrite (Q.min_l lo hi Hle) in Ha. rewrite (Q.max_r lo hi Hle) in Hb.
  split; assumption.
Qed.

Section GenerateFacts.

Variable RAND_MAX : Z.
Variable rand : nat -> Z.
Hypothesis RAND_MAX_pos : 0 < RAND_MAX.
Hypothesis rand_range : forall k, 0 <= rand k <= RAND_MAX.

Local Abbreviation draw := (LineOfSight.draw RAND_MAX rand).
Local Abbreviation generate_one := (LineOfSight.generate_one RAND_MAX rand).

Lemma rand_fraction (k : nat) :
  (0 <= inject_Z (rand k) / inject_Z RAND_MAX <= 1)%Q.
Proof.
  destruct (rand_range k) as [H0 H1].
  assert (HR : (0 < inject_Z RAND_MAX)%Q).
  { change 0%Q with (inject_Z 0). rewrite <- Zlt_Qlt. exact RAND_MAX_pos. }
  split.
  - apply Qle_shift_div_l; [exact HR|]. rewrite Qmult_0_l.
    change 0%Q with (inject_Z 0). rewrite <- Zle_Qle. exact H0.
  - apply Qle_shift_div_r; [exact HR|]. rewrite Qmult_1_l.
    rewrite <- Zle_Qle. exact H1.
Qed.

Lemma draw_between (k : nat) (lo hi : Q) : between lo hi (draw k lo hi).
Proof. unfold LineOfSight.draw. apply between_convex, rand_fraction. Qed.

(** One of the three loops: [n] sightlines are appended, all on the given
    axes and inside the given bounds, and [count] advances by [n]. *)
Lemma generate_loop (lo1 hi1 lo2 hi2 : Q) (ax ay az : los_direction)
      (periodic : Z) (dim : vec3) (n : nat) :
  forall st,
    wrap_int (gen_count st) = gen_count st ->
    let st' := for_loop n (generate_one lo1 hi1 lo2 hi2 ax ay az periodic dim)
                        st in
    gen_count st' = wrap_int (gen_count st + Z.of_nat n)
    /\ exists new,
        Los_filled st' = Los_filled st ++ new
        /\ length new = n
        /\ Forall (fun los => xaxis los = ax /\ yaxis los = ay
                              /\ between lo1 hi1 (Xpos los)
                              /\ between lo2 hi2 (Ypos los)) new.
Proof.
  induction n as [|n IH]; intros st Hst.
  - cbn. split.
    + rewrite Z.add_0_r. symmetry. exact Hst.
    + exists []. rewrite app_nil_r. repeat split. constructor.
  - cbn [for_loop].
    set (st1 := generate_one lo1 hi1 lo2 hi2 ax ay az periodic dim st).
    assert (H1 : wrap_int (gen_count st1) = gen_count st1).
    { subst st1. cbn. unfold int_add. apply wrap_int_idem. }
    destruct (IH st1 H1) as [Hc (new & Hl & Hn & Hall)].
    split.
    + rewrite Hc. subst st1. cbn [gen_count LineOfSight.generate_one].
      unfold int_add. rewrite wrap_int_add_l. f_equal. lia.
    + eexists (_ :: new). split; [|split].
      * rewrite Hl. subst st1. cbn [Los_filled LineOfSight.generate_one].
        rewrite <- app_assoc. reflexivity.
      * cbn. rewrite Hn. reflexivity.
      * constructor; [|exact Hall]. cbn.
        repeat split; apply draw_between.
Qed.


End GenerateFacts.

Lemma los_init_num_tot (swift_params : Type) gi gd gs dim (store : swift_params) :
  let p := los_init swift_params gi gd gs dim store in
  num_tot p = int_add (int_add (num_along_xy p) (num_along_yz p))
                      (num_along_xz p).
Proof. reflexivity. Qed.

Lemma sample_rand_range (k : nat) : 0 <= sample_rand k <= sample_RAND_MAX.
Proof.
  unfold sample_rand, sample_RAND_MAX.
  pose proof (Nat.mod_upper_bound k 5 ltac:(discriminate)) as Hk.
  split.
  - apply Z.div_pos; lia.
  - apply Z.div_le_upper_bound; lia.
Qed.

Example sample_generate_length :
  match generate_line_of_sights sample_RAND_MAX sample_rand sample_los_props
                                1 (Vec3 10 10 10) with
  | Returns generated => map (fun l => (xaxis l, yaxis l)) generated
  | Fatal _ => []
  end
  = [(simulation_x_axis, simulation_y_axis);
     (simulation_x_axis, simulation_y_axis);
     (simulation_y_axis, simulation_z_axis)].
Proof. vm_compute. reflexivity. Qed.


End LineOfSightGeneration.

(* ===================================================================== *)
(** ** Counts, displacements and the main loop                            *)
(* ===================================================================== *)

Module LineOfSightGather.

Import MachineInt MachineIntFacts LineOfSight.

Lemma sum_Z_app (a b : list Z) : sum_Z (a ++ b) = sum_Z a + sum_Z b.
Proof. induction a as [|x a IH]; simpl; [reflexivity | rewrite IH; lia]. Qed.

Lemma sum_Z_nonneg (l : list Z) : Forall (fun c => 0 <= c) l -> 0 <= sum_Z l.
Proof. induction 1; simpl; lia. Qed.

Lemma sum_Z_firstn_le (l : list Z) (k : nat) :
  Forall (fun c => 0 <= c) l -> 0 <= sum_Z (firstn k l) <= sum_Z l.
Proof.
  intros Hl. rewrite <- (firstn_skipn k l) at 3. rewrite sum_Z_app.
  assert (0 <= sum_Z (firstn k l)).
  { apply sum_Z_nonneg. rewrite <- (firstn_skipn k l) in Hl.
    apply Forall_app in Hl. tauto. }
  assert (0 <= sum_Z (skipn k l)).
  { apply sum_Z_nonneg. rewrite <- (firstn_skipn k l) in Hl.
    apply Forall_app in Hl. tauto. }
  lia.
Qed.

Lemma sum_Z_firstn_S (l : list Z) (k : nat) :
  (k < length l)%nat ->
  sum_Z (firstn (S k) l) = sum_Z (firstn k l) + nth k l 0.
Proof.
  revert k. induction l as [|x l IH]; intros k Hk; simpl in Hk; [lia|].
  destruct k as [|k].
  - simpl. destruct l; simpl; lia.
  - change (firstn (S (S k)) (x :: l)) with (x :: firstn (S k) l).
    change (firstn (S k) (x :: l)) with (x :: firstn k l).
    cbn [sum_Z fold_right nth]. fold (sum_Z (firstn (S k) l)).
    fold (sum_Z (firstn k l)). rewrite IH by lia. lia.
Qed.

(** The loop over the ranks, started anywhere: what it adds to the total and
    which displacements it appends, as long as no [int] overflows. *)
Lemma count_disp_loop_spec : forall (LOS_counts : list Z) los disps disp_count,
  Forall (fun c => 0 <= c) LOS_counts ->
  0 <= particles_in_los_total los ->
  0 <= disp_count ->
  particles_in_los_total los + sum_Z LOS_counts <= INT_MAX ->
  disp_count + sum_Z LOS_counts <= INT_MAX ->
  let r := count_disp_loop LOS_counts los disps disp_count in
  particles_in_los_total (fst r)
  = particles_in_los_total los + sum_Z LOS_counts
  /\ particles_in_los_local (fst r) = particles_in_los_local los
  /\ snd r = disps ++ map (fun k => disp_count + sum_Z (firstn k LOS_counts))
                          (seq 0 (length LOS_counts)).
Proof.
  induction LOS_counts as [|c rest IH]; intros los disps dc Hnn Ht Hd Hts Hds.
  - cbn. rewrite app_nil_r. repeat split; lia.
  - inversion Hnn as [|c' rest' Hc Hrest]; subst.
    cbn [sum_Z fold_right] in Hts, Hds. fold (sum_Z rest) in Hts, Hds.
    pose proof (sum_Z_nonneg rest Hrest) as Hs.
    cbn [count_disp_loop]. cbv zeta.
    assert (E1 : int_add (particles_in_los_total los) c
                 = particles_in_los_total los + c).
    { apply wrap_int_small. unfold INT_MIN, INT_MAX in *. lia. }
    assert (E2 : int_add dc c = dc + c).
    { apply wrap_int_small. unfold INT_MIN, INT_MAX in *. lia. }
    rewrite E1, E2.
    destruct (IH (set_particles_in_los_total los (particles_in_los_total los + c))
                 (disps ++ [dc]) (dc + c) Hrest) as (Ha & Hb & Hc');
      cbn [particles_in_los_total set_particles_in_los_total]; try lia.
    rewrite Ha, Hb, Hc'.
    cbn [particles_in_los_total particles_in_los_local
         set_particles_in_los_total sum_Z fold_right length seq map firstn].
    fold (sum_Z rest). repeat split; try lia.
    rewrite <- app_assoc. cbn [app]. f_equal. f_equal.
    + lia.
    + rewrite <- seq_shift, map_map. apply map_ext. intros k.
      cbn [firstn sum_Z fold_right]. fold (sum_Z (firstn k rest)). lia.
Qed.

Section DriverFacts.

Variable kernel_gamma : Q.
Variable time_bin_inhibited : Z.
Variable nearest : Q -> Q -> Q.
Variable SWIFT_DEBUG_CHECKS : bool.
Variable swift_malloc_ok : string -> Z -> bool.
Variable H5Gcreate_ok : Z -> bool.

Local Abbreviation los_count_phase :=
  (LineOfSight.los_count_phase kernel_gamma time_bin_inhibited nearest).
Local Abbreviation los_iteration :=
  (LineOfSight.los_iteration kernel_gamma time_bin_inhibited nearest
                             SWIFT_DEBUG_CHECKS swift_malloc_ok H5Gcreate_ok).
Local Abbreviation los_main_loop :=
  (LineOfSight.los_main_loop kernel_gamma time_bin_inhibited nearest
                             SWIFT_DEBUG_CHECKS swift_malloc_ok H5Gcreate_ok).
Local Abbreviation do_line_of_sight :=
  (LineOfSight.do_line_of_sight kernel_gamma time_bin_inhibited nearest
                                SWIFT_DEBUG_CHECKS swift_malloc_ok
                                H5Gcreate_ok).

Local Abbreviation los_recorded :=
  (LineOfSight.los_recorded kernel_gamma time_bin_inhibited nearest).

(** Whenever an iteration returns, it has recorded the sightline and added
    its global count to the running grand total. *)
Lemma los_iteration_returns nodeID world me j los st st1 :
  los_iteration nodeID world me j los st = Returns st1 ->
  LOS_done st1 = LOS_done st ++ [los_recorded world me los]
  /\ total_num_parts_in_los st1
     = size_t_add (total_num_parts_in_los st)
                  (particles_in_los_total (los_recorded world me los)).
Proof.
  unfold los_iteration, los_recorded.
  destruct (los_count_phase world me los) as [[los' counts] disps]. cbn [fst].
  destruct (particles_in_los_total los' =? 0).
  { intros H. injection H as <-. split; reflexivity. }
  destruct (negb (swift_malloc_ok _ _)); [discriminate|].
  destruct (negb (swift_malloc_ok _ _)); [discriminate|].
  destruct (SWIFT_DEBUG_CHECKS && negb _); [discriminate|].
  destruct (nodeID =? 0).
  - destruct (negb (H5Gcreate_ok j)); [discriminate|].
    intros H. injection H as <-. split; reflexivity.
  - intros H. injection H as <-. split; reflexivity.
Qed.

Lemma los_main_loop_total : forall LOS_list nodeID world me j st st',
  0 <= total_num_parts_in_los st < 2 ^ 64 ->
  los_main_loop nodeID world me j LOS_list st = Returns st' ->
  LOS_done st' = LOS_done st ++ map (los_recorded world me) LOS_list
  /\ total_num_parts_in_los st'
     = (total_num_parts_in_los st
        + sum_Z (map particles_in_los_total
                     (map (los_recorded world me) LOS_list))) mod 2 ^ 64.
Proof.
  induction LOS_list as [|los rest IH]; intros nodeID world me j st st' Hst.
  - cbn. intros H. injection H as <-. rewrite app_nil_r, Z.add_0_r.
    rewrite Z.mod_small by exact Hst. split; reflexivity.
  - cbn [los_main_loop]. unfold bind.
    destruct (los_iteration nodeID world me j los st) as [st1|msg] eqn:Hit;
      [|discriminate].
    destruct (los_iteration_returns _ _ _ _ _ _ _ Hit) as [Hd Ht].
    intros Hloop. apply IH in Hloop.
    + destruct Hloop as [Hd' Ht']. split.
      * rewrite Hd', Hd, <- app_assoc. reflexivity.
      * rewrite Ht', Ht. unfold size_t_add. cbn [map sum_Z fold_right].
        rewrite Z.add_mod_idemp_l by (apply Z.pow_nonzero; lia).
        unfold sum_Z. f_equal. lia.
    + rewrite Ht. unfold size_t_add. apply Z.mod_pos_bound. lia.
Qed.

Lemma nth_map_seq (f : nat -> Z) (n k : nat) :
  (k < n)%nat -> nth k (map f (seq 0 n)) 0 = f k.
Proof.
  intros Hk.
  rewrite (nth_indep _ 0 (f 0%nat)) by (rewrite length_map, length_seq; exact Hk).
  rewrite map_nth, seq_nth by exact Hk. reflexivity.
Qed.

Lemma MPI_Exscan_sum_spec : forall (N : list Z) (below : Z),
  Forall (fun c => 0 <= c) N ->
  0 <= below ->
  below + sum_Z N <= LLONG_MAX ->
  SerialIO.MPI_Exscan_sum below N
  = map (fun k => below + sum_Z (firstn k N)) (seq 0 (length N)).
Proof.
  induction N as [|n rest IH]; intros below Hnn Hb Hfit; [reflexivity|].
  inversion Hnn as [|n' rest' Hn Hrest]; subst.
  cbn [sum_Z fold_right] in Hfit. fold (sum_Z rest) in Hfit.
  pose proof (sum_Z_nonneg rest Hrest) as Hs.
  cbn [SerialIO.MPI_Exscan_sum length seq map firstn sum_Z fold_right].
  assert (E : llong_add below n = below + n).
  { apply wrap_llong_small. unfold LLONG_MIN, LLONG_MAX in *. lia. }
  rewrite E, IH by (try assumption; lia).
  f_equal; [lia|].
  rewrite <- seq_shift, map_map. apply map_ext. intros k.
  cbn [firstn sum_Z fold_right]. fold (sum_Z (firstn k rest)). lia.
Qed.

Lemma write_output_N_total_list : forall (N : list Z) (below : Z),
  Forall (fun c => 0 <= c) N ->
  0 <= below ->
  below + sum_Z N <= LLONG_MAX ->
  map (fun on => llong_add (fst on) (snd on))
      (combine (SerialIO.MPI_Exscan_sum below N) N)
  = map (fun k => below + sum_Z (firstn (S k) N)) (seq 0 (length N)).
Proof.
  induction N as [|n rest IH]; intros below Hnn Hb Hfit; [reflexivity|].
  inversion Hnn as [|n' rest' Hn Hrest]; subst.
  cbn [sum_Z fold_right] in Hfit. fold (sum_Z rest) in Hfit.
  pose proof (sum_Z_nonneg rest Hrest) as Hs.
  cbn [SerialIO.MPI_Exscan_sum combine length seq map fst snd].
  assert (E : llong_add below n = below + n).
  { apply wrap_llong_small. unfold LLONG_MIN, LLONG_MAX in *. lia. }
  rewrite E, IH by (try assumption; lia).
  f_equal.
  - cbn. destruct rest; cbn; lia.
  - rewrite <- seq_shift, map_map. apply map_ext. intros k.
    change (firstn (S (S k)) (n :: rest)) with (n :: firstn (S k) rest).
    cbn [sum_Z fold_right]. fold (sum_Z (firstn (S k) rest)). lia.
Qed.


(** C8: when the global count of sightline [j] is zero, the iteration
    returns normally; rank 0 logs the warning (with the sightline's
    summary), no rank allocates, gathers, creates a group or writes a
    dataset for it; the grand total is left as it was; and the main loop goes
    on with sightline [j + 1]. *)
Theorem empty_sightline_is_skipped :
  forall nodeID world me j los rest st,
    particles_in_los_total (los_recorded world me los) = 0 ->
    0 <= total_num_parts_in_los st < 2 ^ 64 ->
    let st1 :=
      LosPassState
        (trace st
         ++ (if SWIFT_DEBUG_CHECKS && (nodeID =? 0)
             then [EvPrintLosInfo j] else [])
         ++ (if nodeID =? 0
             then [EvWarningEmpty j; EvPrintLosInfo j] else []))
        (total_num_parts_in_los st)
        (LOS_done st ++ [los_recorded world me los]) in
    los_iteration nodeID world me j los st = Returns st1
    /\ los_main_loop nodeID world me j (los :: rest) st
       = los_main_loop nodeID world me (j + 1) rest st1.
Proof.
  intros nodeID world me j los rest st Hzero Hst st1.
  assert (Hit : los_iteration nodeID world me j los st = Returns st1).
  { subst st1. revert Hzero. unfold los_iteration, los_recorded.
    destruct (los_count_phase world me los) as [[los' counts] disps].
    cbn [fst]. intros ->. cbn [Z.eqb].
    unfold size_t_add. rewrite Z.add_0_r, Z.mod_small by exact Hst.
    rewrite <- app_assoc. reflexivity. }
  split; [exact Hit|].
  cbn [los_main_loop]. rewrite Hit. reflexivity.
Qed.

End DriverFacts.

Example sample_pass_trace :
  match sample_pass with
  | Returns st => (trace st, total_num_parts_in_los st)
  | Fatal _ => ([], -1)
  end
  = ([EvFileCreate;
      EvPrintLosInfo 0;
      EvMalloc "los_parts_array" 2; EvMalloc "los_xparts_array" 2;
      EvGatherv 0 [0; 2] [0; 0]; EvGatherv 0 [0; 2] [0; 0];
      EvGroupCreate 0;
      EvWriteAttribute "NumParts"; EvWriteAttribute "Xaxis";
      EvWriteAttribute "Yaxis"; EvWriteAttribute "Zaxis";
      EvWriteAttribute "Xpos"; EvWriteAttribute "Ypos";
      EvWriteDatasets 0 2; EvGroupClose 0;
      EvFree "los_parts_array"; EvFree "los_xparts_array";
      EvPrintLosInfo 1;
      EvWarningEmpty 1; EvPrintLosInfo 1;
      EvWriteHeader 2; EvFileClose], 2).
Proof. vm_compute. reflexivity. Qed.


Lemma empty_sightline_is_skipped_witness :
  los_iteration cubic_spline_gamma inhibited_bin box_wrap true
                always_ok_malloc always_ok_group
                0 sample_world sample_rank0 1 empty_los
                (LosPassState [EvFileCreate] 2 [])
  = Returns
      (LosPassState
         ([EvFileCreate] ++ [EvPrintLosInfo 1]
          ++ [EvWarningEmpty 1; EvPrintLosInfo 1])
         2
         ([] ++ [los_recorded cubic_spline_gamma inhibited_bin box_wrap
                              sample_world sample_rank0 empty_los])).
Proof.
  apply (empty_sightline_is_skipped
           cubic_spline_gamma inhibited_bin box_wrap true
           always_ok_malloc always_ok_group
           0 sample_world sample_rank0 1 empty_los []
           (LosPassState [EvFileCreate] 2 [])).
  - vm_compute. reflexivity.
  - cbn. lia.
Defined.

End LineOfSightGather.

(* ===================================================================== *)
(** ** Dataset creation                                                   *)
(* ===================================================================== *)

Module DatasetLayout.

Import H5.

Lemma to_hsize_small (z : Z) : 0 <= z < 2 ^ 64 -> to_hsize z = z.
Proof. intros Hz. unfold to_hsize. apply Z.mod_small. exact Hz. Qed.

Lemma los_layout (props : LineOfSight.io_props) (N level : Z) :
  0 <= N < 2 ^ 64 ->
  LineOfSight.dimension props < 2 ^ 64 ->
  let L := LineOfSight.write_los_hdf5_dataset props N level in
  space_dims (h_space L) = expected_shape N (LineOfSight.dimension props)
  /\ chunk_dims (h_prop L)
     = Some (expected_chunk (2 ^ 20) N (LineOfSight.dimension props))
  /\ filter_pipeline (h_prop L)
     = Fletcher32 :: (if level >? 0 then [Shuffle; Deflate level] else []).
Proof.
  intros HN Hd. unfold LineOfSight.write_los_hdf5_dataset, expected_shape,
    expected_chunk.
  change (Z.shiftl 1 20) with (2 ^ 20).
  rewrite (to_hsize_small N HN).
  rewrite (to_hsize_small (2 ^ 20)) by lia.
  destruct (LineOfSight.dimension props >? 1) eqn:Hdim.
  - rewrite (to_hsize_small (LineOfSight.dimension props)) by lia.
    cbn [nth tl]. destruct (2 ^ 20 >? N) eqn:Hc;
      destruct (level >? 0); cbn; (rewrite ?Z.min_r, ?Z.min_l by lia);
      repeat split; reflexivity.
  - cbn [nth tl]. destruct (2 ^ 20 >? N) eqn:Hc;
      destruct (level >? 0); cbn; (rewrite ?Z.min_r, ?Z.min_l by lia);
      repeat split; reflexivity.
Qed.

Section SerialLayout.

Variable DATA_TYPE : Type.
Variable UnitConversionFactor : Type.

Local Abbreviation prepareArray :=
  (SerialIO.prepareArray DATA_TYPE UnitConversionFactor).

Lemma serial_layout (props : SerialIO.io_props DATA_TYPE UnitConversionFactor)
      (N_total : Z) :
  0 <= N_total < 2 ^ 64 ->
  SerialIO.dimension _ _ props < 2 ^ 64 ->
  let L := prepareArray props N_total in
  space_dims (h_space L) = expected_shape N_total (SerialIO.dimension _ _ props)
  /\ chunk_dims (h_prop L)
     = Some (expected_chunk (2 ^ 16) N_total (SerialIO.dimension _ _ props))
  /\ filter_pipeline (h_prop L) = [Deflate 4].
Proof.
  intros HN Hd. unfold SerialIO.prepareArray, expected_shape, expected_chunk.
  change (Z.shiftl 1 16) with (2 ^ 16).
  rewrite (to_hsize_small N_total HN).
  rewrite (to_hsize_small (2 ^ 16)) by lia.
  destruct (SerialIO.dimension _ _ props >? 1) eqn:Hdim.
  - rewrite (to_hsize_small (SerialIO.dimension _ _ props)) by lia.
    cbn [nth tl]. destruct (2 ^ 16 >? N_total) eqn:Hc; cbn;
      (rewrite ?Z.min_r, ?Z.min_l by lia); repeat split; reflexivity.
  - cbn [nth tl]. destruct (2 ^ 16 >? N_total) eqn:Hc; cbn;
      (rewrite ?Z.min_r, ?Z.min_l by lia); repeat split; reflexivity.
Qed.

(** C3 (amended): a dataset created with [N] elements of width [d] has
    shape [[N]] ([d <= 1]) or [[N, d]] ([d > 1]) and a leading chunk extent
    equal to the writer's fixed maximum clipped down to [N], in both
    writers.  The LOS dataset writer (maximum 2^20) always enables the
    Fletcher32 checksum and enables shuffle followed by deflate exactly when
    the configured compression level is positive.  The serial snapshot
    preparation (maximum 2^16) enables no checksum and no shuffle and always
    enables deflate at level 4, whatever is configured. *)
Theorem dataset_layout_of_both_writers :
  forall (los_props : LineOfSight.io_props)
         (serial_props : SerialIO.io_props DATA_TYPE UnitConversionFactor)
         (N snapshot_compression : Z),
    0 <= N < 2 ^ 64 ->
    LineOfSight.dimension los_props < 2 ^ 64 ->
    SerialIO.dimension _ _ serial_props < 2 ^ 64 ->
    let los := LineOfSight.write_los_hdf5_dataset los_props N
                                                  snapshot_compression in
    let ser := prepareArray serial_props N in
    (space_dims (h_space los)
     = expected_shape N (LineOfSight.dimension los_props)
     /\ chunk_dims (h_prop los)
        = Some (expected_chunk (2 ^ 20) N (LineOfSight.dimension los_props))
     /\ has_filter Fletcher32 (h_prop los) = true
     /\ has_filter Shuffle (h_prop los) = (snapshot_compression >? 0)
     /\ has_deflate (h_prop los) = (snapshot_compression >? 0)
     /\ (0 < snapshot_compression ->
         has_filter (Deflate snapshot_compression) (h_prop los) = true))
    /\ (space_dims (h_space ser)
        = expected_shape N (SerialIO.dimension _ _ serial_props)
        /\ chunk_dims (h_prop ser)
           = Some (expected_chunk (2 ^ 16) N
                                  (SerialIO.dimension _ _ serial_props))
        /\ has_filter Fletcher32 (h_prop ser) = false
        /\ has_filter Shuffle (h_prop ser) = false
        /\ filter_pipeline (h_prop ser) = [Deflate 4]).
Proof.
  intros lp sp N level HN Hdl Hds los ser.
  destruct (los_layout lp N level HN Hdl) as (Hs & Hc & Hf).
  destruct (serial_layout sp N HN Hds) as (Hs' & Hc' & Hf').
  fold los in Hs, Hc, Hf. fold ser in Hs', Hc', Hf'.
  unfold has_filter, has_deflate. rewrite Hf, Hf'.
  split; repeat split; try assumption; try reflexivity.
  - destruct (level >? 0); reflexivity.
  - destruct (level >? 0); reflexivity.
  - intros Hpos. destruct (level >? 0) eqn:E; [|lia].
    cbn. rewrite Z.eqb_refl. reflexivity.
Qed.

End SerialLayout.

(** C3 as stated fails for the serial snapshot preparation: its property
    list carries no checksum filter, and deflate is there (without shuffle)
    although no compression level is consulted. *)
Lemma prepareArray_has_no_checksum :
  let L := SerialIO.prepareArray SerialIO.sample_DATA_TYPE unit
             (SerialIO.sample_vector_field SerialIO.COMPULSORY) 1000 in
  has_filter Fletcher32 (h_prop L) = false
  /\ has_filter Shuffle (h_prop L) = false
  /\ has_deflate (h_prop L) = true.
Proof. vm_compute. repeat split. Qed.

Lemma dataset_layout_of_both_writers_witness :
  let los := LineOfSight.write_los_hdf5_dataset
               (LineOfSight.IoProps "Coordinates" 3) 1000 6 in
  let ser := SerialIO.prepareArray SerialIO.sample_DATA_TYPE unit
               (SerialIO.sample_vector_field SerialIO.COMPULSORY) 1000 in
  (space_dims (h_space los) = [1000; 3]
   /\ chunk_dims (h_prop los) = Some [1000; 3]
   /\ has_filter Fletcher32 (h_prop los) = true
   /\ has_filter Shuffle (h_prop los) = true
   /\ has_deflate (h_prop los) = true
   /\ (0 < 6 -> has_filter (Deflate 6) (h_prop los) = true))
  /\ (space_dims (h_space ser) = [1000; 3]
      /\ chunk_dims (h_prop ser) = Some [1000; 3]
      /\ has_filter Fletcher32 (h_prop ser) = false
      /\ has_filter Shuffle (h_prop ser) = false
      /\ filter_pipeline (h_prop ser) = [Deflate 4]).
Proof.
  apply (dataset_layout_of_both_writers
           SerialIO.sample_DATA_TYPE unit
           (LineOfSight.IoProps "Coordinates" 3)
           (SerialIO.sample_vector_field SerialIO.COMPULSORY) 1000 6);
    vm_compute; try split; congruence.
Defined.

End DatasetLayout.

(* ===================================================================== *)
(** ** Division of the particles among the ranks                          *)
(* ===================================================================== *)

Module RankSlices.

Import MachineInt MachineIntFacts SerialIO.

Section Slices.

Variable T P : Z.
Hypothesis T_nonneg : 0 <= T.
Hypothesis P_pos : 1 <= P.
Hypothesis P_int : P <= INT_MAX.
Hypothesis no_overflow : P * T <= LLONG_MAX.

(** The mathematical slice boundary [r * T / P]. *)
Local Abbreviation cut r := (r * T / P).

Lemma cut_mono r r' : 0 <= r <= r' -> cut r <= cut r'.
Proof. intros H. apply Z.div_le_mono; nia. Qed.

Lemma cut_0 : cut 0 = 0.
Proof. rewrite Z.mul_0_l. apply Z.div_0_l. lia. Qed.

Lemma cut_P : cut P = T.
Proof. rewrite Z.mul_comm. apply Z.div_mul. lia. Qed.

Lemma cut_range r : 0 <= r <= P -> 0 <= cut r <= T.
Proof.
  intros H. split.
  - apply Z.div_pos; nia.
  - apply Z.div_le_upper_bound; nia.
Qed.

Lemma read_ic_offset_cut r : 0 <= r <= P -> read_ic_offset r P T = cut r.
Proof.
  intros Hr. unfold read_ic_offset, llong_div, llong_mul.
  assert (Hprod : 0 <= r * T <= LLONG_MAX) by nia.
  rewrite (wrap_llong_small (r * T)) by (unfold LLONG_MIN; lia).
  rewrite Z.quot_div_nonneg by lia.
  apply wrap_llong_small. pose proof (cut_range r Hr).
  unfold LLONG_MIN, LLONG_MAX in *. nia.
Qed.

Lemma read_ic_N_cut r :
  0 <= r < P -> read_ic_N r P T = cut (r + 1) - cut r.
Proof.
  intros Hr. unfold read_ic_N, llong_sub.
  rewrite (read_ic_offset_cut r) by lia.
  unfold int_add. rewrite (wrap_int_small (r + 1))
    by (unfold INT_MIN, INT_MAX in *; lia).
  fold (read_ic_offset (r + 1) P T).
  rewrite (read_ic_offset_cut (r + 1)) by lia.
  pose proof (cut_range r ltac:(lia)).
  pose proof (cut_range (r + 1) ltac:(lia)).
  pose proof (cut_mono r (r + 1) ltac:(lia)).
  rewrite wrap_llong_small by (unfold LLONG_MIN, LLONG_MAX in *; nia).
  apply Z.mod_small. unfold LLONG_MAX in *. nia.
Qed.

(** Every element index below [T] falls between two consecutive cuts. *)
Lemma cut_covers e :
  0 <= e < T -> exists r, 0 <= r < P /\ cut r <= e < cut (r + 1).
Proof.
  intros He. exists (((e + 1) * P - 1) / T).
  assert (HT : 0 < T) by lia.
  set (r := ((e + 1) * P - 1) / T).
  assert (Hr0 : 0 <= r) by (apply Z.div_pos; nia).
  assert (HrP : r < P) by (apply Z.div_lt_upper_bound; nia).
  pose proof (Z.mul_div_le ((e + 1) * P - 1) T HT) as Hlo. fold r in Hlo.
  pose proof (Z.mul_succ_div_gt ((e + 1) * P - 1) T HT) as Hhi. fold r in Hhi.
  repeat split; try lia.
  - assert (cut r < e + 1); [|lia].
    apply Z.div_lt_upper_bound; nia.
  - assert (e + 1 <= cut (r + 1)); [|lia].
    apply Z.div_le_lower_bound; nia.
Qed.

(** C7: with [T >= 0] elements and [P >= 1] ranks (the products [r * T]
    being representable as [long long]), the slices of [read_ic_serial] are
    [offset(r) = r*T/P] and [length(r) = (r+1)*T/P - r*T/P]; they are
    non-negative, contiguous, start at 0 and end at [T], and every element of
    [[0, T)] lies in the slice of exactly one rank. *)
Theorem read_ic_slices_partition :
  (forall r, 0 <= r < P ->
             read_ic_offset r P T = r * T / P
             /\ read_ic_N r P T = (r + 1) * T / P - r * T / P
             /\ 0 <= read_ic_offset r P T
             /\ 0 <= read_ic_N r P T
             /\ (r + 1 < P ->
                 read_ic_offset (r + 1) P T
                 = read_ic_offset r P T + read_ic_N r P T))
  /\ read_ic_offset 0 P T = 0
  /\ read_ic_offset (P - 1) P T + read_ic_N (P - 1) P T = T
  /\ (forall e, 0 <= e < T ->
                exists r,
                  0 <= r < P
                  /\ read_ic_offset r P T <= e
                     < read_ic_offset r P T + read_ic_N r P T
                  /\ forall r', 0 <= r' < P ->
                                read_ic_offset r' P T <= e
                                < read_ic_offset r' P T + read_ic_N r' P T ->
                                r' = r).
Proof.
  split; [|split; [|split]].
  - intros r Hr.
    rewrite (read_ic_offset_cut r) by lia. rewrite (read_ic_N_cut r) by lia.
    pose proof (cut_range r ltac:(lia)).
    pose proof (cut_mono r (r + 1) ltac:(lia)).
    repeat split; try lia.
    intros Hnext. rewrite (read_ic_offset_cut (r + 1)) by lia. lia.
  - rewrite read_ic_offset_cut by lia. apply cut_0.
  - rewrite read_ic_offset_cut, read_ic_N_cut by lia.
    replace (P - 1 + 1) with P by lia. rewrite cut_P. lia.
  - intros e He. destruct (cut_covers e He) as (r & Hr & Hlo & Hhi).
    exists r. rewrite read_ic_offset_cut, read_ic_N_cut by lia.
    repeat split; try lia.
    intros r' Hr'. rewrite read_ic_offset_cut, read_ic_N_cut by lia.
    intros [Hlo' Hhi'].
    destruct (Z.lt_trichotomy r' r) as [Hlt | [Heq | Hgt]]; [|exact Heq|].
    + pose proof (cut_mono (r' + 1) r ltac:(lia)). lia.
    + pose proof (cut_mono (r + 1) r' ltac:(lia)). lia.
Qed.

End Slices.

Example slices_of_10_over_4 :
  map (fun r => (read_ic_offset r 4 10, read_ic_N r 4 10)) [0; 1; 2; 3]
  = [(0, 2); (2, 3); (5, 2); (7, 3)].
Proof. vm_compute. reflexivity. Qed.

Lemma read_ic_slices_partition_witness :
  read_ic_offset 0 4 10 = 0
  /\ read_ic_offset 3 4 10 + read_ic_N 3 4 10 = 10.
Proof.
  destruct (read_ic_slices_partition 10 4) as (_ & Hfirst & Hlast & _).
  - vm_compute. congruence.
  - vm_compute. congruence.
  - vm_compute. congruence.
  - vm_compute. congruence.
  - split; [exact Hfirst | exact Hlast].
Defined.

End RankSlices.

(* ===================================================================== *)
(** ** getParam                                                           *)
(* ===================================================================== *)

Module ParserFacts.

Import Parser.

Lemma strcmp_zero_iff (s1 s2 : string) : strcmp s1 s2 = 0 <-> s1 = s2.
Proof.
  revert s2. induction s1 as [|a r1 IH]; intros [|b r2]; cbn [strcmp].
  - tauto.
  - split; discriminate.
  - split; discriminate.
  - destruct (Ascii.eqb_spec a b) as [->|Hne].
    + rewrite IH. split; [intros ->; reflexivity | intros H; injection H; auto].
    + destruct (nat_of_ascii a <? nat_of_ascii b)%nat;
        (split; [discriminate | intros H; injection H; intros; contradiction]).
Qed.

Lemma differs_true name_ p : differs name_ p = true <-> name p <> name_.
Proof.
  unfold differs. rewrite negb_true_iff, Z.eqb_neq, strcmp_zero_iff.
  split; intros H E; apply H; symmetry; exact E.
Qed.

Lemma differs_false name_ p : differs name_ p = false <-> name p = name_.
Proof.
  unfold differs. rewrite negb_false_iff, Z.eqb_eq, strcmp_zero_iff.
  split; intros H; symmetry; exact H.
Qed.

Lemma getParam_loop_find (params : swift_params) (name_ : string) :
  forall suffix prefix,
    data params = prefix ++ suffix ->
    getParam_loop params name_ (length suffix) (length prefix)
    = option_map (fun p => atoi (value p)) (find (differs name_) suffix).
Proof.
  induction suffix as [|p rest IH]; intros prefix Hdata; [reflexivity|].
  cbn [length getParam_loop find]. cbv zeta.
  rewrite Hdata, nth_middle. fold (differs name_ p).
  destruct (differs name_ p); [reflexivity|].
  replace (S (length prefix)) with (length (prefix ++ [p]))
    by (rewrite length_app; cbn; lia).
  apply IH. rewrite <- app_assoc. exact Hdata.
Qed.

Lemma find_pointwise (f g : parameter -> bool) (l : list parameter) :
  (forall p, f p = g p) -> find f l = find g l.
Proof.
  intros E. induction l as [|q rest IH]; cbn; [reflexivity|].
  rewrite E, IH. reflexivity.
Qed.

Lemma find_first (f : parameter -> bool) : forall l p,
  find f l = Some p ->
  exists i, nth_error l i = Some p
            /\ f p = true
            /\ forall k, (k < i)%nat -> f (nth k l empty_parameter) = false.
Proof.
  induction l as [|q rest IH]; intros p H; [discriminate|].
  cbn in H. destruct (f q) eqn:Hq.
  - injection H as <-. exists 0%nat. repeat split; [exact Hq | lia].
  - destruct (IH p H) as (i & Hn & Hp & Hk). exists (S i).
    repeat split; [exact Hn | exact Hp |].
    intros [|k] Hlt; [exact Hq | apply Hk; lia].
Qed.

(** C9: [getParam] walks the stored parameters in index order and stores
    into [*retParam] the [atoi] of the value of the first one whose name
    differs from the queried name ([strcmp] non-zero); every parameter
    before the selected one, and every parameter when nothing is stored, has
    exactly the queried name; so [*retParam] is left as it was precisely when
    all stored names equal the query, and the parameter selected is never
    one whose name equals the query. *)
Theorem getParam_takes_first_differing_name :
  forall (params : swift_params) (name_ : string) (retParam : Z),
    length (data params) = MAX_NO_OF_PARAMS ->
    let stored := getParam_loop params name_ MAX_NO_OF_PARAMS 0 in
    getParam params name_ retParam
    = match find (fun p => negb (String.eqb name_ (name p))) (data params) with
      | Some p => atoi (value p)
      | None => retParam
      end
    /\ (forall v, stored = Some v ->
          exists i p,
            nth_error (data params) i = Some p
            /\ name p <> name_
            /\ v = atoi (value p)
            /\ forall k, (k < i)%nat ->
                         name (nth k (data params) empty_parameter) = name_)
    /\ (stored = None <-> Forall (fun p => name p = name_) (data params)).
Proof.
  intros params name_ retParam Hlen stored.
  assert (Hloop : stored = option_map (fun p => atoi (value p))
                                      (find (differs name_) (data params))).
  { subst stored. rewrite <- Hlen.
    apply (getParam_loop_find params name_ (data params) []). reflexivity. }
  assert (Hext : find (fun p => negb (String.eqb name_ (name p))) (data params)
                 = find (differs name_) (data params)).
  { apply find_pointwise. intros p. unfold differs. f_equal.
    destruct (String.eqb_spec name_ (name p)) as [E|E].
    - symmetry. apply Z.eqb_eq, strcmp_zero_iff, E.
    - symmetry. apply Z.eqb_neq. rewrite strcmp_zero_iff. exact E. }
  split; [|split].
  - unfold getParam. fold stored. rewrite Hloop, Hext.
    destruct (find (differs name_) (data params)); reflexivity.
  - intros v Hv. rewrite Hloop in Hv.
    destruct (find (differs name_) (data params)) as [p|] eqn:Hf;
      [|discriminate].
    injection Hv as <-.
    destruct (find_first _ _ _ Hf) as (i & Hn & Hp & Hk).
    exists i, p. repeat split; [exact Hn | apply differs_true, Hp |].
    intros k Hlt. apply differs_false, Hk, Hlt.
  - rewrite Hloop. split.
    + intros Hnone.
      destruct (find (differs name_) (data params)) eqn:Hf; [discriminate|].
      apply Forall_forall. intros p Hp.
      apply differs_false. exact (find_none _ _ Hf p Hp).
    + intros Hall.
      destruct (find (differs name_) (data params)) as [p|] eqn:Hf;
        [|reflexivity].
      apply find_some in Hf. destruct Hf as [Hin Hd].
      rewrite Forall_forall in Hall. apply differs_true in Hd.
      elim Hd. apply Hall, Hin.
Qed.

Example getParam_steps_returns_dt :
  getParam sample_params "steps" 0 = 10.
Proof. vm_compute. reflexivity. Qed.

Example getParam_dt_returns_steps :
  getParam sample_params "dt" 0 = 200.
Proof. vm_compute. reflexivity. Qed.

Example getParam_uniform_unchanged :
  getParam uniform_params "dt" 99 = 99.
Proof. vm_compute. reflexivity. Qed.

Lemma getParam_takes_first_differing_name_witness :
  getParam sample_params "steps" 0
  = match find (fun p => negb (String.eqb "steps" (name p)))
               (data sample_params) with
    | Some p => atoi (value p)
    | None => 0
    end.
Proof.
  apply (getParam_takes_first_differing_name sample_params "steps" 0).
  reflexivity.
Defined.

End ParserFacts.

(* ===================================================================== *)
(** ** readArray                                                          *)
(* ===================================================================== *)

Module ReadArrayFacts.

Import SerialIO.

Lemma in_range_spec (dst n a : nat) :
  in_range dst n a = true <-> (dst <= a < dst + n)%nat.
Proof.
  unfold in_range. rewrite andb_true_iff, Nat.leb_le, Nat.ltb_lt. tauto.
Qed.

Lemma in_range_offset (dst n j : nat) :
  (j < n)%nat -> in_range dst n (dst + j) = true.
Proof. intros H. apply in_range_spec. lia. Qed.

Lemma nth_concat_uniform (w : nat) : forall (rows : list (list byte)) i j,
  Forall (fun row => length row = w) rows ->
  (i < length rows)%nat -> (j < w)%nat ->
  nth (i * w + j) (concat rows) x00 = nth j (nth i rows []) x00.
Proof.
  induction rows as [|row rest IH]; intros i j Hall Hi Hj; [cbn in Hi; lia|].
  inversion Hall as [|r rs Hrow Hrest]; subst.
  cbn [concat]. destruct i as [|i].
  - cbn [Nat.mul Nat.add nth]. apply app_nth1. lia.
  - rewrite app_nth2 by (cbn; lia).
    replace (S i * length row + j - length row)%nat
      with (i * length row + j)%nat by (cbn; lia).
    cbn [nth]. apply IH; [exact Hrest | cbn in Hi; lia | exact Hj].
Qed.

Lemma In_firstn_skipn (A : Type) (x : A) (n k : nat) (l : list A) :
  In x (firstn n (skipn k l)) -> In x l.
Proof.
  intros H. rewrite <- (firstn_skipn k l). apply in_or_app. right.
  rewrite <- (firstn_skipn n (skipn k l)). apply in_or_app. left. exact H.
Qed.

Lemma hyperslab_rows (d : dataset) (offset N w : nat) :
  Forall (fun row => (w <= length row)%nat) d ->
  (offset + N <= length d)%nat ->
  length (hyperslab d offset N w) = N
  /\ Forall (fun row => length row = w) (hyperslab d offset N w)
  /\ forall i, (i < N)%nat ->
               nth i (hyperslab d offset N w) []
               = firstn w (nth (offset + i) d []).
Proof.
  intros Hw Hlen. unfold hyperslab.
  assert (HlenN : length (firstn N (skipn offset d)) = N).
  { rewrite length_firstn, length_skipn. lia. }
  split; [|split].
  - rewrite length_map. exact HlenN.
  - apply Forall_map. apply Forall_forall. intros row Hin.
    apply In_firstn_skipn in Hin. rewrite Forall_forall in Hw.
    specialize (Hw row Hin). rewrite length_firstn. lia.
  - intros i Hi.
    rewrite (nth_indep _ [] (firstn w []))
      by (rewrite length_map, HlenN; exact Hi).
    rewrite map_nth, nth_firstn, nth_skipn.
    destruct (i <? N)%nat eqn:E; [reflexivity|].
    apply Nat.ltb_ge in E. lia.
Qed.

Section ReadArray.

Variable DATA_TYPE : Type.
Variable sizeOfType : DATA_TYPE -> nat.
Variable isDoublePrecision : DATA_TYPE -> bool.
Variable UnitConversionFactor : Type.
Variable UnitSystem : Type.
Variable units_conversion_factor :
  UnitSystem -> UnitSystem -> UnitConversionFactor -> Q.
Variable scale_buffer : bool -> Q -> list byte -> list byte.
Variable malloc_ok : nat -> bool.

Local Abbreviation io_props := (SerialIO.io_props DATA_TYPE UnitConversionFactor).
Local Abbreviation field := (SerialIO.field DATA_TYPE UnitConversionFactor).
Local Abbreviation partSize := (SerialIO.partSize DATA_TYPE UnitConversionFactor).
Local Abbreviation name := (SerialIO.name DATA_TYPE UnitConversionFactor).
Local Abbreviation type := (SerialIO.type DATA_TYPE UnitConversionFactor).
Local Abbreviation dimension := (SerialIO.dimension DATA_TYPE UnitConversionFactor).
Local Abbreviation importance := (SerialIO.importance DATA_TYPE UnitConversionFactor).
Local Abbreviation units := (SerialIO.units DATA_TYPE UnitConversionFactor).
Local Abbreviation zero_fill_loop :=
  (SerialIO.zero_fill_loop DATA_TYPE UnitConversionFactor).
Local Abbreviation copy_loop :=
  (SerialIO.copy_loop DATA_TYPE UnitConversionFactor).
Local Abbreviation readArray :=
  (SerialIO.readArray DATA_TYPE sizeOfType isDoublePrecision UnitConversionFactor
             UnitSystem units_conversion_factor scale_buffer malloc_ok).

(** [a] is one of the [copySize] bytes of the field in one of the records
    [i, i + n). *)
Local Abbreviation untouched props copySize i n a :=
  (forall k, (i <= k < i + n)%nat ->
             in_range (field props + k * partSize props) copySize a = false).

Lemma zero_fill_keeps_zero (props : io_props) (copySize : nat) :
  forall n i (m : memory) a,
    m a = x00 -> zero_fill_loop props copySize n i m a = x00.
Proof.
  induction n as [|n IH]; intros i m a Hm; [exact Hm|].
  cbn [zero_fill_loop]. apply IH. unfold memset_zero.
  destruct (in_range _ _ a); [reflexivity | exact Hm].
Qed.

Lemma zero_fill_zeroes (props : io_props) (copySize : nat) :
  forall n i (m : memory) k j,
    (i <= k < i + n)%nat -> (j < copySize)%nat ->
    zero_fill_loop props copySize n i m (field props + k * partSize props + j)%nat
    = x00.
Proof.
  induction n as [|n IH]; intros i m k j Hk Hj; [lia|].
  cbn [zero_fill_loop].
  destruct (Nat.eq_dec k i) as [->|Hne].
  - apply zero_fill_keeps_zero. unfold memset_zero.
    rewrite in_range_offset by exact Hj. reflexivity.
  - apply IH; [lia | exact Hj].
Qed.

Lemma zero_fill_elsewhere (props : io_props) (copySize : nat) :
  forall n i (m : memory) a,
    untouched props copySize i n a ->
    zero_fill_loop props copySize n i m a = m a.
Proof.
  induction n as [|n IH]; intros i m a Hout; [reflexivity|].
  cbn [zero_fill_loop]. rewrite IH.
  - unfold memset_zero. rewrite (Hout i) by lia. reflexivity.
  - intros k Hk. apply Hout. lia.
Qed.

Lemma copy_elsewhere (props : io_props) (copySize : nat) (temp : list byte) :
  forall n i (m : memory) a,
    untouched props copySize i n a ->
    copy_loop props copySize temp n i m a = m a.
Proof.
  induction n as [|n IH]; intros i m a Hout; [reflexivity|].
  cbn [copy_loop]. rewrite IH.
  - unfold memcpy_from. rewrite (Hout i) by lia. reflexivity.
  - intros k Hk. apply Hout. lia.
Qed.

(** Records do not overlap: a field of [copySize <= partSize] bytes of record
    [k] is out of reach of the writes to any other record. *)
Lemma other_record_out_of_range (props : io_props) (copySize k k' j : nat) :
  (copySize <= partSize props)%nat -> (j < copySize)%nat -> k <> k' ->
  in_range (field props + k' * partSize props) copySize
           (field props + k * partSize props + j)%nat = false.
Proof.
  intros Hsz Hj Hne. apply not_true_is_false. rewrite in_range_spec. nia.
Qed.

Lemma copy_fills (props : io_props) (copySize : nat) (temp : list byte) :
  (copySize <= partSize props)%nat ->
  forall n i (m : memory) k j,
    (i <= k < i + n)%nat -> (j < copySize)%nat ->
    copy_loop props copySize temp n i m (field props + k * partSize props + j)%nat
    = nth (k * copySize + j) temp x00.
Proof.
  intros Hsz. induction n as [|n IH]; intros i m k j Hk Hj; [lia|].
  cbn [copy_loop].
  destruct (Nat.eq_dec k i) as [->|Hne].
  - rewrite copy_elsewhere.
    + unfold memcpy_from. rewrite in_range_offset by exact Hj.
      f_equal. lia.
    + intros k' Hk'. apply other_record_out_of_range; [exact Hsz | exact Hj | lia].
  - apply IH; [lia | exact Hj].
Qed.

(** C4: reading a named field with [readArray].
    - Absent from the file and optional: the call returns normally and the
      [copySize] bytes at the field's offset in each of the [N] records are
      zero, every other byte being left as it was.
    - Absent and compulsory: the call is fatal.
    - Present (and the library reports no fault, the temporary buffer is
      allocated, records do not overlap): the call returns the memory produced
      by the copy loop alone, in which the field of record [i] holds bytes
      [i * copySize ...] of the buffer read from rows
      [[offset, offset + N)] of the dataset (scaled when the unit factor is
      not 1); every other byte is left as it was. *)
Theorem readArray_absent_or_present :
  forall (grp : h5_group) (props : io_props) (N : nat) (N_total : Z)
         (offset : nat) (internal_units ic_units : UnitSystem) (m : memory),
    let copySize :=
      (sizeOfType (type props) * Z.to_nat (dimension props))%nat in
    (H5Lexists grp (name props) = 0 ->
     importance props = OPTIONAL ->
     exists m',
       readArray grp props N N_total offset internal_units ic_units m
       = Returns m'
       /\ (forall i j, (i < N)%nat -> (j < copySize)%nat ->
                       m' (field props + i * partSize props + j)%nat = x00)
       /\ (forall a, untouched props copySize 0%nat N a -> m' a = m a))
    /\ (H5Lexists grp (name props) = 0 ->
        importance props = COMPULSORY ->
        exists msg,
          readArray grp props N N_total offset internal_units ic_units m
          = Fatal msg)
    /\ (forall d : dataset,
          0 < H5Lexists grp (name props) ->
          lookup_dataset (name props) (datasets grp) = Some d ->
          H5Dopen_fails grp = false ->
          H5Dget_type_fails grp = false ->
          H5Dread_fails grp = false ->
          malloc_ok (N * Z.to_nat (dimension props)
                     * sizeOfType (type props)) = true ->
          (offset + N <= length d)%nat ->
          1 <= dimension props ->
          (copySize <= partSize props)%nat ->
          Forall (fun row => (copySize <= length row)%nat) d ->
          let raw := concat (hyperslab d offset N copySize) in
          let factor :=
            units_conversion_factor ic_units internal_units (units props) in
          let temp :=
            if Qeq_bool factor 1 then raw
            else scale_buffer (isDoublePrecision (type props)) factor raw in
          exists m',
            readArray grp props N N_total offset internal_units ic_units m
            = Returns m'
            /\ m' = copy_loop props copySize temp N 0 m
            /\ (forall i j, (i < N)%nat -> (j < copySize)%nat ->
                            m' (field props + i * partSize props + j)%nat
                            = nth (i * copySize + j) temp x00)
            /\ (forall i j, (i < N)%nat -> (j < copySize)%nat ->
                            nth (i * copySize + j) raw x00
                            = nth j (nth (offset + i) d []) x00)
            /\ (forall a, untouched props copySize 0%nat N a -> m' a = m a)).
Proof.
  intros grp props N N_total offset iu icu m copySize.
  split; [|split].
  - intros Hex Himp. unfold readArray. rewrite Hex, Himp. cbn [Z.ltb Z.eqb Z.compare].
    eexists. split; [reflexivity|]. fold copySize. split.
    + intros i j Hi Hj. apply zero_fill_zeroes; [lia | exact Hj].
    + intros a Ha. apply zero_fill_elsewhere. exact Ha.
  - intros Hex Himp. unfold readArray. rewrite Hex, Himp. cbn [Z.ltb Z.eqb Z.compare].
    eexists. reflexivity.
  - intros d Hex Hd Hopen Htype Hread Hmalloc Hlen Hdim Hsz Hrows raw factor temp.
    assert (Hcols : ((if dimension props >? 1
                      then Z.to_nat (dimension props) else 1%nat)
                     * sizeOfType (type props))%nat = copySize).
    { subst copySize. destruct (dimension props >? 1) eqn:E; [lia|].
      replace (dimension props) with 1 by lia. cbn. lia. }
    assert (Hm : readArray grp props N N_total offset iu icu m
                 = Returns (copy_loop props copySize temp N 0%nat m)).
    { unfold readArray.
      destruct (H5Lexists grp (name props) <? 0) eqn:E1; [lia|].
      destruct (H5Lexists grp (name props) =? 0) eqn:E2; [lia|].
      rewrite Hopen, Htype, Hmalloc. cbn [negb].
      unfold H5Dread. rewrite Hread, Hd, Hcols.
      destruct (offset + N <=? length d)%nat eqn:E3;
        [|apply Nat.leb_gt in E3; lia].
      fold copySize. fold raw. fold factor. cbn [negb andb].
      rewrite andb_true_r. subst temp.
      destruct (Qeq_bool factor 1); reflexivity. }
    exists (copy_loop props copySize temp N 0%nat m).
    destruct (hyperslab_rows d offset N copySize Hrows Hlen)
      as (HlenN & Hw & Hnth).
    split; [exact Hm|]. split; [reflexivity|]. split; [|split].
    + intros i j Hi Hj. apply copy_fills; [exact Hsz | lia | exact Hj].
    + intros i j Hi Hj. subst raw.
      rewrite (nth_concat_uniform copySize) by (try assumption; lia).
      rewrite Hnth by exact Hi. rewrite nth_firstn.
      destruct (j <? copySize)%nat eqn:E; [reflexivity|].
      apply Nat.ltb_ge in E. lia.
    + intros a Ha. apply copy_elsewhere. exact Ha.
Qed.

End ReadArray.

Example sample_read_absent_optional :
  match sample_readArray empty_group OPTIONAL with
  | Returns m' => map m' [7; 8; 19; 20; 39; 40; 51; 52]%nat
  | Fatal _ => []
  end
  = [xff; x00; x00; xff; xff; x00; x00; xff].
Proof. vm_compute. reflexivity. Qed.

Example sample_read_present :
  match sample_readArray sample_group COMPULSORY with
  | Returns m' => map m' [7; 8; 19; 20; 39; 40; 51; 52]%nat
  | Fatal _ => []
  end
  = [xff; x02; x02; xff; xff; x03; x03; xff].
Proof. vm_compute. reflexivity. Qed.

Lemma readArray_absent_or_present_witness :
  (exists m', sample_readArray empty_group OPTIONAL = Returns m'
              /\ m' 8%nat = x00 /\ m' 51%nat = x00)
  /\ (exists msg, sample_readArray empty_group COMPULSORY = Fatal msg)
  /\ (exists m', sample_readArray sample_group COMPULSORY = Returns m'
                 /\ m' 8%nat = x02 /\ m' 51%nat = x03).
Proof.
  split; [|split].
  - destruct (readArray_absent_or_present
                sample_DATA_TYPE sample_sizeOfType sample_isDoublePrecision
                unit unit unit_factor no_scaling malloc_always_ok
                empty_group (sample_vector_field OPTIONAL) 2 4 1 tt tt
                sample_memory) as (Hopt & _ & _).
    destruct Hopt as (m' & Hr & Hz & _); [reflexivity | reflexivity |].
    exists m'. split; [exact Hr|]. split.
    + apply (Hz 0%nat 0%nat); vm_compute; lia.
    + apply (Hz 1%nat 11%nat); vm_compute; lia.
  - destruct (readArray_absent_or_present
                sample_DATA_TYPE sample_sizeOfType sample_isDoublePrecision
                unit unit unit_factor no_scaling malloc_always_ok
                empty_group (sample_vector_field COMPULSORY) 2 4 1 tt tt
                sample_memory) as (_ & Hcomp & _).
    apply Hcomp; reflexivity.
  - destruct (readArray_absent_or_present
                sample_DATA_TYPE sample_sizeOfType sample_isDoublePrecision
                unit unit unit_factor no_scaling malloc_always_ok
                sample_group (sample_vector_field COMPULSORY) 2 4 1 tt tt
                sample_memory) as (_ & _ & Hpresent).
    destruct (Hpresent sample_rows) as (m' & Hr & _ & Hfill & _).
    + reflexivity.
    + reflexivity.
    + reflexivity.
    + reflexivity.
    + reflexivity.
    + reflexivity.
    + vm_compute. lia.
    + vm_compute. discriminate.
    + vm_compute. lia.
    + repeat constructor; vm_compute; lia.
    + exists m'. split; [exact Hr|]. split.
      * etransitivity; [apply (Hfill 0%nat 0%nat); vm_compute; lia|].
        vm_compute. reflexivity.
      * etransitivity; [apply (Hfill 1%nat 11%nat); vm_compute; lia|].
        vm_compute. reflexivity.
Defined.

End ReadArrayFacts.

(* ===================================================================== *)
(** ** Stellar evolution bookkeeping                                      *)
(* ===================================================================== *)

Module StarsFacts.

Import Stars.

Lemma nth_list_set_zero : forall (a : list Q) (i k : nat),
  nth k (list_set a i 0%Q) 0%Q = if (k =? i)%nat then 0%Q else nth k a 0%Q.
Proof.
  induction a as [|q rest IH]; intros i k.
  - cbn [list_set nth]. destruct (k =? i)%nat, k; reflexivity.
  - destruct i as [|i], k as [|k]; cbn [list_set nth Nat.eqb]; try reflexivity.
    apply IH.
Qed.

Lemma arr_set_zero (a : list Q) (i k : Z) :
  0 <= i -> 0 <= k ->
  arr (arr_set a i 0%Q) k = if k =? i then 0%Q else arr a k.
Proof.
  intros Hi Hk. unfold arr, arr_set.
  destruct (i <? 0) eqn:E; [lia|].
  rewrite nth_list_set_zero.
  destruct (Z.eqb_spec k i) as [->|Hne].
  - rewrite Nat.eqb_refl. reflexivity.
  - destruct (Nat.eqb_spec (Z.to_nat k) (Z.to_nat i)) as [E'|E']; [lia|].
    reflexivity.
Qed.

Lemma zero_metal_mass_loop : forall (n : nat) (i : Z) d (k : Z),
  0 <= i -> 0 <= k ->
  arr (metal_mass d) k = 0%Q \/ i <= k < i + Z.of_nat n ->
  let d' := for_range n i zero_metal_mass d in
  arr (metal_mass d') k = 0%Q
  /\ mass d' = mass d.
Proof.
  induction n as [|n IH]; intros i d k Hi Hk Hcase.
  - cbn. split; [|reflexivity]. destruct Hcase as [H|H]; [exact H | lia].
  - cbn [for_range]. cbv zeta.
    destruct (IH (i + 1) (zero_metal_mass i d) k) as [Ha Hb]; try lia.
    + unfold zero_metal_mass at 1. cbn [metal_mass set_metal_mass].
      rewrite arr_set_zero by lia.
      destruct (Z.eqb_spec k i) as [->|Hne]; [left; reflexivity|].
      destruct Hcase as [H|H]; [left; exact H | right; lia].
    + split; [exact Ha | rewrite Hb; reflexivity].
Qed.

Section EvolutionFacts.

Variable chemistry_element_count : Z.
Variable chemistry_element_H : Z.
Variable chemistry_element_He : Z.
Variable chemistry_element_Fe : Z.
Variable n_mass_bins : Z.
Variable log_min_metallicity : Q.
Variable M_LN10 : Q.
Variable exp : Q -> Q.
Variable log10 : Q -> Q.
Variable lifetime_in_Gyr : Q -> Q -> stars_props -> Q.
Variable dying_mass_msun : Q -> Q -> stars_props -> Q.
Variable determine_imf_bins : Q -> Q -> stars_props -> Z * Z.
Variable integrate_imf : Q -> Q -> Q -> Z -> list Q -> stars_props -> Q.
Variable row_major_index_2d : Z -> Z -> Z -> Z -> Z.
Variable row_major_index_3d : Z -> Z -> Z -> Z -> Z -> Z -> Z.
Variable unit_system : Type.
Variable time_cgs_conversion_factor : unit_system -> Q.

Local Abbreviation compute_stellar_evolution :=
  (Stars.compute_stellar_evolution
     chemistry_element_count chemistry_element_H chemistry_element_He
     chemistry_element_Fe n_mass_bins log_min_metallicity M_LN10 exp log10
     lifetime_in_Gyr dying_mass_msun determine_imf_bins integrate_imf
     row_major_index_2d row_major_index_3d unit_system
     time_cgs_conversion_factor).
Local Abbreviation stars_evolve_spart :=
  (Stars.stars_evolve_spart
     chemistry_element_count chemistry_element_H chemistry_element_He
     chemistry_element_Fe n_mass_bins log_min_metallicity M_LN10 exp log10
     lifetime_in_Gyr dying_mass_msun determine_imf_bins integrate_imf
     row_major_index_2d row_major_index_3d unit_system
     time_cgs_conversion_factor).

(** [compute_stellar_evolution] either returns early with the particle
    untouched or ends with the overwrite of [to_distribute.mass]. *)
Lemma compute_stellar_evolution_returns stars sp us age dt sy sp' :
  compute_stellar_evolution stars sp us age dt sy = Returns sp' ->
  sp' = sp \/ mass_is_metals_plus_H_He (to_distribute sp').
Proof.
  unfold compute_stellar_evolution. cbv zeta.
  destruct (Qgt_bool _ _); [discriminate|].
  destruct (Qeq_bool _ _).
  - intros H. injection H as <-. left. reflexivity.
  - unfold bind.
    destruct (evolve_SNII _ _ _ _ _ _ _ _ _ _ _ _ _ _ _) as [r|msg];
      [|discriminate].
    destruct (evolve_AGB _ _ _ _ _ _ _ _ _ _ _ _ _ _ _) as [r'|msg];
      [|discriminate].
    intros H. injection H as <-. right.
    unfold mass_is_metals_plus_H_He. cbn. reflexivity.
Qed.

(** C10: whenever [stars_evolve_spart] returns (no [error()] was raised),
    [to_distribute.mass = to_distribute.total_metal_mass
     + to_distribute.metal_mass[0] + to_distribute.metal_mass[1]]: on the
    full path by the final overwrite in [compute_stellar_evolution], on the
    early return because the three quantities were zeroed on entry (at least
    two chemistry elements being tracked). *)
Theorem stars_evolve_spart_mass_relation :
  forall (sp : spart) (stars_properties : stars_props) (us : unit_system)
         (current_time dt : Q) (stellar_yields : list Q) (sp' : spart),
    2 <= chemistry_element_count ->
    stars_evolve_spart sp stars_properties us current_time dt stellar_yields
    = Returns sp' ->
    (mass (to_distribute sp')
     == total_metal_mass (to_distribute sp')
        + arr (metal_mass (to_distribute sp')) 0
        + arr (metal_mass (to_distribute sp')) 1)%Q.
Proof.
  intros sp stars us t dt sy sp' Hcount.
  unfold stars_evolve_spart. cbv zeta. unfold bind.
  match goal with
  | |- context [compute_stellar_evolution stars ?sp0 us ?age dt sy] =>
      destruct (compute_stellar_evolution stars sp0 us age dt sy) as [sp1|msg] eqn:Hc;
        [|discriminate]
  end.
  intros H. injection H as <-.
  cbn [to_distribute set_to_distribute mass total_metal_mass metal_mass
       set_num_SNe].
  apply compute_stellar_evolution_returns in Hc.
  destruct Hc as [-> | Hrel]; [|exact Hrel].
  cbn [to_distribute set_to_distribute mass total_metal_mass metal_mass
       set_Fe_mass_from_SNIa set_metal_mass_from_SNIa set_mass_from_SNIa
       set_metal_mass_from_SNII set_mass_from_SNII set_metal_mass_from_AGB
       set_mass_from_AGB set_total_metal_mass].
  unfold for_lt. rewrite Z.sub_0_r.
  set (d0 := set_mass (set_num_SNII (set_num_SNIa (to_distribute sp) 0%Q) 0%Q)
                      0%Q).
  change (fun (i : Z) (d : feedback_to_distribute) =>
            set_metal_mass d (arr_set (metal_mass d) i 0%Q))
    with zero_metal_mass.
  destruct (zero_metal_mass_loop (Z.to_nat chemistry_element_count) 0 d0 0)
    as [H0 Hm0]; try lia.
  destruct (zero_metal_mass_loop (Z.to_nat chemistry_element_count) 0 d0 1)
    as [H1 Hm1]; try lia.
  rewrite H0, H1, Hm0. subst d0. cbn. reflexivity.
Qed.

End EvolutionFacts.

(** A step that crosses the SNIa, SNII and AGB mass ranges. *)
Example sample_evolution_full_path :
  match sample_stars_evolve_spart 1 (3 # 2) with
  | Returns sp' =>
      Qeq_bool (mass (to_distribute sp'))
               (total_metal_mass (to_distribute sp')
                + arr (metal_mass (to_distribute sp')) 0
                + arr (metal_mass (to_distribute sp')) 1)
      && negb (Qeq_bool (mass (to_distribute sp')) 0)
  | Fatal _ => false
  end = true.
Proof. vm_compute. reflexivity. Qed.

(** A step of length zero: the integration interval is empty. *)
Example sample_evolution_early_return :
  match sample_stars_evolve_spart 1 0 with
  | Returns sp' =>
      Qeq_bool (mass (to_distribute sp')) 0
      && Qeq_bool (mass_from_AGB (to_distribute sp')) 0
  | Fatal _ => false
  end = true.
Proof. vm_compute. reflexivity. Qed.

Lemma stars_evolve_spart_mass_relation_witness :
  exists sp',
    sample_stars_evolve_spart 1 (3 # 2) = Returns sp'
    /\ (mass (to_distribute sp')
        == total_metal_mass (to_distribute sp')
           + arr (metal_mass (to_distribute sp')) 0
           + arr (metal_mass (to_distribute sp')) 1)%Q.
Proof.
  eexists. split.
  - vm_compute. reflexivity.
  - apply (stars_evolve_spart_mass_relation
             9 0 1 8 4 (-20)%Q (23 # 10)
             (fun x => 1%Q) (fun x => x) (fun m z _ => 1%Q)
             (fun age z _ => (3 - age)%Q) (fun lo hi _ => (0, 3))
             (fun lo hi m2 mode yields _ => (hi - lo)%Q)
             (fun x y nx ny => x * ny + y)
             (fun x y z nx ny nz => (x * ny + y) * nz + z)
             unit (fun _ => inject_Z 31550000000000000)
             sample_spart sample_stars_props tt 1 (3 # 2) (repeat 0%Q 4)).
    + lia.
    + vm_compute. reflexivity.
Defined.

End StarsFacts.

(* ===================================================================== *)
(** ** Particle counts across the header and across the ranks             *)
(* ===================================================================== *)

Module SerialHeaderFacts.

Import MachineInt MachineIntFacts SerialHeader SerialIO.

Lemma high_word_small (N : Z) :
  0 <= N <= LLONG_MAX -> 0 <= Z.shiftr N 32 < 2 ^ 31.
Proof.
  intros HN. rewrite Z.shiftr_div_pow2 by lia. unfold LLONG_MAX in HN. split.
  - apply Z.div_pos; lia.
  - apply Z.div_lt_upper_bound; lia.
Qed.

Lemma wrap_int_high (u : Z) : 2 ^ 31 <= u < 2 ^ 32 -> wrap_int u = u - 2 ^ 32.
Proof.
  intros Hu. unfold wrap_int, wrap_signed.
  change (2 ^ (32 - 1)) with 2147483648. change (2 ^ 32) with 4294967296 in *.
  change (2 ^ 31) with 2147483648 in *.
  replace (u + 2147483648) with ((u - 2147483648) + 1 * 4294967296) by lia.
  rewrite Z.mod_add, Z.mod_small by lia. lia.
Qed.

(** X1: a particle count written to the header as a low and a high
    32-bit word is read back unchanged when its low word is below 2^31;
    when the low word is 2^31 or more the reader, which keeps the words in
    signed [int]s, gets the count minus 2^32. *)
Theorem header_count_read_back :
  forall N_total : Z,
    0 <= N_total <= LLONG_MAX ->
    (N_total mod 2 ^ 32 < 2 ^ 31 -> N_total_read_back N_total = N_total)
    /\ (2 ^ 31 <= N_total mod 2 ^ 32 ->
        N_total_read_back N_total = N_total - 2 ^ 32).
Proof.
  intros N HN.
  pose proof (high_word_small N HN) as Hhi.
  pose proof (Z.mod_pos_bound N (2 ^ 32) ltac:(lia)) as Hlo.
  assert (Hsplit : N = Z.shiftr N 32 * 2 ^ 32 + N mod 2 ^ 32).
  { rewrite Z.shiftr_div_pow2 by lia.
    pose proof (Z.div_mod N (2 ^ 32) ltac:(lia)). lia. }
  unfold N_total_read_back, N_total_read, numParticles_written,
    numParticlesHighWord_written, uint_read_into_int, to_uint, llong_add.
  rewrite (Z.mod_small (Z.shiftr N 32)) by lia.
  rewrite (wrap_int_small (Z.shiftr N 32))
    by (unfold INT_MIN, INT_MAX; lia).
  rewrite Z.shiftl_mul_pow2 by lia.
  assert (Hprod : 0 <= Z.shiftr N 32 * 2 ^ 32 <= LLONG_MAX) by lia.
  rewrite (wrap_llong_small (Z.shiftr N 32 * 2 ^ 32))
    by (unfold LLONG_MIN; lia).
  unfold LLONG_MAX in *. split; intros Hword.
  - rewrite wrap_int_small by (unfold INT_MIN, INT_MAX; lia).
    rewrite wrap_llong_small by (unfold LLONG_MIN, LLONG_MAX; lia). lia.
  - rewrite wrap_int_high by lia.
    rewrite wrap_llong_small by (unfold LLONG_MIN, LLONG_MAX; lia). lia.
Qed.

Example three_billion_particles_read_back :
  N_total_read_back 3000000000 = -1294967296.
Proof. vm_compute. reflexivity. Qed.

Lemma header_count_read_back_witness :
  N_total_read_back 3000000000 = 3000000000 - 2 ^ 32.
Proof.
  destruct (header_count_read_back 3000000000) as [_ Hhigh].
  - vm_compute. split; congruence.
  - apply Hhigh. vm_compute. congruence.
Defined.

Section Balance.

Variable T P : Z.
Hypothesis T_nonneg : 0 <= T.
Hypothesis P_pos : 1 <= P.
Hypothesis P_int : P <= INT_MAX.
Hypothesis no_overflow : P * T <= LLONG_MAX.

Lemma read_ic_N_formula r :
  0 <= r < P -> read_ic_N r P T = (r + 1) * T / P - r * T / P.
Proof.
  intros Hr.
  exact (RankSlices.read_ic_N_cut T P T_nonneg P_pos P_int no_overflow r Hr).
Qed.

(** X2: the slices of [read_ic_serial] are balanced: every rank reads
    either [T / P] or [T / P + 1] elements. *)
Theorem read_ic_slices_balanced :
  forall r, 0 <= r < P ->
            T / P <= read_ic_N r P T <= T / P + 1.
Proof.
  intros r Hr. rewrite read_ic_N_formula by exact Hr.
  pose proof (Z.div_mod T P ltac:(lia)) as HT.
  pose proof (Z.mod_pos_bound T P ltac:(lia)) as Hm.
  set (q := T / P) in *. set (m := T mod P) in *.
  assert (E1 : (r + 1) * T = ((r + 1) * m) + ((r + 1) * q) * P) by nia.
  assert (E0 : r * T = (r * m) + (r * q) * P) by nia.
  rewrite E1, E0, !Z.div_add by lia.
  assert (Hstep : r * m / P <= (r + 1) * m / P <= r * m / P + 1).
  { split.
    - apply Z.div_le_mono; nia.
    - replace ((r + 1) * m) with (r * m + m) by lia.
      assert (r * m + m <= r * m + 1 * P) by lia.
      pose proof (Z.div_le_mono (r * m + m) (r * m + 1 * P) P ltac:(lia) H).
      rewrite Z.div_add in H0 by lia. lia. }
  lia.
Qed.

Lemma sum_cuts (f : Z -> Z) (n : nat) :
  fold_right Z.add 0
    (map (fun r => f (Z.of_nat r + 1) - f (Z.of_nat r)) (seq 0 n))
  = f (Z.of_nat n) - f 0.
Proof.
  induction n as [|n IH]; [cbn; lia|].
  rewrite seq_S, map_app, fold_right_app. cbn [map fold_right Nat.add].
  assert (Hshift : forall (l : list Z) (a : Z),
             fold_right Z.add a l = fold_right Z.add 0 l + a).
  { induction l as [|x l IHl]; intros a; cbn; [lia|]. rewrite IHl. lia. }
  rewrite Hshift, IH. rewrite Nat2Z.inj_succ. unfold Z.succ. lia.
Qed.

(** X3: no element is lost or read twice: the numbers of elements read by
    the ranks add up to the global total. *)
Theorem read_ic_slices_sum :
  sum_over_ranks P (fun r => read_ic_N r P T) = T.
Proof.
  unfold sum_over_ranks.
  rewrite (map_ext_in _ (fun r => (fun x => x * T / P) (Z.of_nat r + 1)
                                  - (fun x => x * T / P) (Z.of_nat r))).
  - rewrite (sum_cuts (fun x => x * T / P)).
    rewrite Z2Nat.id by lia. cbn beta.
    rewrite Z.mul_0_l, Z.div_0_l by lia.
    rewrite Z.mul_comm, Z.div_mul by lia. lia.
  - intros r Hr. apply in_seq in Hr. cbn beta.
    apply read_ic_N_formula. lia.
Qed.

End Balance.

Lemma read_ic_slices_balanced_witness :
  10 / 4 <= read_ic_N 1 4 10 <= 10 / 4 + 1.
Proof.
  apply (read_ic_slices_balanced 10 4); try split; vm_compute; congruence.
Defined.

Lemma read_ic_slices_sum_witness :
  sum_over_ranks 4 (fun r => read_ic_N r 4 10) = 10.
Proof.
  apply (read_ic_slices_sum 10 4); vm_compute; congruence.
Defined.

End SerialHeaderFacts.

(* ===================================================================== *)
(** ** Metallicity bins of the yield tables                               *)
(* ===================================================================== *)

Module StarsBinsFacts.

Import Stars StarsBins.

Lemma Qgt_bool_iff (a b : Q) : Qgt_bool a b = true <-> (b < a)%Q.
Proof.
  unfold Qgt_bool. rewrite negb_true_iff. split.
  - intros H. apply Qnot_le_lt. intros Hle. apply Qle_bool_iff in Hle.
    congruence.
  - intros H. destruct (Qle_bool a b) eqn:E; [|reflexivity].
    apply Qle_bool_iff in E. exfalso. apply (Qlt_not_le _ _ H E).
Qed.

Lemma Qgt_bool_false_iff (a b : Q) : Qgt_bool a b = false <-> (a <= b)%Q.
Proof.
  unfold Qgt_bool. rewrite negb_false_iff. apply Qle_bool_iff.
Qed.

(** The search loop stops within its fuel, at the first index whose upper
    neighbour is not below the metallicity or at the last entry. *)
Lemma find_metallicity_bin_spec (n_z : Z) (tab : list Q) (m : Q) :
  forall (fuel : nat) (j : Z),
    0 <= j ->
    n_z - 1 <= j + Z.of_nat fuel ->
    let r := find_metallicity_bin fuel n_z tab m j in
    j <= r
    /\ r <= Z.max j (n_z - 1)
    /\ (forall k, j <= k < r -> (arr tab (k + 1) < m)%Q)
    /\ (r < n_z - 1 -> (m <= arr tab (r + 1))%Q).
Proof.
  induction fuel as [|fuel IH]; intros j Hj Hfuel.
  - cbn. repeat split; try lia.
  - cbn [find_metallicity_bin].
    destruct (j <? n_z - 1) eqn:Hlt; cbn [andb].
    + destruct (Qgt_bool m (arr tab (j + 1))) eqn:Hgt.
      * destruct (IH (j + 1)) as (H1 & H2 & H3 & H4); try lia.
        repeat split; try lia.
        -- intros k Hk. destruct (Z.eq_dec k j) as [->|Hne].
           ++ apply Qgt_bool_iff, Hgt.
           ++ apply H3. lia.
        -- exact H4.
      * repeat split; try lia.
        intros _. apply Qgt_bool_false_iff, Hgt.
    + repeat split; try lia.
Qed.

Section Bins.

Variable log_min_metallicity : Q.

Local Abbreviation determine_bin_yield :=
  (Stars.determine_bin_yield log_min_metallicity).
Local Abbreviation determine_bin_yield_storing_zero :=
  (StarsBins.determine_bin_yield_storing_zero log_min_metallicity).

(** What the search returns for a metallicity inside the table. *)
Lemma bin_brackets (n_z : Z) (tab : list Q) (m : Q) :
  1 <= n_z ->
  (arr tab 0 <= m)%Q ->
  (m <= arr tab (n_z - 1))%Q ->
  let j := find_metallicity_bin (Z.to_nat (n_z - 1)) n_z tab m 0 in
  0 <= j <= n_z - 1
  /\ (arr tab j <= m)%Q
  /\ (j < n_z - 1 -> (m <= arr tab (j + 1))%Q)
  /\ (j = n_z - 1 -> (m == arr tab j)%Q).
Proof.
  intros Hn Hlo Hhi j.
  destruct (find_metallicity_bin_spec n_z tab m (Z.to_nat (n_z - 1)) 0)
    as (H1 & H2 & H3 & H4); try lia.
  fold j in H1, H2, H3, H4.
  assert (Hlow : (arr tab j <= m)%Q).
  { destruct (Z.eq_dec j 0) as [->|Hne]; [exact Hlo|].
    apply Qlt_le_weak. replace j with ((j - 1) + 1) by lia. apply H3. lia. }
  repeat split; try lia; try assumption.
  intros Hlast. apply Qle_antisym; [|exact Hlow]. rewrite Hlast. exact Hhi.
Qed.


(** X5: for a metallicity above every entry of the table the routine
    returns the last entry as [iz_low], the index one past the table as
    [iz_high] and a zero weight; for one below the first entry the weight
    is zero as well and the two indices are neighbours. *)
Theorem determine_bin_yield_outside_table :
  forall (n_z : Z) (tab : list Q) (log_metallicity : Q),
    1 <= n_z ->
    (log_min_metallicity < log_metallicity)%Q ->
    let r := determine_bin_yield n_z tab log_metallicity in
    ((forall k, 0 <= k < n_z -> (arr tab k < log_metallicity)%Q) ->
     fst (fst r) = n_z - 1 /\ snd (fst r) = n_z /\ (snd r == 0)%Q)
    /\ ((log_metallicity < arr tab 0)%Q ->
        snd (fst r) = fst (fst r) + 1 /\ (snd r == 0)%Q).
Proof.
  intros n_z tab m Hn Hmin.
  unfold Stars.determine_bin_yield.
  apply Qgt_bool_iff in Hmin. rewrite Hmin. cbv zeta. cbn [fst snd].
  set (j := find_metallicity_bin (Z.to_nat (n_z - 1)) n_z tab m 0).
  split.
  - intros Habove.
    destruct (find_metallicity_bin_spec n_z tab m (Z.to_nat (n_z - 1)) 0)
      as (H1 & H2 & _ & H4); try lia.
    fold j in H1, H2, H4.
    assert (Ej : j = n_z - 1).
    { destruct (Z.eq_dec j (n_z - 1)) as [E|E]; [exact E|].
      exfalso. assert (Hlt : j < n_z - 1) by lia.
      specialize (H4 Hlt). specialize (Habove (j + 1) ltac:(lia)).
      apply (Qlt_not_le _ _ Habove H4). }
    assert (Hout : Qle_bool m (arr tab (n_z - 1)) = false).
    { destruct (Qle_bool m (arr tab (n_z - 1))) eqn:E; [|reflexivity].
      apply Qle_bool_iff in E. exfalso.
      apply (Qlt_not_le _ _ (Habove (n_z - 1) ltac:(lia)) E). }
    rewrite Hout, andb_false_r.
    repeat split; try lia.
    destruct (Qgt_bool _ 0); [unfold Qdiv; ring | reflexivity].
  - intros Hbelow.
    assert (Hout : Qge_bool m (arr tab 0) = false).
    { unfold Qge_bool. destruct (Qle_bool (arr tab 0) m) eqn:E; [|reflexivity].
      apply Qle_bool_iff in E. exfalso. apply (Qlt_not_le _ _ Hbelow E). }
    rewrite Hout. cbn [andb].
    split; [reflexivity|].
    destruct (Qgt_bool _ 0); [unfold Qdiv; ring | reflexivity].
Qed.

(** X6: the last branch of the routine, [dz = 0], re-seats the local
    pointer and stores nothing; for a table with at least one entry the
    result is nevertheless the one a store of 0 through the pointer would
    give, as the weight is already 0 whenever that branch is taken. *)
Theorem determine_bin_yield_pointer_slip_unobservable :
  forall (n_z : Z) (tab : list Q) (log_metallicity : Q),
    1 <= n_z ->
    let r := determine_bin_yield n_z tab log_metallicity in
    let r' := determine_bin_yield_storing_zero n_z tab log_metallicity in
    fst r = fst r' /\ (snd r == snd r')%Q.
Proof.
  intros n_z tab m Hn.
  unfold Stars.determine_bin_yield, StarsBins.determine_bin_yield_storing_zero.
  destruct (Qgt_bool m log_min_metallicity); [|split; reflexivity].
  cbv zeta. cbn [fst snd].
  set (j := find_metallicity_bin (Z.to_nat (n_z - 1)) n_z tab m 0).
  split; [reflexivity|].
  destruct (Qgt_bool (arr tab (j + 1) - arr tab j) 0) eqn:Hd; [reflexivity|].
  apply Qgt_bool_false_iff in Hd.
  destruct (Qge_bool m (arr tab 0) && Qle_bool m (arr tab (n_z - 1))) eqn:Hr;
    [|reflexivity].
  apply andb_true_iff in Hr. destruct Hr as [Hlo Hhi].
  unfold Qge_bool in Hlo. apply Qle_bool_iff in Hlo, Hhi.
  destruct (bin_brackets n_z tab m Hn Hlo Hhi) as (Hj & Hlow & Hup & Hlast).
  fold j in Hj, Hlow, Hup, Hlast.
  destruct (Z.eq_dec j (n_z - 1)) as [E|E].
  - specialize (Hlast E). lra.
  - specialize (Hup ltac:(lia)). lra.
Qed.

End Bins.


Lemma determine_bin_yield_outside_table_witness :
  let r := Stars.determine_bin_yield (-20) 3 sample_metallicities 0 in
  fst (fst r) = 3 - 1 /\ snd (fst r) = 3 /\ (snd r == 0)%Q.
Proof.
  apply (determine_bin_yield_outside_table (-20) 3 sample_metallicities 0).
  - lia.
  - reflexivity.
  - intros k Hk.
    assert (E : k = 0 \/ k = 1 \/ k = 2) by lia.
    destruct E as [-> | [-> | ->]]; reflexivity.
Defined.

Lemma determine_bin_yield_pointer_slip_unobservable_witness :
  let r := Stars.determine_bin_yield (-20) 1 [(-3)%Q; (-3)%Q] (-3) in
  let r' := StarsBins.determine_bin_yield_storing_zero
              (-20) 1 [(-3)%Q; (-3)%Q] (-3) in
  fst r = fst r' /\ (snd r == snd r')%Q.
Proof.
  apply (determine_bin_yield_pointer_slip_unobservable (-20) 1 [(-3)%Q; (-3)%Q] (-3)).
  lia.
Defined.

End StarsBinsFacts.

(* ===================================================================== *)
(** ** The extraction pass as a whole                                     *)
(* ===================================================================== *)

Module LineOfSightPass.

Import MachineInt LineOfSight LineOfSightTrace.

Section PassFacts.

Variable kernel_gamma : Q.
Variable time_bin_inhibited : Z.
Variable nearest : Q -> Q -> Q.
Variable SWIFT_DEBUG_CHECKS : bool.
Variable swift_malloc_ok : string -> Z -> bool.
Variable H5Gcreate_ok : Z -> bool.

Local Abbreviation guarded_predicate :=
  (LineOfSight.guarded_predicate kernel_gamma time_bin_inhibited nearest).
Local Abbreviation threadpool_map :=
  (LineOfSight.threadpool_map kernel_gamma time_bin_inhibited nearest).
Local Abbreviation second_loop :=
  (LineOfSight.second_loop kernel_gamma time_bin_inhibited nearest).
Local Abbreviation accepted_indices :=
  (LineOfSight.accepted_indices kernel_gamma time_bin_inhibited nearest).
Local Abbreviation los_count_phase :=
  (LineOfSight.los_count_phase kernel_gamma time_bin_inhibited nearest).
Local Abbreviation los_recorded :=
  (LineOfSight.los_recorded kernel_gamma time_bin_inhibited nearest).
Local Abbreviation los_iteration :=
  (LineOfSight.los_iteration kernel_gamma time_bin_inhibited nearest
                             SWIFT_DEBUG_CHECKS swift_malloc_ok H5Gcreate_ok).
Local Abbreviation los_main_loop :=
  (LineOfSight.los_main_loop kernel_gamma time_bin_inhibited nearest
                             SWIFT_DEBUG_CHECKS swift_malloc_ok H5Gcreate_ok).
Local Abbreviation do_line_of_sight :=
  (LineOfSight.do_line_of_sight kernel_gamma time_bin_inhibited nearest
                                SWIFT_DEBUG_CHECKS swift_malloc_ok
                                H5Gcreate_ok).

(** The loop over the ranks touches nothing but the global count. *)
Lemma count_disp_loop_keeps : forall (LOS_counts : list Z) los disps disp_count,
  let r := fst (count_disp_loop LOS_counts los disps disp_count) in
  particles_in_los_local r = particles_in_los_local los
  /\ (forall p, guarded_predicate r p = guarded_predicate los p).
Proof.
  induction LOS_counts as [|c rest IH]; intros los disps dc.
  - cbn. split; reflexivity.
  - cbn [count_disp_loop]. cbv zeta.
    destruct (IH (set_particles_in_los_total
                    los (int_add (particles_in_los_total los) c))
                 (disps ++ [dc]) (int_add dc c)) as [Hl Hg].
    split.
    + rewrite Hl. reflexivity.
    + intros p. rewrite Hg. reflexivity.
Qed.

(** After the counting phase the local count of a fresh sightline is the
    number of records of the rank that pass the filter, and that is how many
    records the compacting loop copies. *)
Lemma second_loop_count_matches world me los :
  length (rank_xparts me) = length (rank_parts me) ->
  Permutation (concat (rank_chunks me)) (rank_parts me) ->
  particles_in_los_local los = 0 ->
  count (second_loop (los_recorded world me los)
                     (rank_parts me) (rank_xparts me) (LosBuffers [] [] 0))
  = particles_in_los_local (los_recorded world me los).
Proof.
  intros Hlen Hperm Hzero.
  unfold LineOfSight.los_recorded, LineOfSight.los_count_phase.
  set (mine := threadpool_map (rank_chunks me) los).
  set (counts := map _ world).
  destruct (count_disp_loop counts mine [] 0) as [los' disps] eqn:Hloop.
  cbn [fst].
  destruct (count_disp_loop_keeps counts mine [] 0) as [Hl Hg].
  rewrite Hloop in Hl, Hg. cbn [fst] in Hl, Hg.
  destruct (LineOfSightFilter.threadpool_map_local
              kernel_gamma time_bin_inhibited nearest (rank_chunks me) los)
    as [Hn Hgeo].
  fold mine in Hn, Hgeo.
  destruct (LineOfSightFilter.second_loop_indices
              kernel_gamma time_bin_inhibited nearest los'
              (rank_parts me) (rank_xparts me) (LosBuffers [] [] 0) 0%nat Hlen)
    as (_ & _ & Hc & _).
  rewrite Hc, Hl, Hn, Hzero. cbn [count].
  rewrite LineOfSightFilter.indices_filter.
  rewrite (LineOfSightFilter.filter_length_permutation _ _ _ Hperm).
  cbn [Z.add]. do 2 f_equal. apply filter_ext. intros p.
  rewrite Hg, Hgeo. reflexivity.
Qed.

(** What one iteration appends to the trace, seen through the three
    observations. *)
Lemma los_iteration_trace nodeID world me j los st st1 :
  los_iteration nodeID world me j los st = Returns st1 ->
  let rec := los_recorded world me los in
  (nodeID <> 0 ->
   forallb rank_local_event (trace st) = true ->
   forallb rank_local_event (trace st1) = true)
  /\ (nodeID = 0 ->
      written_datasets (trace st1)
      = written_datasets (trace st)
        ++ (if particles_in_los_total rec =? 0 then []
            else [(j, particles_in_los_total rec)]))
  /\ (nodeID = 0 ->
      created_groups (trace st1)
      = created_groups (trace st)
        ++ (if particles_in_los_total rec =? 0 then [] else [j])).
Proof.
  unfold LineOfSight.los_iteration, LineOfSight.los_recorded.
  destruct (los_count_phase world me los) as [[los' counts] disps]. cbn [fst].
  cbv zeta.
  destruct (particles_in_los_total los' =? 0).
  { intros H. injection H as <-. cbn [trace]. repeat split.
    - intros Hn Hall. apply Z.eqb_neq in Hn. rewrite Hn, andb_false_r.
      rewrite !app_nil_r. exact Hall.
    - intros ->. cbn [Z.eqb]. unfold written_datasets.
      rewrite !flat_map_app.
      destruct SWIFT_DEBUG_CHECKS; cbn; rewrite ?app_nil_r; reflexivity.
    - intros ->. cbn [Z.eqb]. unfold created_groups.
      rewrite !flat_map_app.
      destruct SWIFT_DEBUG_CHECKS; cbn; rewrite ?app_nil_r; reflexivity. }
  destruct (negb (swift_malloc_ok _ _)); [discriminate|].
  destruct (negb (swift_malloc_ok _ _)); [discriminate|].
  destruct (SWIFT_DEBUG_CHECKS && negb _); [discriminate|].
  destruct (nodeID =? 0) eqn:Hnode.
  - destruct (negb (H5Gcreate_ok j)); [discriminate|].
    intros H. injection H as <-. cbn [trace]. repeat split.
    + intros Hn. apply Z.eqb_neq in Hn. congruence.
    + intros _. unfold written_datasets. rewrite !flat_map_app.
      destruct SWIFT_DEBUG_CHECKS; cbn; rewrite ?app_nil_r; reflexivity.
    + intros _. unfold created_groups. rewrite !flat_map_app.
      destruct SWIFT_DEBUG_CHECKS; cbn; rewrite ?app_nil_r; reflexivity.
  - intros H. injection H as <-. cbn [trace]. repeat split.
    + intros _ Hall. rewrite andb_false_r, !forallb_app, Hall. reflexivity.
    + intros Hn. apply Z.eqb_neq in Hnode. congruence.
    + intros Hn. apply Z.eqb_neq in Hnode. congruence.
Qed.

Lemma los_main_loop_trace : forall LOS_list nodeID world me j st st',
  los_main_loop nodeID world me j LOS_list st = Returns st' ->
  let recs := map (los_recorded world me) LOS_list in
  (nodeID <> 0 ->
   forallb rank_local_event (trace st) = true ->
   forallb rank_local_event (trace st') = true)
  /\ (nodeID = 0 ->
      written_datasets (trace st')
      = written_datasets (trace st) ++ nonempty_sightlines j recs)
  /\ (nodeID = 0 ->
      created_groups (trace st')
      = created_groups (trace st) ++ map fst (nonempty_sightlines j recs)).
Proof.
  induction LOS_list as [|los rest IH]; intros nodeID world me j st st'.
  - cbn. intros H. injection H as <-. rewrite !app_nil_r. repeat split.
    intros _ H. exact H.
  - cbn [los_main_loop]. unfold bind.
    destruct (los_iteration nodeID world me j los st) as [st1|msg] eqn:Hit;
      [|discriminate].
    destruct (los_iteration_trace _ _ _ _ _ _ _ Hit) as (Ha & Hb & Hc).
    intros Hloop. destruct (IH _ _ _ _ _ _ Hloop) as (Ha' & Hb' & Hc').
    cbn [map nonempty_sightlines]. repeat split.
    + intros Hn Hall. apply Ha'; [exact Hn|]. apply Ha; assumption.
    + intros Hn. rewrite Hb', Hb, <- app_assoc by exact Hn. reflexivity.
    + intros Hn. rewrite Hc', Hc, map_app, <- app_assoc by exact Hn.
      destruct (particles_in_los_total (los_recorded world me los) =? 0);
        reflexivity.
Qed.


(** X8: on rank 0 a completed pass has created one group per sightline
    whose global count is not zero, in the order of the sightlines and under
    the sightline's index, and has written each of them once with that
    global count as its number of particles; empty sightlines get no group. *)
Theorem rank0_writes_one_group_per_nonempty_sightline :
  forall world me H5Fcreate_ok LOS_list st',
    do_line_of_sight 0 world me H5Fcreate_ok LOS_list = Returns st' ->
    written_datasets (trace st') = nonempty_sightlines 0 (LOS_done st')
    /\ created_groups (trace st')
       = map fst (nonempty_sightlines 0 (LOS_done st'))
    /\ LOS_done st' = map (los_recorded world me) LOS_list.
Proof.
  intros world me ok LOS_list st' Hpass.
  unfold LineOfSight.do_line_of_sight in Hpass.
  destruct ((0 =? 0) && negb ok); [discriminate|].
  unfold bind in Hpass.
  destruct (los_main_loop 0 world me 0 LOS_list _) as [st2|msg] eqn:Hloop;
    [|discriminate].
  injection Hpass as <-. cbn [trace LOS_done Z.eqb].
  destruct (los_main_loop_trace _ _ _ _ _ _ _ Hloop) as (_ & Hb & Hc).
  apply LineOfSightGather.los_main_loop_total in Hloop; [|cbn; lia].
  destruct Hloop as [Hd _].
  cbn [LOS_done app] in Hd. rewrite Hd.
  unfold written_datasets, created_groups in *.
  rewrite !flat_map_app, Hb, Hc by reflexivity.
  cbn. rewrite !app_nil_r. repeat split.
Qed.


End PassFacts.


Lemma rank0_writes_one_group_per_nonempty_sightline_witness :
  exists st',
    sample_pass = Returns st'
    /\ written_datasets (trace st') = nonempty_sightlines 0 (LOS_done st')
    /\ created_groups (trace st')
       = map fst (nonempty_sightlines 0 (LOS_done st'))
    /\ LOS_done st'
       = map (los_recorded cubic_spline_gamma inhibited_bin box_wrap
                           sample_world sample_rank0) sample_LOS_list.
Proof.
  eexists. split.
  - vm_compute. reflexivity.
  - apply (rank0_writes_one_group_per_nonempty_sightline
             cubic_spline_gamma inhibited_bin box_wrap true
             always_ok_malloc always_ok_group
             sample_world sample_rank0 true sample_LOS_list).
    vm_compute. reflexivity.
Defined.


End LineOfSightPass.

(* ===================================================================== *)
(** ** Order of the generated sightlines                                  *)
(* ===================================================================== *)

Module LineOfSightOrder.

Import MachineInt MachineIntFacts LineOfSight LineOfSightDraws.

Section OrderFacts.

Variable RAND_MAX : Z.
Variable rand : nat -> Z.

Local Abbreviation generate_one := (LineOfSight.generate_one RAND_MAX rand).
Local Abbreviation generate_line_of_sights :=
  (LineOfSight.generate_line_of_sights RAND_MAX rand).
Local Abbreviation sightline_of_draws :=
  (LineOfSightDraws.sightline_of_draws RAND_MAX rand).
Local Abbreviation xy_sightline := (LineOfSightDraws.xy_sightline RAND_MAX rand).
Local Abbreviation yz_sightline := (LineOfSightDraws.yz_sightline RAND_MAX rand).
Local Abbreviation xz_sightline := (LineOfSightDraws.xz_sightline RAND_MAX rand).

(** One of the three loops in closed form, started after [m] sightlines. *)
Lemma generate_loop_closed (lo1 hi1 lo2 hi2 : Q) (ax ay az : los_direction)
      (periodic : Z) (dim : vec3) (n : nat) :
  forall st m,
    rand_calls st = (2 * m)%nat ->
    wrap_int (gen_count st) = gen_count st ->
    let st' := for_loop n (generate_one lo1 hi1 lo2 hi2 ax ay az periodic dim)
                        st in
    rand_calls st' = (2 * (m + n))%nat
    /\ gen_count st' = wrap_int (gen_count st + Z.of_nat n)
    /\ Los_filled st'
       = Los_filled st
         ++ map (sightline_of_draws lo1 hi1 lo2 hi2 ax ay az periodic dim)
                (seq m n).
Proof.
  induction n as [|n IH]; intros st m Hr Hc.
  - cbn [for_loop seq map]. rewrite app_nil_r, Z.add_0_r, Nat.add_0_r.
    repeat split; [exact Hr | symmetry; exact Hc].
  - cbn [for_loop].
    set (st1 := generate_one lo1 hi1 lo2 hi2 ax ay az periodic dim st).
    assert (Hr1 : rand_calls st1 = (2 * S m)%nat).
    { subst st1. cbn [rand_calls LineOfSight.generate_one]. lia. }
    assert (Hc1 : wrap_int (gen_count st1) = gen_count st1).
    { subst st1. cbn. unfold int_add. apply wrap_int_idem. }
    destruct (IH st1 (S m) Hr1 Hc1) as (Ha & Hb & Hd).
    repeat split.
    + rewrite Ha. lia.
    + rewrite Hb. subst st1. cbn [gen_count LineOfSight.generate_one].
      unfold int_add. rewrite wrap_int_add_l. f_equal. lia.
    + rewrite Hd. subst st1. cbn [Los_filled LineOfSight.generate_one seq map].
      rewrite <- app_assoc. cbn [app]. do 2 f_equal.
      unfold LineOfSightDraws.sightline_of_draws. rewrite Hr. reflexivity.
Qed.

(** The state after the three loops, whatever the counts. *)
Lemma three_loops_closed (params : los_props) (periodic : Z) (dim : vec3) :
  let nxy := Z.to_nat (num_along_xy params) in
  let nyz := Z.to_nat (num_along_yz params) in
  let nxz := Z.to_nat (num_along_xz params) in
  let st :=
    for_loop nxz
      (generate_one (xmin params) (xmax params) (zmin params) (zmax params)
                    simulation_x_axis simulation_z_axis simulation_y_axis
                    periodic dim)
      (for_loop nyz
         (generate_one (ymin params) (ymax params) (zmin params) (zmax params)
                       simulation_y_axis simulation_z_axis simulation_x_axis
                       periodic dim)
         (for_loop nxy
            (generate_one (xmin params) (xmax params) (ymin params)
                          (ymax params) simulation_x_axis simulation_y_axis
                          simulation_z_axis periodic dim)
            (GenState 0 [] 0))) in
  gen_count st = wrap_int (Z.of_nat nxy + Z.of_nat nyz + Z.of_nat nxz)
  /\ Los_filled st
     = map (xy_sightline params periodic dim) (seq 0 nxy)
       ++ map (yz_sightline params periodic dim) (seq nxy nyz)
       ++ map (xz_sightline params periodic dim) (seq (nxy + nyz) nxz).
Proof.
  intros nxy nyz nxz.
  destruct (generate_loop_closed
              (xmin params) (xmax params) (ymin params) (ymax params)
              simulation_x_axis simulation_y_axis simulation_z_axis
              periodic dim nxy (GenState 0 [] 0) 0%nat eq_refl eq_refl)
    as (Hr1 & Hc1 & Hl1).
  set (st1 := for_loop nxy _ _) in *.
  destruct (generate_loop_closed
              (ymin params) (ymax params) (zmin params) (zmax params)
              simulation_y_axis simulation_z_axis simulation_x_axis
              periodic dim nyz st1 (0 + nxy)%nat Hr1
              ltac:(rewrite Hc1; apply wrap_int_idem))
    as (Hr2 & Hc2 & Hl2).
  set (st2 := for_loop nyz _ _) in *.
  destruct (generate_loop_closed
              (xmin params) (xmax params) (zmin params) (zmax params)
              simulation_x_axis simulation_z_axis simulation_y_axis
              periodic dim nxz st2 (0 + nxy + nyz)%nat Hr2
              ltac:(rewrite Hc2; apply wrap_int_idem))
    as (Hr3 & Hc3 & Hl3).
  cbv zeta. split.
  - rewrite Hc3, Hc2, Hc1. cbn [gen_count].
    repeat (rewrite wrap_int_add_l || rewrite <- Z.add_assoc).
    f_equal.
  - rewrite Hl3, Hl2, Hl1. cbn [Los_filled app]. rewrite <- app_assoc.
    reflexivity.
Qed.


(** X11: a negative count in one of the planes is not taken as zero: the
    loop of that plane makes no sightline, the number made then differs
    from [num_tot] as [los_init] computed it (the sum of the three counts,
    taken to fit an [int]), and generation stops with the error. *)
Theorem generate_line_of_sights_negative_count :
  forall (params : los_props) (periodic : Z) (dim : vec3),
    num_tot params
    = int_add (int_add (num_along_xy params) (num_along_yz params))
              (num_along_xz params) ->
    INT_MIN <= num_along_xy params + num_along_yz params + num_along_xz params ->
    Z.max 0 (num_along_xy params) + Z.max 0 (num_along_yz params)
    + Z.max 0 (num_along_xz params) <= INT_MAX ->
    num_along_xy params < 0 \/ num_along_yz params < 0
    \/ num_along_xz params < 0 ->
    generate_line_of_sights params periodic dim
    = Fatal "Could not make the right number of sightlines".
Proof.
  intros params periodic dim Htot Hlow Hhigh Hneg.
  destruct (three_loops_closed params periodic dim) as [Hc _].
  unfold LineOfSight.generate_line_of_sights. cbv zeta. rewrite Hc, Htot.
  unfold int_add. rewrite wrap_int_add_l.
  rewrite !wrap_int_small by (unfold INT_MIN, INT_MAX in *; lia).
  destruct (_ =? _) eqn:E; [|reflexivity].
  apply Z.eqb_eq in E. lia.
Qed.

End OrderFacts.


Lemma generate_line_of_sights_negative_count_witness :
  generate_line_of_sights sample_RAND_MAX sample_rand negative_count_props
                          1 (Vec3 10 10 10)
  = Fatal "Could not make the right number of sightlines".
Proof.
  apply (generate_line_of_sights_negative_count
           sample_RAND_MAX sample_rand negative_count_props 1 (Vec3 10 10 10)).
  - reflexivity.
  - vm_compute. discriminate.
  - vm_compute. discriminate.
  - right. left. reflexivity.
Defined.

End LineOfSightOrder.

(* ===================================================================== *)
(** ** Writing a field rank by rank and reading it back                  *)
(* ===================================================================== *)

Module SerialWriteFacts.

Import MachineInt MachineIntFacts SerialIO SerialWrite.

Lemma rows_of_concat (w : nat) : forall (rows : list (list byte)) (tail : list byte),
  Forall (fun row => length row = w) rows ->
  rows_of w (length rows) (concat rows ++ tail) = rows.
Proof.
  induction rows as [|row rest IH]; intros tail Hall; [reflexivity|].
  inversion Hall as [|r rs Hrow Hrest]; subst.
  cbn [length rows_of concat]. rewrite <- app_assoc.
  rewrite firstn_app, Nat.sub_diag, firstn_all, firstn_O, app_nil_r.
  rewrite skipn_app, Nat.sub_diag, skipn_all, skipn_O. cbn [app].
  rewrite IH by exact Hrest. reflexivity.
Qed.

Lemma length_concat_uniform (w : nat) (rows : list (list byte)) :
  Forall (fun row => length row = w) rows ->
  length (concat rows) = (length rows * w)%nat.
Proof.
  induction 1 as [|row rest Hrow Hrest IH]; [reflexivity|].
  cbn [concat length]. rewrite length_app, IH, Hrow. lia.
Qed.

Lemma write_rows_same_width (w : nat) : forall (new old : list (list byte)),
  Forall (fun row => length row = w) new ->
  Forall (fun row => length row = w) old ->
  length new = length old ->
  map (fun p => write_row (fst p) (snd p)) (combine new old) = new.
Proof.
  induction new as [|n new IH]; intros old Hn Ho Hlen; [reflexivity|].
  destruct old as [|o old]; [discriminate|].
  inversion Hn; inversion Ho; subst. cbn [combine map fst snd].
  rewrite IH by (try assumption; cbn in Hlen; lia).
  unfold write_row. rewrite skipn_all2 by lia. rewrite app_nil_r. reflexivity.
Qed.

Lemma lookup_replace (name : string) (d : dataset) :
  forall (l : list (string * dataset)) d0,
    lookup_dataset name l = Some d0 ->
    lookup_dataset name (replace_dataset name d l) = Some d
    /\ forall other, other <> name ->
         lookup_dataset other (replace_dataset name d l)
         = lookup_dataset other l.
Proof.
  induction l as [|[n d1] rest IH]; intros d0 Hl; [discriminate|].
  cbn [lookup_dataset replace_dataset] in *.
  destruct (String.eqb name n) eqn:E.
  - apply String.eqb_eq in E. subst n. cbn [lookup_dataset].
    rewrite String.eqb_refl. split; [reflexivity|].
    intros other Ho. apply String.eqb_neq in Ho. rewrite Ho. reflexivity.
  - cbn [lookup_dataset]. rewrite E.
    destruct (IH d0 Hl) as [Ha Hb]. split; [exact Ha|].
    intros other Ho. destruct (String.eqb other n); [reflexivity|].
    apply Hb, Ho.
Qed.

Lemma replace_replace (name : string) (d1 d2 : dataset) :
  forall l : list (string * dataset),
    replace_dataset name d2 (replace_dataset name d1 l)
    = replace_dataset name d2 l.
Proof.
  induction l as [|[n d0] rest IH]; [reflexivity|].
  cbn [replace_dataset]. destruct (String.eqb name n) eqn:E;
    cbn [replace_dataset]; rewrite E; [reflexivity|].
  rewrite IH. reflexivity.
Qed.

Lemma lookup_new (name : string) (d : dataset) :
  forall l : list (string * dataset),
    lookup_dataset name l = None ->
    lookup_dataset name (l ++ [(name, d)]) = Some d
    /\ forall other, other <> name ->
         lookup_dataset other (l ++ [(name, d)]) = lookup_dataset other l.
Proof.
  induction l as [|[n d1] rest IH]; intros Hl.
  - cbn. rewrite String.eqb_refl. split; [reflexivity|].
    intros other Ho. apply String.eqb_neq in Ho. rewrite Ho. reflexivity.
  - cbn [lookup_dataset app] in *. destruct (String.eqb name n); [discriminate|].
    destruct (IH Hl) as [Ha Hb]. split; [exact Ha|].
    intros other Ho. destruct (String.eqb other n); [reflexivity|].
    apply Hb, Ho.
Qed.

Lemma dataset_set_to_replace (grp : h5_group) (name : string) (d d0 : dataset) :
  lookup_dataset name (datasets grp) = Some d0 ->
  dataset_set_to grp (set_datasets grp (replace_dataset name d (datasets grp)))
                 name d.
Proof.
  intros Hl. destruct (lookup_replace name d (datasets grp) d0 Hl) as [Ha Hb].
  unfold dataset_set_to. cbn. repeat split; assumption.
Qed.

Lemma dataset_set_to_new (grp : h5_group) (name : string) (d : dataset) :
  lookup_dataset name (datasets grp) = None ->
  dataset_set_to grp (set_datasets grp (datasets grp ++ [(name, d)])) name d.
Proof.
  intros Hl. destruct (lookup_new name d (datasets grp) Hl) as [Ha Hb].
  unfold dataset_set_to. cbn. repeat split; assumption.
Qed.

Lemma dataset_set_to_trans (g g1 g2 : h5_group) (name : string)
      (d1 d2 : dataset) :
  dataset_set_to g g1 name d1 -> dataset_set_to g1 g2 name d2 ->
  dataset_set_to g g2 name d2.
Proof.
  intros (_ & Ho & Ha & Hb & Hc & Hd) (Hl' & Ho' & Ha' & Hb' & Hc' & Hd').
  unfold dataset_set_to. repeat split; try congruence.
  intros other Hne. rewrite Ho', Ho by exact Hne. reflexivity.
Qed.

Lemma skipn_repeat_row (row : list byte) : forall n k,
  skipn n (repeat row k) = repeat row (k - n).
Proof.
  induction n as [|n IH]; intros k.
  - rewrite Nat.sub_0_r. reflexivity.
  - destruct k as [|k]; [reflexivity|]. cbn [repeat skipn Nat.sub]. apply IH.
Qed.

Lemma sum_counts (ranks : list (memory * nat)) :
  LineOfSight.sum_Z (map (fun r => Z.of_nat (snd r)) ranks)
  = Z.of_nat (total_particles ranks).
Proof.
  induction ranks as [|r ranks IH]; [reflexivity|].
  cbn [map LineOfSight.sum_Z fold_right total_particles].
  fold (total_particles ranks).
  fold (LineOfSight.sum_Z (map (fun r => Z.of_nat (snd r)) ranks)).
  rewrite IH. lia.
Qed.

Lemma counts_nonneg (ranks : list (memory * nat)) :
  Forall (fun c => 0 <= c) (map (fun r => Z.of_nat (snd r)) ranks).
Proof. apply Forall_map, Forall_forall. intros r _. lia. Qed.

(** The offsets of [MPI_Exscan] put the ranks one after the other. *)
Lemma exscan_consecutive : forall (ranks : list (memory * nat)) (below : Z),
  0 <= below ->
  below + Z.of_nat (total_particles ranks) <= LLONG_MAX ->
  let offsets := MPI_Exscan_sum below (map (fun r => Z.of_nat (snd r)) ranks) in
  length offsets = length ranks
  /\ consecutive_turns below (combine ranks offsets).
Proof.
  induction ranks as [|[m N] ranks IH]; intros below Hb Hfit.
  - split; [reflexivity | exact I].
  - cbn [total_particles fold_right snd] in Hfit.
    fold (total_particles ranks) in Hfit.
    cbn [map MPI_Exscan_sum snd combine consecutive_turns length].
    assert (E : llong_add below (Z.of_nat N) = below + Z.of_nat N).
    { apply wrap_llong_small. unfold LLONG_MIN, LLONG_MAX in *. lia. }
    rewrite E. destruct (IH (below + Z.of_nat N)) as [Hl Hc]; try lia.
    split; [cbn in Hl |- *; rewrite Hl; reflexivity|].
    split; [reflexivity | exact Hc].
Qed.

Lemma N_total_is_total (ranks : list (memory * nat)) :
  ranks <> [] ->
  Z.of_nat (total_particles ranks) <= LLONG_MAX ->
  write_output_N_total (map (fun r => Z.of_nat (snd r)) ranks)
  = Z.of_nat (total_particles ranks).
Proof.
  intros Hne Hfit. unfold write_output_N_total. cbv zeta.
  rewrite LineOfSightGather.write_output_N_total_list
    by (try apply counts_nonneg; rewrite ?sum_counts; lia).
  destruct ranks as [|r ranks]; [congruence|].
  rewrite LineOfSightGather.nth_map_seq by (cbn; lia).
  set (Ns := map _ (r :: ranks)).
  replace (S (length Ns - 1)) with (length Ns) by (subst Ns; cbn; lia).
  rewrite firstn_all. subst Ns. rewrite sum_counts. lia.
Qed.

Section WriteArrayFacts.

Variable DATA_TYPE : Type.
Variable sizeOfType : DATA_TYPE -> nat.
Variable isDoublePrecision : DATA_TYPE -> bool.
Variable UnitConversionFactor : Type.
Variable UnitSystem : Type.
Variable units_conversion_factor :
  UnitSystem -> UnitSystem -> UnitConversionFactor -> Q.
Variable scale_buffer : bool -> Q -> list byte -> list byte.
Variable malloc_ok : nat -> bool.
Variable indeterminate : nat -> byte.

Local Abbreviation io_props := (SerialIO.io_props DATA_TYPE UnitConversionFactor).
Local Abbreviation field := (SerialIO.field DATA_TYPE UnitConversionFactor).
Local Abbreviation partSize := (SerialIO.partSize DATA_TYPE UnitConversionFactor).
Local Abbreviation name := (SerialIO.name DATA_TYPE UnitConversionFactor).
Local Abbreviation type := (SerialIO.type DATA_TYPE UnitConversionFactor).
Local Abbreviation dimension := (SerialIO.dimension DATA_TYPE UnitConversionFactor).
Local Abbreviation units := (SerialIO.units DATA_TYPE UnitConversionFactor).
Local Abbreviation copy_loop :=
  (SerialIO.copy_loop DATA_TYPE UnitConversionFactor).
Local Abbreviation readArray :=
  (SerialIO.readArray DATA_TYPE sizeOfType isDoublePrecision UnitConversionFactor
             UnitSystem units_conversion_factor scale_buffer malloc_ok).
Local Abbreviation pack_loop :=
  (SerialWrite.pack_loop DATA_TYPE UnitConversionFactor).
Local Abbreviation field_rows :=
  (SerialWrite.field_rows DATA_TYPE sizeOfType UnitConversionFactor).
Local Abbreviation prepareArray_on_file :=
  (SerialWrite.prepareArray_on_file DATA_TYPE sizeOfType UnitConversionFactor).
Local Abbreviation writeArray :=
  (SerialWrite.writeArray DATA_TYPE sizeOfType isDoublePrecision
     UnitConversionFactor UnitSystem units_conversion_factor scale_buffer
     malloc_ok indeterminate).
Local Abbreviation rank_turns :=
  (SerialWrite.rank_turns DATA_TYPE sizeOfType isDoublePrecision
     UnitConversionFactor UnitSystem units_conversion_factor scale_buffer
     malloc_ok indeterminate).
Local Abbreviation write_output_serial_field :=
  (SerialWrite.write_output_serial_field DATA_TYPE sizeOfType isDoublePrecision
     UnitConversionFactor UnitSystem units_conversion_factor scale_buffer
     malloc_ok indeterminate).

Local Abbreviation copySize_of props :=
  (sizeOfType (type props) * Z.to_nat (dimension props))%nat.

Lemma pack_loop_spec (props : io_props) (copySize : nat) (m : memory) :
  forall n i temp,
    pack_loop props copySize n i m temp
    = temp ++ concat (map (fun k => bytes_at m (field props + k * partSize props)
                                             copySize) (seq i n)).
Proof.
  induction n as [|n IH]; intros i temp.
  - cbn. rewrite app_nil_r. reflexivity.
  - cbn [SerialWrite.pack_loop seq map concat]. rewrite IH, <- app_assoc.
    reflexivity.
Qed.

Lemma field_rows_shape (props : io_props) (m : memory) (N : nat) :
  length (field_rows props m N) = N
  /\ Forall (fun row => length row = copySize_of props) (field_rows props m N).
Proof.
  unfold SerialWrite.field_rows. split.
  - rewrite length_map, length_seq. reflexivity.
  - apply Forall_map, Forall_forall. intros i _.
    unfold bytes_at. rewrite length_map, length_seq. reflexivity.
Qed.

Lemma width_is_copySize (props : io_props) :
  1 <= dimension props ->
  ((if dimension props >? 1 then Z.to_nat (dimension props) else 1%nat)
   * sizeOfType (type props))%nat = copySize_of props.
Proof.
  intros Hdim. destruct (dimension props >? 1) eqn:E; [lia|].
  replace (dimension props) with 1 by lia. cbn. lia.
Qed.

(** One call by a rank other than rank 0 on a dataset that is there. *)
Lemma writeArray_rows (f : write_faults) (grp : h5_group) (props : io_props)
      (N : nat) (N_total mpi_rank : Z) (offset : nat)
      (internal_units snapshot_units : UnitSystem) (m : memory) (d : dataset) :
  mpi_rank <> 0 ->
  H5Screate_fails f = false ->
  H5Sset_extent_simple_fails f = false ->
  H5Dwrite_fails f = false ->
  H5Dopen_fails grp = false ->
  malloc_ok (N * Z.to_nat (dimension props) * sizeOfType (type props)) = true ->
  Qeq_bool (units_conversion_factor internal_units snapshot_units (units props))
           1 = true ->
  1 <= dimension props ->
  lookup_dataset (name props) (datasets grp) = Some d ->
  Forall (fun row => length row = copySize_of props) d ->
  (offset + N <= length d)%nat ->
  writeArray f grp props None None N N_total mpi_rank offset
             internal_units snapshot_units m
  = Some (Returns
            (set_datasets grp
               (replace_dataset (name props)
                  (firstn offset d ++ field_rows props m N
                   ++ skipn (offset + N) d)
                  (datasets grp)))).
Proof.
  intros Hrank Hsc Hse Hdw Hopen Hmalloc Hfactor Hdim Hd Hrows Hlen.
  unfold SerialWrite.writeArray.
  apply Z.eqb_neq in Hrank. rewrite Hrank, Hmalloc, Hfactor, Hsc, Hse, Hopen, Hd.
  cbn [negb]. rewrite (width_is_copySize props Hdim).
  rewrite pack_loop_spec. cbn [app].
  fold (field_rows props m N).
  destruct (field_rows_shape props m N) as [HN Hw].
  assert (Hconcat : length (concat (field_rows props m N))
                    = (N * copySize_of props)%nat).
  { rewrite (length_concat_uniform (copySize_of props)) by exact Hw.
    rewrite HN. reflexivity. }
  rewrite Hconcat, Nat.ltb_irrefl.
  unfold H5Dwrite. rewrite Hdw, Hd.
  assert (Htarget : Forall (fun row => length row = copySize_of props)
                           (firstn N (skipn offset d))).
  { apply Forall_forall. intros row Hin.
    apply ReadArrayFacts.In_firstn_skipn in Hin.
    rewrite Forall_forall in Hrows. apply Hrows, Hin. }
  assert (Hle : (offset + N <=? length d)%nat = true) by (apply Nat.leb_le; lia).
  rewrite Hle. cbn [andb].
  assert (Hall : forallb (fun row => (copySize_of props <=? length row)%nat)
                         (firstn N (skipn offset d)) = true).
  { apply forallb_forall. intros row Hin. rewrite Forall_forall in Htarget.
    rewrite (Htarget row Hin). apply Nat.leb_refl. }
  rewrite Hall.
  rewrite <- HN at 1.
  rewrite <- (app_nil_r (concat (field_rows props m N))).
  rewrite (rows_of_concat (copySize_of props)) by exact Hw.
  rewrite (write_rows_same_width (copySize_of props)); try assumption.
  - reflexivity.
  - rewrite HN, length_firstn, length_skipn. lia.
Qed.


Local Abbreviation ranks_rows :=
  (SerialWrite.ranks_rows DATA_TYPE sizeOfType UnitConversionFactor).

(** Rank 0 first creates the dataset, then goes on as every other rank. *)
Lemma writeArray_prepares (f : write_faults) (grp : h5_group) (props : io_props)
      (N : nat) (N_total : Z) (offset : nat)
      (internal_units snapshot_units : UnitSystem) (m : memory) :
  H5Screate_fails f = false ->
  H5Sset_extent_simple_fails f = false ->
  H5Pset_chunk_fails f = false ->
  H5Pset_deflate_fails f = false ->
  H5Dcreate_fails f = false ->
  1 <= dimension props ->
  lookup_dataset (name props) (datasets grp) = None ->
  writeArray f grp props None None N N_total 0 offset
             internal_units snapshot_units m
  = writeArray f
      (set_datasets grp
         (datasets grp
          ++ [(name props,
               repeat (repeat x00 (copySize_of props))
                      (Z.to_nat (H5.to_hsize N_total)))]))
      props None None N N_total 1 offset internal_units snapshot_units m.
Proof.
  intros Hsc Hse Hpc Hpd Hdc Hdim Hl.
  unfold SerialWrite.writeArray, SerialWrite.prepareArray_on_file, H5Dcreate.
  rewrite Hsc, Hse, Hpc, Hpd, Hdc, Hl, (width_is_copySize props Hdim).
  reflexivity.
Qed.

Lemma zero_rows_width (w k : nat) :
  Forall (fun row : list byte => length row = w) (repeat (repeat x00 w) k).
Proof.
  apply Forall_forall. intros row Hin. apply repeat_spec in Hin. subst.
  apply repeat_length.
Qed.

(** The turns of the ranks after rank 0 has created the dataset: [pre] is
    what the ranks before have written, [k] zero rows are still to be
    written. *)
Lemma rank_turns_rows (f : write_faults) (props : io_props) (N_total : Z)
      (internal_units snapshot_units : UnitSystem) :
  H5Screate_fails f = false ->
  H5Sset_extent_simple_fails f = false ->
  H5Dwrite_fails f = false ->
  (forall n, malloc_ok n = true) ->
  Qeq_bool (units_conversion_factor internal_units snapshot_units (units props))
           1 = true ->
  1 <= dimension props ->
  forall (ranks : list (memory * nat)) (offsets : list Z) (rank : Z)
         (grp : h5_group) (pre : list (list byte)) (k : nat),
    0 < rank ->
    H5Dopen_fails grp = false ->
    lookup_dataset (name props) (datasets grp)
    = Some (pre ++ repeat (repeat x00 (copySize_of props)) k) ->
    Forall (fun row => length row = copySize_of props) pre ->
    length offsets = length ranks ->
    consecutive_turns (Z.of_nat (length pre)) (combine ranks offsets) ->
    (total_particles ranks <= k)%nat ->
    exists grp',
      rank_turns f props N_total internal_units snapshot_units rank
                 (combine ranks offsets) grp = Some (Returns grp')
      /\ dataset_set_to grp grp' (name props)
           (pre ++ ranks_rows props ranks
            ++ repeat (repeat x00 (copySize_of props))
                      (k - total_particles ranks)).
Proof.
  intros Hsc Hse Hdw Hmalloc Hfactor Hdim.
  induction ranks as [|[m N] ranks IH];
    intros offsets rank grp pre k Hrank Hopen Hl Hpre Hlen Hcons Htot.
  - exists grp. cbn. split; [reflexivity|].
    rewrite Nat.sub_0_r. unfold dataset_set_to. repeat split. exact Hl.
  - destruct offsets as [|offset offsets]; [discriminate|].
    cbn [combine consecutive_turns] in Hcons. destruct Hcons as [-> Hcons].
    cbn [total_particles fold_right snd] in Htot.
    fold (total_particles ranks) in Htot.
    cbn [combine SerialWrite.rank_turns]. rewrite Nat2Z.id.
    assert (Hrows : Forall (fun row => length row = copySize_of props)
                           (pre ++ repeat (repeat x00 (copySize_of props)) k)).
    { apply Forall_app. split; [exact Hpre | apply zero_rows_width]. }
    assert (Hfits : (length pre + N
                     <= length (pre ++ repeat (repeat x00 (copySize_of props)) k))%nat).
    { rewrite length_app, repeat_length. lia. }
    rewrite (writeArray_rows f grp props N N_total rank (length pre)
               internal_units snapshot_units m
               (pre ++ repeat (repeat x00 (copySize_of props)) k)
               ltac:(lia) Hsc Hse Hdw Hopen (Hmalloc _) Hfactor Hdim Hl
               Hrows Hfits).
    rewrite firstn_app, Nat.sub_diag, firstn_all, firstn_O, app_nil_r.
    rewrite skipn_app, skipn_all2 by lia.
    replace (length pre + N - length pre)%nat with N by lia.
    rewrite skipn_repeat_row. cbn [app].
    set (grp1 := set_datasets grp _).
    assert (H1 : dataset_set_to grp grp1 (name props)
                   ((pre ++ field_rows props m N)
                    ++ repeat (repeat x00 (copySize_of props)) (k - N))).
    { subst grp1. rewrite <- app_assoc.
      eapply dataset_set_to_replace. exact Hl. }
    pose proof H1 as (Hl1 & Ho1 & Ha1 & Hb1 & Hc1 & Hd1).
    destruct (field_rows_shape props m N) as [HN Hw].
    destruct (IH offsets (rank + 1) grp1 (pre ++ field_rows props m N) (k - N)%nat)
      as (grp' & Hrun & Hset); try lia.
    + exact (eq_trans Hb1 Hopen).
    + exact Hl1.
    + apply Forall_app. split; assumption.
    + cbn in Hlen. lia.
    + rewrite length_app, HN, Nat2Z.inj_add. exact Hcons.
    + exists grp'. split; [exact Hrun|].
      eapply dataset_set_to_trans.
      * exact H1.
      * unfold SerialWrite.ranks_rows. cbn [map concat fst snd
          total_particles fold_right].
        fold (total_particles ranks).
        unfold SerialWrite.ranks_rows in Hset.
        rewrite <- !app_assoc in Hset |- *.
        replace (k - (N + total_particles ranks))%nat
          with (k - N - total_particles ranks)%nat by lia.
        exact Hset.
Qed.


Lemma ranks_rows_shape (props : io_props) (ranks : list (memory * nat)) :
  length (ranks_rows props ranks) = total_particles ranks
  /\ Forall (fun row => length row = copySize_of props)
            (ranks_rows props ranks).
Proof.
  unfold SerialWrite.ranks_rows.
  induction ranks as [|[m N] ranks [IHl IHw]]; [split; [reflexivity|constructor]|].
  destruct (field_rows_shape props m N) as [HN Hw].
  cbn [map concat fst snd total_particles fold_right].
  fold (total_particles ranks). split.
  - rewrite length_app, HN, IHl. reflexivity.
  - apply Forall_app. split; assumption.
Qed.

(** The whole loop over the ranks, rank 0 included. *)
Lemma write_output_serial_field_rows (props : io_props)
      (internal_units snapshot_units : UnitSystem)
      (ranks : list (memory * nat)) (grp : h5_group) :
  H5Dopen_fails grp = false ->
  (forall n, malloc_ok n = true) ->
  Qeq_bool (units_conversion_factor internal_units snapshot_units (units props))
           1 = true ->
  1 <= dimension props ->
  lookup_dataset (name props) (datasets grp) = None ->
  (0 < total_particles ranks)%nat ->
  Z.of_nat (total_particles ranks) <= LLONG_MAX ->
  exists grp',
    write_output_serial_field no_write_faults props internal_units
                              snapshot_units ranks grp
    = Some (Returns grp')
    /\ dataset_set_to grp grp' (name props) (ranks_rows props ranks).
Proof.
  intros Hopen Hmalloc Hfactor Hdim Hl Hpos Hfit.
  assert (Hne : ranks <> []) by (intros ->; cbn in Hpos; lia).
  unfold SerialWrite.write_output_serial_field. cbv zeta.
  rewrite (N_total_is_total ranks Hne Hfit).
  destruct (Z.of_nat (total_particles ranks) =? 0) eqn:E;
    [apply Z.eqb_eq in E; lia | clear E].
  destruct (exscan_consecutive ranks 0 ltac:(lia) ltac:(lia)) as [Hlen Hcons].
  set (T := total_particles ranks) in *.
  set (offsets := MPI_Exscan_sum 0 _) in *.
  destruct ranks as [|[m N] ranks]; [congruence|].
  destruct offsets as [|offset offsets]; [discriminate|].
  cbn [combine consecutive_turns] in Hcons. destruct Hcons as [-> Hcons].
  cbn [combine SerialWrite.rank_turns].
  rewrite writeArray_prepares by (try reflexivity; assumption).
  rewrite DatasetLayout.to_hsize_small
    by (unfold LLONG_MAX in Hfit; lia).
  rewrite Nat2Z.id. cbn [Z.to_nat].
  set (zeros := repeat (repeat x00 (copySize_of props)) T).
  set (grp0 := set_datasets grp _).
  pose proof (dataset_set_to_new grp (name props) zeros Hl) as H0.
  fold grp0 in H0. pose proof H0 as (Hl0 & _ & _ & Hb0 & _ & _).
  assert (HT : T = (N + total_particles ranks)%nat) by reflexivity.
  assert (Hlen0 : (0 + N <= length zeros)%nat).
  { subst zeros. rewrite repeat_length. lia. }
  rewrite (writeArray_rows no_write_faults grp0 props N (Z.of_nat T) 1 0
             internal_units snapshot_units m zeros
             ltac:(lia) eq_refl eq_refl eq_refl (eq_trans Hb0 Hopen)
             (Hmalloc _) Hfactor Hdim Hl0 (zero_rows_width _ _) Hlen0).
  cbn [firstn app Nat.add]. subst zeros. rewrite skipn_repeat_row.
  set (grp1 := set_datasets grp0 _).
  assert (H1 : dataset_set_to grp0 grp1 (name props)
                 (field_rows props m N
                  ++ repeat (repeat x00 (copySize_of props)) (T - N))).
  { subst grp1. eapply dataset_set_to_replace. exact Hl0. }
  pose proof H1 as (Hl1 & _ & _ & Hb1 & _ & _).
  destruct (field_rows_shape props m N) as [HN Hw].
  destruct (rank_turns_rows no_write_faults props (Z.of_nat T)
              internal_units snapshot_units eq_refl eq_refl eq_refl
              Hmalloc Hfactor Hdim ranks offsets (0 + 1) grp1
              (field_rows props m N) (T - N)%nat)
    as (grp' & Hrun & Hset); try lia.
  - exact (eq_trans Hb1 (eq_trans Hb0 Hopen)).
  - exact Hl1.
  - exact Hw.
  - cbn in Hlen. lia.
  - rewrite HN. exact Hcons.
  - exists grp'. split; [exact Hrun|].
    eapply dataset_set_to_trans; [exact H0|].
    eapply dataset_set_to_trans; [exact H1|].
    replace (T - N - total_particles ranks)%nat with 0%nat in Hset by lia.
    cbn [repeat] in Hset. rewrite app_nil_r in Hset. exact Hset.
Qed.

(** [readArray] on a group without faults, unit factor 1. *)
Lemma readArray_reads (grp : h5_group) (props : io_props) (N : nat)
      (N_total : Z) (offset : nat) (internal_units ic_units : UnitSystem)
      (m : memory) (d : dataset) :
  H5Lexists_fails grp = false ->
  H5Dopen_fails grp = false ->
  H5Dget_type_fails grp = false ->
  H5Dread_fails grp = false ->
  malloc_ok (N * Z.to_nat (dimension props) * sizeOfType (type props)) = true ->
  Qeq_bool (units_conversion_factor ic_units internal_units (units props)) 1
  = true ->
  1 <= dimension props ->
  lookup_dataset (name props) (datasets grp) = Some d ->
  (offset + N <= length d)%nat ->
  readArray grp props N N_total offset internal_units ic_units m
  = Returns (copy_loop props (copySize_of props)
                       (concat (hyperslab d offset N (copySize_of props)))
                       N 0 m).
Proof.
  intros Hex Hopen Htype Hread Hmalloc Hfactor Hdim Hd Hlen.
  unfold SerialIO.readArray, H5Lexists, H5Dread.
  rewrite Hex, Hd, Hopen, Htype, Hmalloc, Hread, Hfactor.
  rewrite (width_is_copySize props Hdim).
  cbn [Z.ltb Z.eqb Z.compare negb andb].
  destruct (offset + N <=? length d)%nat eqn:E;
    [reflexivity | apply Nat.leb_gt in E; lia].
Qed.


(** X12: a call of [writeArray] by a rank other than rank 0, without
    conversion function and with unit factor 1, on a dataset that holds the
    rows [[offset, offset + N)], replaces exactly these rows by the field
    bytes of the rank's [N] particles, in particle order; the other rows of
    the dataset, the other datasets of the group and the number of rows are
    left as they were. *)
Theorem writeArray_writes_its_slice :
  forall (f : write_faults) (grp : h5_group) (props : io_props)
         (N : nat) (N_total mpi_rank : Z) (offset : nat)
         (internal_units snapshot_units : UnitSystem) (m : memory)
         (d : dataset),
    mpi_rank <> 0 ->
    H5Screate_fails f = false ->
    H5Sset_extent_simple_fails f = false ->
    H5Dwrite_fails f = false ->
    H5Dopen_fails grp = false ->
    malloc_ok (N * Z.to_nat (dimension props) * sizeOfType (type props))
    = true ->
    Qeq_bool (units_conversion_factor internal_units snapshot_units
                                      (units props)) 1 = true ->
    1 <= dimension props ->
    lookup_dataset (name props) (datasets grp) = Some d ->
    Forall (fun row => length row = copySize_of props) d ->
    (offset + N <= length d)%nat ->
    exists grp' d',
      writeArray f grp props None None N N_total mpi_rank offset
                 internal_units snapshot_units m = Some (Returns grp')
      /\ dataset_set_to grp grp' (name props) d'
      /\ length d' = length d
      /\ (forall i, (i < N)%nat ->
                    nth (offset + i) d' []
                    = bytes_at m (field props + i * partSize props)
                               (copySize_of props))
      /\ (forall r, (r < offset \/ offset + N <= r)%nat ->
                    nth r d' [] = nth r d []).
Proof.
  intros f grp props N N_total mpi_rank offset iu su m d
         Hrank Hsc Hse Hdw Hopen Hmalloc Hfactor Hdim Hd Hrows Hlen.
  destruct (field_rows_shape props m N) as [HN Hw].
  eexists. exists (firstn offset d ++ field_rows props m N
                   ++ skipn (offset + N) d).
  split.
  { exact (writeArray_rows f grp props N N_total mpi_rank offset iu su m d
             Hrank Hsc Hse Hdw Hopen Hmalloc Hfactor Hdim Hd Hrows Hlen). }
  split; [eapply dataset_set_to_replace; exact Hd|].
  assert (Hfirst : length (firstn offset d) = offset)
    by (rewrite length_firstn; lia).
  split; [|split].
  - rewrite !length_app, Hfirst, HN, length_skipn. lia.
  - intros i Hi. rewrite app_nth2 by lia. rewrite Hfirst.
    replace (offset + i - offset)%nat with i by lia.
    rewrite app_nth1 by lia.
    unfold SerialWrite.field_rows.
    rewrite (nth_indep _ [] (bytes_at m (field props + 0 * partSize props)
                                      (copySize_of props)))
      by (rewrite length_map, length_seq; exact Hi).
    rewrite (map_nth (fun i => bytes_at m (field props + i * partSize props)
                                        (copySize_of props))).
    rewrite seq_nth by exact Hi. reflexivity.
  - intros r [Hr | Hr].
    + rewrite app_nth1 by lia. rewrite nth_firstn.
      destruct (r <? offset)%nat eqn:E; [reflexivity|].
      apply Nat.ltb_ge in E. lia.
    + rewrite app_nth2 by lia. rewrite app_nth2 by lia.
      rewrite Hfirst, HN, nth_skipn. f_equal. lia.
Qed.

(** X13: for one field written without conversion, the loop over the ranks
    of [write_output_serial] creates nothing when no rank holds a particle
    of the kind; otherwise it leaves in the file one dataset under the
    field's name whose rows are the field bytes of the particles of rank 0,
    then those of rank 1, and so on, one row per particle, every other
    dataset being left as it was. *)
Theorem ranks_write_rows_in_rank_order :
  forall (props : io_props) (internal_units snapshot_units : UnitSystem)
         (ranks : list (memory * nat)) (grp : h5_group),
    H5Dopen_fails grp = false ->
    (forall n, malloc_ok n = true) ->
    Qeq_bool (units_conversion_factor internal_units snapshot_units
                                      (units props)) 1 = true ->
    1 <= dimension props ->
    lookup_dataset (name props) (datasets grp) = None ->
    Z.of_nat (total_particles ranks) <= LLONG_MAX ->
    (total_particles ranks = 0%nat ->
     write_output_serial_field no_write_faults props internal_units
                               snapshot_units ranks grp
     = Some (Returns grp))
    /\ ((0 < total_particles ranks)%nat ->
        exists grp',
          write_output_serial_field no_write_faults props internal_units
                                    snapshot_units ranks grp
          = Some (Returns grp')
          /\ dataset_set_to grp grp' (name props) (ranks_rows props ranks)
          /\ length (ranks_rows props ranks) = total_particles ranks).
Proof.
  intros props iu su ranks grp Hopen Hmalloc Hfactor Hdim Hl Hfit. split.
  - intros Hzero. unfold SerialWrite.write_output_serial_field. cbv zeta.
    destruct ranks as [|r ranks]; [reflexivity|].
    rewrite N_total_is_total by (try discriminate; exact Hfit).
    rewrite Hzero. reflexivity.
  - intros Hpos.
    destruct (write_output_serial_field_rows props iu su ranks grp
                Hopen Hmalloc Hfactor Hdim Hl Hpos Hfit) as (grp' & Hrun & Hset).
    exists grp'. repeat split; try assumption; try apply Hset.
    apply ranks_rows_shape.
Qed.

(** X14: write, then read.  After the ranks have written a field with
    [write_output_serial]'s loop, a call of [readArray] for the slice a rank
    wrote (offset: the number of particles of the ranks before it, count:
    its own) puts into the reader's particle array, record by record, the
    field bytes that rank held; all other bytes of the reader's memory are
    left as they were.  Unit factors are 1 in both directions and records
    do not overlap. *)
Theorem write_then_read_round_trip :
  forall (props : io_props) (internal_units snapshot_units ic_units : UnitSystem)
         (before after : list (memory * nat)) (m : memory) (N : nat)
         (grp : h5_group) (N_total : Z) (m0 : memory),
    let ranks := before ++ (m, N) :: after in
    H5Lexists_fails grp = false ->
    H5Dopen_fails grp = false ->
    H5Dget_type_fails grp = false ->
    H5Dread_fails grp = false ->
    (forall n, malloc_ok n = true) ->
    Qeq_bool (units_conversion_factor internal_units snapshot_units
                                      (units props)) 1 = true ->
    Qeq_bool (units_conversion_factor ic_units internal_units
                                      (units props)) 1 = true ->
    1 <= dimension props ->
    (copySize_of props <= partSize props)%nat ->
    lookup_dataset (name props) (datasets grp) = None ->
    (0 < total_particles ranks)%nat ->
    Z.of_nat (total_particles ranks) <= LLONG_MAX ->
    exists grp' m',
      write_output_serial_field no_write_faults props internal_units
                                snapshot_units ranks grp
      = Some (Returns grp')
      /\ readArray grp' props N N_total (total_particles before)
                   internal_units ic_units m0 = Returns m'
      /\ (forall i j, (i < N)%nat -> (j < copySize_of props)%nat ->
                      m' (field props + i * partSize props + j)%nat
                      = m (field props + i * partSize props + j)%nat)
      /\ (forall a,
            (forall k, (k < N)%nat ->
                       in_range (field props + k * partSize props)
                                (copySize_of props) a = false) ->
            m' a = m0 a).
Proof.
  intros props iu su icu before after m N grp N_total m0 ranks
         Hex Hopen Htype Hread Hmalloc Hwf Hrf Hdim Hsz Hl Hpos Hfit.
  destruct (write_output_serial_field_rows props iu su ranks grp
              Hopen Hmalloc Hwf Hdim Hl Hpos Hfit) as (grp' & Hrun & Hset).
  destruct Hset as (Hl' & _ & Ha & Hb & Hc & Hd).
  destruct (ranks_rows_shape props before) as [Hlb Hwb].
  destruct (ranks_rows_shape props after) as [Hla Hwa].
  destruct (field_rows_shape props m N) as [HN Hw].
  assert (Hrows : ranks_rows props ranks
                  = ranks_rows props before
                    ++ field_rows props m N ++ ranks_rows props after).
  { subst ranks. unfold SerialWrite.ranks_rows.
    rewrite map_app, concat_app. reflexivity. }
  assert (Hslab : hyperslab (ranks_rows props ranks) (total_particles before)
                            N (copySize_of props)
                  = field_rows props m N).
  { unfold hyperslab. rewrite Hrows, <- Hlb.
    rewrite skipn_app, Nat.sub_diag, skipn_all, skipn_O. cbn [app].
    rewrite <- HN at 1.
    rewrite firstn_app, Nat.sub_diag, firstn_all, firstn_O, app_nil_r.
    clear - Hw. induction Hw as [|row rest Hrow Hrest IH]; [reflexivity|].
    cbn [map]. rewrite IH. f_equal. rewrite <- Hrow. apply firstn_all. }
  exists grp'. eexists. split; [exact Hrun|]. split.
  - apply (readArray_reads grp' props N N_total (total_particles before)
             iu icu m0 (ranks_rows props ranks)
             (eq_trans Ha Hex) (eq_trans Hb Hopen) (eq_trans Hc Htype)
             (eq_trans Hd Hread) (Hmalloc _) Hrf Hdim Hl').
    rewrite Hrows, !length_app, Hlb, HN. lia.
  - rewrite Hslab. split.
    + intros i j Hi Hj.
      rewrite ReadArrayFacts.copy_fills by (try assumption; lia).
      rewrite (ReadArrayFacts.nth_concat_uniform (copySize_of props))
        by (try assumption; lia).
      unfold SerialWrite.field_rows.
      rewrite (nth_indep _ [] (bytes_at m (field props + 0 * partSize props)
                                        (copySize_of props)))
        by (rewrite length_map, length_seq; exact Hi).
      rewrite (map_nth (fun i => bytes_at m (field props + i * partSize props)
                                          (copySize_of props))).
      rewrite seq_nth by exact Hi. cbn [Nat.add].
      unfold bytes_at.
      rewrite (nth_indep _ x00 (m 0%nat))
        by (rewrite length_map, length_seq; exact Hj).
      rewrite map_nth, seq_nth by exact Hj. reflexivity.
    + intros a Ha'. apply ReadArrayFacts.copy_elsewhere.
      intros k Hk. apply Ha'. lia.
Qed.

End WriteArrayFacts.

Example sample_write_output_rows :
  match sample_write_output with
  | Some (Returns grp) => lookup_dataset "Velocities" (datasets grp)
  | _ => None
  end
  = Some [repeat xaa 12; repeat xbb 12; repeat xbb 12].
Proof. vm_compute. reflexivity. Qed.

Lemma writeArray_writes_its_slice_witness :
  exists grp' d',
    writeArray sample_DATA_TYPE sample_sizeOfType sample_isDoublePrecision
               unit unit unit_factor no_scaling malloc_always_ok
               (fun _ => xcc) no_write_faults sample_group
               (sample_vector_field COMPULSORY) None None 2 4 1 1 tt tt
               (fun _ => xaa) = Some (Returns grp')
    /\ dataset_set_to sample_group grp' "Velocities" d'
    /\ length d' = length sample_rows
    /\ (forall i, (i < 2)%nat ->
                  nth (1 + i) d' []
                  = bytes_at (fun _ => xaa) (8 + i * 32) (4 * Z.to_nat 3))
    /\ (forall r, (r < 1 \/ 1 + 2 <= r)%nat ->
                  nth r d' [] = nth r sample_rows []).
Proof.
  apply (writeArray_writes_its_slice
           sample_DATA_TYPE sample_sizeOfType sample_isDoublePrecision
           unit unit unit_factor no_scaling malloc_always_ok (fun _ => xcc)
           no_write_faults sample_group (sample_vector_field COMPULSORY)
           2 4 1 1 tt tt (fun _ => xaa) sample_rows).
  - discriminate.
  - reflexivity.
  - reflexivity.
  - reflexivity.
  - reflexivity.
  - reflexivity.
  - reflexivity.
  - vm_compute. discriminate.
  - reflexivity.
  - repeat constructor.
  - vm_compute. lia.
Defined.

Lemma ranks_write_rows_in_rank_order_witness :
  exists grp',
    sample_write_output = Some (Returns grp')
    /\ dataset_set_to empty_group grp' "Velocities"
         (ranks_rows sample_DATA_TYPE sample_sizeOfType unit
                     (sample_vector_field COMPULSORY) sample_rank_memories)
    /\ length (ranks_rows sample_DATA_TYPE sample_sizeOfType unit
                          (sample_vector_field COMPULSORY)
                          sample_rank_memories)
       = total_particles sample_rank_memories.
Proof.
  destruct (ranks_write_rows_in_rank_order
              sample_DATA_TYPE sample_sizeOfType sample_isDoublePrecision
              unit unit unit_factor no_scaling malloc_always_ok (fun _ => xcc)
              (sample_vector_field COMPULSORY) tt tt sample_rank_memories
              empty_group) as [_ Hrows].
  - reflexivity.
  - reflexivity.
  - reflexivity.
  - vm_compute. discriminate.
  - reflexivity.
  - vm_compute. discriminate.
  - apply Hrows. vm_compute. lia.
Defined.

Lemma write_then_read_round_trip_witness :
  exists grp' m',
    sample_write_output = Some (Returns grp')
    /\ readArray sample_DATA_TYPE sample_sizeOfType sample_isDoublePrecision
                 unit unit unit_factor no_scaling malloc_always_ok
                 grp' (sample_vector_field COMPULSORY) 2 3 1 tt tt
                 sample_memory = Returns m'
    /\ m' 8%nat = xbb /\ m' 51%nat = xbb /\ m' 7%nat = xff.
Proof.
  destruct (write_then_read_round_trip
              sample_DATA_TYPE sample_sizeOfType sample_isDoublePrecision
              unit unit unit_factor no_scaling malloc_always_ok (fun _ => xcc)
              (sample_vector_field COMPULSORY) tt tt tt
              [(fun _ => xaa, 1%nat)] [] (fun _ => xbb) 2 empty_group 3
              sample_memory)
    as (grp' & m' & Hw & Hr & Hfield & Hrest).
  - reflexivity.
  - reflexivity.
  - reflexivity.
  - reflexivity.
  - reflexivity.
  - reflexivity.
  - reflexivity.
  - vm_compute. discriminate.
  - vm_compute. lia.
  - reflexivity.
  - vm_compute. lia.
  - vm_compute. discriminate.
  - exists grp', m'. split; [exact Hw|]. split; [exact Hr|].
    split; [|split].
    + apply (Hfield 0%nat 0%nat); vm_compute; lia.
    + apply (Hfield 1%nat 11%nat); vm_compute; lia.
    + apply (Hrest 7%nat). intros k Hk.
      assert (E : k = 0%nat \/ k = 1%nat) by lia.
      destruct E as [-> | ->]; reflexivity.
Defined.

End SerialWriteFacts.

(* ===================================================================== *)
(** ** Reading the parameter file                                         *)
(* ===================================================================== *)

Module ParserFileFacts.

Import MachineInt MachineIntFacts Parser ParserFile.

Local Open Scope string_scope.

Lemma append_assoc (a b c : string) : (a ++ b) ++ c = a ++ (b ++ c).
Proof. induction a as [|x a IH]; cbn; [reflexivity | rewrite IH; reflexivity]. Qed.

Lemma append_nil_r (a : string) : a ++ "" = a.
Proof. induction a as [|x a IH]; cbn; [reflexivity | rewrite IH; reflexivity]. Qed.

Lemma length_append (a b : string) :
  String.length (a ++ b) = (String.length a + String.length b)%nat.
Proof. induction a as [|x a IH]; cbn; [reflexivity | rewrite IH; reflexivity]. Qed.

Lemma fgets_chars_line : forall (text : string) (room : nat) (rest : string),
  no_char newline text = true ->
  (String.length text < room)%nat ->
  fgets_chars room (text ++ String newline rest)
  = (text ++ String newline "", rest, false).
Proof.
  induction text as [|c text IH]; intros room rest Hn Hroom.
  - destruct room as [|room]; [cbn in Hroom; lia|]. reflexivity.
  - destruct room as [|room]; [cbn in Hroom; lia|].
    cbn [no_char] in Hn. apply andb_true_iff in Hn. destruct Hn as [Hc Hn].
    apply negb_true_iff in Hc.
    cbn [append fgets_chars]. rewrite Hc.
    rewrite IH by (try assumption; cbn in Hroom; lia). reflexivity.
Qed.

Lemma fgets_chars_last : forall (text : string) (room : nat),
  no_char newline text = true ->
  (String.length text < room)%nat ->
  fgets_chars room text = (text, "", true).
Proof.
  induction text as [|c text IH]; intros room Hn Hroom.
  - destruct room as [|room]; [cbn in Hroom; lia|]. reflexivity.
  - destruct room as [|room]; [cbn in Hroom; lia|].
    cbn [no_char] in Hn. apply andb_true_iff in Hn. destruct Hn as [Hc Hn].
    apply negb_true_iff in Hc.
    cbn [fgets_chars]. rewrite Hc.
    rewrite IH by (try assumption; cbn in Hroom; lia). reflexivity.
Qed.

Lemma fgets_line (text rest : string) :
  no_char newline text = true ->
  (String.length text + 1 < MAX_LINE_SIZE)%nat ->
  fgets MAX_LINE_SIZE (FileState (text ++ String newline rest) false)
  = (Some (text ++ String newline ""), FileState rest false).
Proof.
  intros Hn Hlen. unfold fgets. cbn [unread eof_flag].
  rewrite fgets_chars_line by (try assumption; lia).
  destruct text; reflexivity.
Qed.

Lemma c_str_plain : forall s : string, no_char NUL s = true -> c_str s = s.
Proof.
  induction s as [|c s IH]; intros Hn; [reflexivity|].
  cbn [no_char] in Hn. apply andb_true_iff in Hn. destruct Hn as [Hc Hn].
  apply negb_true_iff in Hc. cbn [c_str]. rewrite Hc, IH by exact Hn.
  reflexivity.
Qed.

Lemma no_char_append (c : ascii) (a b : string) :
  no_char c (a ++ b) = no_char c a && no_char c b.
Proof.
  induction a as [|x a IH]; cbn; [reflexivity|].
  rewrite IH, andb_assoc. reflexivity.
Qed.

Lemma has_colon_none : forall s : string,
  no_char colon s = true -> has_colon s = false.
Proof.
  induction s as [|c s IH]; intros Hn; [reflexivity|].
  cbn [no_char] in Hn. apply andb_true_iff in Hn. destruct Hn as [Hc Hn].
  apply negb_true_iff in Hc. cbn [has_colon]. rewrite Hc, IH by exact Hn.
  reflexivity.
Qed.

Lemma has_colon_append (a b : string) : has_colon (a ++ String colon b) = true.
Proof.
  induction a as [|x a IH]; cbn; [reflexivity|].
  rewrite IH. apply orb_true_r.
Qed.

Lemma token_split_colon : forall a b : string,
  no_char colon a = true ->
  token_split (a ++ String colon b) = (a, b).
Proof.
  induction a as [|c a IH]; intros b Hn; [reflexivity|].
  cbn [no_char] in Hn. apply andb_true_iff in Hn. destruct Hn as [Hc Hn].
  apply negb_true_iff in Hc. cbn [append token_split].
  rewrite Hc, IH by exact Hn. reflexivity.
Qed.

Lemma token_split_end : forall a : string,
  no_char colon a = true -> token_split a = (a, "").
Proof.
  induction a as [|c a IH]; intros Hn; [reflexivity|].
  cbn [no_char] in Hn. apply andb_true_iff in Hn. destruct Hn as [Hc Hn].
  apply negb_true_iff in Hc. cbn [token_split].
  rewrite Hc, IH by exact Hn. reflexivity.
Qed.

(** The first token of [name:rest] is the name. *)
Lemma strtok_name (name rest : string) :
  no_char colon name = true -> name <> "" ->
  strtok (name ++ String colon rest) = Some (name, rest).
Proof.
  intros Hn Hne. unfold strtok.
  destruct name as [|c name]; [congruence|].
  pose proof Hn as Hn'. cbn [no_char] in Hn'.
  apply andb_true_iff in Hn'. destruct Hn' as [Hc _].
  apply negb_true_iff in Hc.
  cbn [append skip_colons]. rewrite Hc.
  change (String c (name ++ String colon rest))
    with (String c name ++ String colon rest).
  rewrite token_split_colon by exact Hn. reflexivity.
Qed.

(** The second token of a line is everything after the colon, newline
    included. *)
Lemma strtok_value (value : string) :
  no_char colon value = true ->
  strtok (value ++ String newline "")
  = Some (value ++ String newline "", "").
Proof.
  intros Hn. unfold strtok.
  assert (Hall : no_char colon (value ++ String newline "") = true).
  { rewrite no_char_append, Hn. reflexivity. }
  destruct value as [|c value].
  - reflexivity.
  - pose proof Hn as Hn'. cbn [no_char] in Hn'.
    apply andb_true_iff in Hn'. destruct Hn' as [Hc _].
    apply negb_true_iff in Hc.
    cbn [append skip_colons]. rewrite Hc.
    change (String c (value ++ String newline ""))
      with (String c value ++ String newline "").
    rewrite token_split_end by exact Hall. reflexivity.
Qed.

Lemma data_array_full (params : swift_params) :
  length (data params) = MAX_NO_OF_PARAMS ->
  data_array params = data params.
Proof.
  intros Hlen. unfold data_array.
  rewrite firstn_app, Hlen, Nat.sub_diag, firstn_O, app_nil_r.
  rewrite <- Hlen. apply firstn_all.
Qed.

(** Name and value stored into slot [i] of a full array. *)
Lemma strcpy_both (params : swift_params) (i : nat) (n v : string) :
  length (data params) = MAX_NO_OF_PARAMS ->
  (i < MAX_NO_OF_PARAMS)%nat ->
  let params' := strcpy_value (strcpy_name params i n) i v in
  data params' = (firstn i (data params) ++ [MkParameter n v]
                  ++ skipn (S i) (data params))%list
  /\ length (data params') = MAX_NO_OF_PARAMS.
Proof.
  intros Hlen Hi.
  assert (Hfirst : length (firstn i (data params)) = i)
    by (rewrite length_firstn; lia).
  assert (Hlen1 : length (data (strcpy_name params i n)) = MAX_NO_OF_PARAMS).
  { unfold strcpy_name, store_entry. cbn [data].
    rewrite (data_array_full params Hlen).
    rewrite !length_app, Hfirst, length_skipn. cbn [length]. lia. }
  cbv zeta. unfold strcpy_value, store_entry. cbn [data].
  rewrite (data_array_full _ Hlen1).
  unfold strcpy_name, store_entry. cbn [data].
  rewrite (data_array_full params Hlen).
  set (d := data params) in *.
  assert (E1 : firstn i (firstn i d ++ [MkParameter n (value (nth i d empty_parameter))]
                         ++ skipn (S i) d)%list = firstn i d).
  { rewrite firstn_app, Hfirst, Nat.sub_diag, firstn_O, app_nil_r.
    rewrite <- Hfirst at 1. apply firstn_all. }
  assert (E2 : skipn (S i) (firstn i d ++ [MkParameter n (value (nth i d empty_parameter))]
                            ++ skipn (S i) d)%list = skipn (S i) d).
  { rewrite skipn_app, Hfirst, skipn_all2 by lia.
    replace (S i - i)%nat with 1%nat by lia. reflexivity. }
  assert (E3 : nth i (firstn i d ++ [MkParameter n (value (nth i d empty_parameter))]
                      ++ skipn (S i) d)%list empty_parameter
               = MkParameter n (value (nth i d empty_parameter))).
  { rewrite app_nth2 by lia. rewrite Hfirst, Nat.sub_diag. reflexivity. }
  rewrite E1, E2, E3. cbn [name]. split; [reflexivity|].
  rewrite !length_app, Hfirst, length_skipn. cbn [length]. lia.
Qed.

Lemma stored_nil (params : swift_params) : stored params [] = params.
Proof. destruct params. reflexivity. Qed.

Lemma render_length (lines : list file_line) :
  (length lines <= String.length (render lines))%nat.
Proof.
  induction lines as [|l lines IH]; [cbn; lia|].
  cbn [render length]. rewrite length_append.
  destruct l; cbn [render_line]; rewrite length_append; cbn [String.length]; lia.
Qed.

(** The loop over a well-formed prefix of the file, [pre] being the entries
    stored so far: the entries are stored in order as long as there is room,
    and the loop goes on with what follows. *)
Lemma parse_loop_lines : forall (lines : list file_line) (fuel : nat)
                                (params : swift_params) (pre : list parameter)
                                (tail : string),
  forallb well_formed lines = true ->
  length (data params) = MAX_NO_OF_PARAMS ->
  (length pre <= MAX_NO_OF_PARAMS)%nat ->
  parse_loop (length lines + fuel)
             (FileState (render lines ++ tail) false)
             (stored params pre) (Z.of_nat (length pre))
  = if (length pre + length (entries lines) <=? MAX_NO_OF_PARAMS)%nat
    then parse_loop fuel (FileState tail false)
                    (stored params (pre ++ entries lines)%list)
                    (Z.of_nat (length pre + length (entries lines)))
    else Undefined "store past the end of params->data".
Proof.
  induction lines as [|l lines IH]; intros fuel params pre tail Hwf Hlen Hpre.
  - cbn [render entries length Nat.add append].
    rewrite Nat.add_0_r, app_nil_r.
    destruct (length pre <=? MAX_NO_OF_PARAMS)%nat eqn:E;
      [reflexivity | apply Nat.leb_gt in E; lia].
  - cbn [forallb] in Hwf. apply andb_true_iff in Hwf. destruct Hwf as [Hl Hwf].
    cbn [render length Nat.add parse_loop eof_flag].
    rewrite append_assoc.
    destruct l as [text | n v]; cbn [well_formed render_line entries] in *.
    + apply andb_true_iff in Hl. destruct Hl as [Hplain Hsize].
      unfold plain in Hplain. rewrite !andb_true_iff in Hplain.
      destruct Hplain as [[Hc Hnl] Hnul]. apply Nat.ltb_lt in Hsize.
      rewrite append_assoc. cbn [append].
      rewrite fgets_line by assumption.
      rewrite c_str_plain by (rewrite no_char_append, Hnul; reflexivity).
      rewrite has_colon_none by (rewrite no_char_append, Hc; reflexivity).
      apply IH; assumption.
    + rewrite !andb_true_iff in Hl. destruct Hl as [[[Hpn Hpv] Hne] Hsize].
      unfold plain in Hpn, Hpv. rewrite !andb_true_iff in Hpn, Hpv.
      destruct Hpn as [[Hnc Hnnl] Hnnul]. destruct Hpv as [[Hvc Hvnl] Hvnul].
      apply negb_true_iff, String.eqb_neq in Hne. apply Nat.ltb_lt in Hsize.
      set (text := n ++ String colon v).
      assert (Etext : (n ++ String colon (v ++ String newline ""))
                        ++ (render lines ++ tail)
                      = text ++ String newline (render lines ++ tail)).
      { subst text. rewrite !append_assoc. cbn [append].
        rewrite append_assoc. reflexivity. }
      rewrite Etext.
      rewrite fgets_line.
      2:{ subst text. rewrite no_char_append. cbn [no_char].
          rewrite Hnnl, Hvnl. reflexivity. }
      2:{ subst text. rewrite length_append. cbn [String.length]. lia. }
      assert (Eline : text ++ String newline ""
                      = n ++ String colon (v ++ String newline "")).
      { subst text. rewrite append_assoc. reflexivity. }
      rewrite Eline.
      rewrite c_str_plain.
      2:{ rewrite no_char_append. cbn [no_char]. rewrite no_char_append.
          rewrite Hnnul, Hvnul. reflexivity. }
      rewrite has_colon_append, strtok_name by assumption.
      cbn [length]. 
      destruct (Z.of_nat (length pre) <? 0)%Z eqn:E0; [apply Z.ltb_lt in E0; lia|].
      cbn [orb].
      destruct (Z.of_nat MAX_NO_OF_PARAMS <=? Z.of_nat (length pre))%Z eqn:E1.
      * apply Z.leb_le in E1.
        destruct (length pre + S (length (entries lines)) <=? MAX_NO_OF_PARAMS)%nat
          eqn:E2; [apply Nat.leb_le in E2; lia | reflexivity].
      * apply Z.leb_gt in E1. cbv zeta. rewrite Nat2Z.id.
        rewrite strtok_value by exact Hvc.
        assert (Hslen : length (data (stored params pre)) = MAX_NO_OF_PARAMS).
        { unfold stored. cbn [data]. rewrite length_app, length_skipn. lia. }
        destruct (strcpy_both (stored params pre) (length pre) n
                    (v ++ String newline "") Hslen ltac:(lia)) as [Hd Hl'].
        set (params1 := strcpy_value _ _ _) in *.
        assert (Hst : params1
                      = stored params
                          (pre ++ [MkParameter n (v ++ String newline "")])%list).
        { destruct params1 as [d1]. cbn [data] in Hd. unfold stored. f_equal.
          rewrite Hd. unfold stored. cbn [data].
          rewrite firstn_app, Nat.sub_diag, firstn_O, app_nil_r, firstn_all.
          rewrite skipn_app, skipn_all2 by lia.
          replace (S (length pre) - length pre)%nat with 1%nat by lia.
          rewrite <- app_assoc. cbn [app].
          rewrite length_app. cbn [length].
          rewrite skipn_skipn. do 3 f_equal. lia. }
        rewrite Hst.
        assert (Eadd : int_add (Z.of_nat (length pre)) 1
                       = Z.of_nat
                           (length (pre ++ [MkParameter n (v ++ String newline "")])%list)).
        { rewrite length_app. cbn [length]. unfold int_add.
          rewrite wrap_int_small; [lia|].
          unfold INT_MIN, INT_MAX, MAX_NO_OF_PARAMS in *. lia. }
        rewrite Eadd, IH; try assumption.
        -- rewrite <- app_assoc, length_app. cbn [length app].
           replace (length pre + 1 + length (entries lines))%nat
             with (length pre + S (length (entries lines)))%nat by lia.
           reflexivity.
        -- rewrite length_app. cbn [length].
           unfold MAX_NO_OF_PARAMS in *. lia.
Qed.

Lemma parse_loop_end (fuel : nat) (params : swift_params) (pc : Z) :
  parse_loop (S (S fuel)) (FileState "" false) params pc = Parsed params.
Proof. reflexivity. Qed.


Lemma digits_value_newline : forall (s : string) (acc : Z),
  digits_value acc (s ++ String newline "") = digits_value acc s.
Proof.
  induction s as [|c s IH]; intros acc; [reflexivity|].
  cbn [append digits_value]. destruct (isdigit c); [apply IH | reflexivity].
Qed.

Lemma atoi_space (c : ascii) (s : string) :
  isspace c = true -> atoi (String c s) = atoi s.
Proof. intros Hc. unfold atoi. cbn [skip_spaces]. rewrite Hc. reflexivity. Qed.

Lemma atoi_no_space (c : ascii) (s : string) :
  isspace c = false ->
  atoi (String c s)
  = match String c s with
    | String "-"%char rest => wrap_int (- digits_value 0 rest)
    | String "+"%char rest => wrap_int (digits_value 0 rest)
    | t => wrap_int (digits_value 0 t)
    end.
Proof. intros Hc. unfold atoi. cbn [skip_spaces]. rewrite Hc. reflexivity. Qed.

(** [atoi] does not see the newline that [parseFile] leaves at the end of a
    value. *)
Lemma atoi_newline : forall v : string,
  atoi (v ++ String newline "") = atoi v.
Proof.
  induction v as [|c v IH]; [reflexivity|].
  cbn [append]. destruct (isspace c) eqn:Hc.
  - rewrite !atoi_space by exact Hc. exact IH.
  - rewrite !atoi_no_space by exact Hc.
    pose proof (digits_value_newline (String c v) 0) as Hall.
    pose proof (digits_value_newline v 0) as Hrest.
    cbn [append] in Hall.
    destruct c as [[] [] [] [] [] [] [] []];
      first [ rewrite Hrest; reflexivity | rewrite Hall; reflexivity ].
Qed.

Lemma getParam_loop_pointwise (d1 d2 : list parameter) (name_ : string) :
  (forall i, name (nth i d1 empty_parameter) = name (nth i d2 empty_parameter)
             /\ atoi (value (nth i d1 empty_parameter))
                = atoi (value (nth i d2 empty_parameter))) ->
  forall n i,
    getParam_loop (SwiftParams d1) name_ n i
    = getParam_loop (SwiftParams d2) name_ n i.
Proof.
  intros Hsame. induction n as [|n IH]; intros i; [reflexivity|].
  cbn [getParam_loop data]. destruct (Hsame i) as [Hn Hv].
  rewrite Hn, Hv, IH. reflexivity.
Qed.

Lemma entries_pointwise (lines : list file_line) (rest : list parameter) :
  forall i,
    name (nth i (entries lines ++ rest)%list empty_parameter)
    = name (nth i (entries_as_written lines ++ rest)%list empty_parameter)
    /\ atoi (value (nth i (entries lines ++ rest)%list empty_parameter))
       = atoi (value (nth i (entries_as_written lines ++ rest)%list
                          empty_parameter)).
Proof.
  induction lines as [|[text | n v] lines IH]; intros i.
  - split; reflexivity.
  - apply IH.
  - cbn [entries entries_as_written app]. destruct i as [|i].
    + cbn [nth name value]. split; [reflexivity | apply atoi_newline].
    + cbn [nth]. apply IH.
Qed.

Lemma entries_length (lines : list file_line) :
  length (entries_as_written lines) = length (entries lines).
Proof.
  induction lines as [|[text | n v] lines IH]; cbn; congruence.
Qed.

(** The fuel [parseFile] starts with covers the lines and two more turns. *)
Lemma parseFile_fuel (lines : list file_line) (tail : string) :
  exists fuel,
    S (S (String.length (render lines ++ tail)))
    = (length lines + S (S fuel))%nat
    /\ (String.length tail <= fuel)%nat.
Proof.
  pose proof (render_length lines) as Hl.
  exists (String.length (render lines ++ tail) - length lines)%nat.
  rewrite length_append. split; lia.
Qed.

(** X15: a parameter file made of at most four well-formed entries
    [name:value] and any number of comment lines without colon is read
    completely: the entries fill the first slots of the store in file
    order, each value keeping the newline that ends its line, comment
    lines are skipped and the remaining slots are left as they were.
    Through [getParam] the store cannot be told from one holding the values
    as written, as [atoi] does not see the trailing newline. *)
Theorem parseFile_reads_well_formed_file :
  forall (params : swift_params) (lines : list file_line),
    length (data params) = MAX_NO_OF_PARAMS ->
    forallb well_formed lines = true ->
    (length (entries lines) <= MAX_NO_OF_PARAMS)%nat ->
    parseFile params (Some (render lines))
    = Parsed (stored params (entries lines))
    /\ forall (name_ : string) (retParam : Z),
         getParam (stored params (entries lines)) name_ retParam
         = getParam (stored params (entries_as_written lines)) name_ retParam.
Proof.
  intros params lines Hlen Hwf Hroom. split.
  - unfold parseFile.
    destruct (parseFile_fuel lines "") as (fuel & Hfuel & _).
    rewrite append_nil_r in Hfuel. rewrite Hfuel.
    pose proof (parse_loop_lines lines (S (S fuel)) params [] ""
                  Hwf Hlen ltac:(cbn; lia)) as Hloop.
    rewrite append_nil_r, stored_nil in Hloop. cbn [length Nat.add app] in Hloop.
    change (Z.of_nat 0) with 0 in Hloop. rewrite Hloop.
    destruct (length (entries lines) <=? MAX_NO_OF_PARAMS)%nat eqn:E;
      [|apply Nat.leb_gt in E; lia].
    apply parse_loop_end.
  - intros name_ retParam. unfold getParam, stored.
    rewrite entries_length.
    rewrite (getParam_loop_pointwise _ _ name_
               (entries_pointwise lines _)).
    reflexivity.
Qed.

(** X16: [parseFile] does not check [param_count] against the size of the
    store: a fifth entry in an otherwise well-formed file is stored past the
    end of [params->data], which is undefined behaviour. *)
Theorem parseFile_fifth_entry_overruns_store :
  forall (params : swift_params) (lines : list file_line),
    length (data params) = MAX_NO_OF_PARAMS ->
    forallb well_formed lines = true ->
    (MAX_NO_OF_PARAMS < length (entries lines))%nat ->
    parseFile params (Some (render lines))
    = Undefined "store past the end of params->data".
Proof.
  intros params lines Hlen Hwf Hmany.
  unfold parseFile.
  destruct (parseFile_fuel lines "") as (fuel & Hfuel & _).
  rewrite append_nil_r in Hfuel. rewrite Hfuel.
  pose proof (parse_loop_lines lines (S (S fuel)) params [] ""
                Hwf Hlen ltac:(cbn; lia)) as Hloop.
  rewrite append_nil_r, stored_nil in Hloop. cbn [length Nat.add app] in Hloop.
  change (Z.of_nat 0) with 0 in Hloop. rewrite Hloop.
  destruct (length (entries lines) <=? MAX_NO_OF_PARAMS)%nat eqn:E;
    [apply Nat.leb_le in E; lia | reflexivity].
Qed.

(** X17: a last line [name:] with nothing after the colon, not even a
    newline, makes [parseFile] copy from the null pointer that the second
    [strtok] returns (or, with four entries before it, store past the end
    of the store): the call runs into undefined behaviour. *)
Theorem parseFile_name_without_value_is_undefined :
  forall (params : swift_params) (lines : list file_line) (name_ : string),
    length (data params) = MAX_NO_OF_PARAMS ->
    forallb well_formed lines = true ->
    plain name_ = true ->
    name_ <> "" ->
    (String.length name_ + 2 < MAX_LINE_SIZE)%nat ->
    exists why,
      parseFile params (Some (render lines ++ (name_ ++ String colon "")))
      = Undefined why.
Proof.
  intros params lines name_ Hlen Hwf Hplain Hne Hsize.
  unfold plain in Hplain. rewrite !andb_true_iff in Hplain.
  destruct Hplain as [[Hc Hnl] Hnul].
  unfold parseFile.
  destruct (parseFile_fuel lines (name_ ++ String colon ""))
    as (fuel & Hfuel & _).
  rewrite Hfuel.
  pose proof (parse_loop_lines lines (S (S fuel)) params []
                (name_ ++ String colon "") Hwf Hlen ltac:(cbn; lia)) as Hloop.
  rewrite stored_nil in Hloop. cbn [length Nat.add app] in Hloop.
  change (Z.of_nat 0) with 0 in Hloop. rewrite Hloop.
  destruct (length (entries lines) <=? MAX_NO_OF_PARAMS)%nat eqn:E;
    [|eexists; reflexivity].
  apply Nat.leb_le in E.
  cbn [parse_loop eof_flag]. unfold fgets. cbn [unread eof_flag].
  rewrite fgets_chars_last.
  2:{ rewrite no_char_append, Hnl. reflexivity. }
  2:{ rewrite length_append. cbn [String.length].
      unfold MAX_LINE_SIZE in *. lia. }
  destruct (name_ ++ String colon "") as [|c0 line0] eqn:Eline.
  { destruct name_; discriminate. }
  rewrite <- Eline.
  rewrite c_str_plain by (rewrite no_char_append, Hnul; reflexivity).
  rewrite has_colon_append, strtok_name by assumption.
  destruct ((Z.of_nat (length (entries lines)) <? 0)%Z
            || (Z.of_nat MAX_NO_OF_PARAMS <=? Z.of_nat (length (entries lines)))%Z);
    eexists; reflexivity.
Qed.

Example sample_file_parsed :
  parseFile sample_params (Some (render sample_file))
  = Parsed (SwiftParams [ MkParameter "dt" (" 10" ++ String newline "");
                          MkParameter "steps" ("200" ++ String newline "");
                          MkParameter "seed" "-7"; MkParameter "ranks" "4" ]).
Proof. vm_compute. reflexivity. Qed.

Lemma parseFile_reads_well_formed_file_witness :
  parseFile sample_params (Some (render sample_file))
  = Parsed (stored sample_params (entries sample_file))
  /\ forall (name_ : string) (retParam : Z),
       getParam (stored sample_params (entries sample_file)) name_ retParam
       = getParam (stored sample_params (entries_as_written sample_file))
                  name_ retParam.
Proof.
  apply (parseFile_reads_well_formed_file sample_params sample_file).
  - reflexivity.
  - reflexivity.
  - vm_compute. lia.
Defined.

Lemma parseFile_fifth_entry_overruns_store_witness :
  parseFile sample_params
    (Some (render [Entry "a" "1"; Entry "b" "2"; Entry "c" "3";
                   Entry "d" "4"; Entry "e" "5"]))
  = Undefined "store past the end of params->data".
Proof.
  apply (parseFile_fifth_entry_overruns_store sample_params
           [Entry "a" "1"; Entry "b" "2"; Entry "c" "3";
            Entry "d" "4"; Entry "e" "5"]).
  - reflexivity.
  - reflexivity.
  - vm_compute. lia.
Defined.

Lemma parseFile_name_without_value_is_undefined_witness :
  exists why,
    parseFile sample_params
      (Some (render [Entry "dt" "1"] ++ ("steps" ++ String colon "")))
    = Undefined why.
Proof.
  apply (parseFile_name_without_value_is_undefined
           sample_params [Entry "dt" "1"] "steps").
  - reflexivity.
  - reflexivity.
  - reflexivity.
  - discriminate.
  - vm_compute. lia.
Defined.

End ParserFileFacts.

(* ===================================================================== *)
(** ** Sizes of the datasets a pass creates                               *)
(* ===================================================================== *)

Module LineOfSightDatasets.

Import MachineInt MachineIntFacts LineOfSight LineOfSightTrace.

Section DatasetFacts.

Variable kernel_gamma : Q.
Variable time_bin_inhibited : Z.
Variable nearest : Q -> Q -> Q.
Variable SWIFT_DEBUG_CHECKS : bool.
Variable swift_malloc_ok : string -> Z -> bool.
Variable H5Gcreate_ok : Z -> bool.

Local Abbreviation guarded_predicate :=
  (LineOfSight.guarded_predicate kernel_gamma time_bin_inhibited nearest).
Local Abbreviation threadpool_map :=
  (LineOfSight.threadpool_map kernel_gamma time_bin_inhibited nearest).
Local Abbreviation los_count_phase :=
  (LineOfSight.los_count_phase kernel_gamma time_bin_inhibited nearest).
Local Abbreviation los_recorded :=
  (LineOfSight.los_recorded kernel_gamma time_bin_inhibited nearest).
Local Abbreviation do_line_of_sight :=
  (LineOfSight.do_line_of_sight kernel_gamma time_bin_inhibited nearest
                                SWIFT_DEBUG_CHECKS swift_malloc_ok
                                H5Gcreate_ok).

Lemma threadpool_map_total (chunks : list (list part)) : forall los,
  particles_in_los_total (threadpool_map chunks los)
  = particles_in_los_total los.
Proof.
  unfold LineOfSight.threadpool_map.
  induction chunks as [|c rest IH]; intros los; [reflexivity|].
  cbn [fold_left]. rewrite IH. reflexivity.
Qed.

Lemma filter_length_le (f : part -> bool) (l : list part) :
  (length (filter f l) <= length l)%nat.
Proof.
  induction l as [|p l IH]; [cbn; lia|].
  cbn [filter]. destruct (f p); cbn [length]; lia.
Qed.

(** What the ranks report for a fresh sightline: non-negative counts whose
    sum is at most the number of particles looked at. *)
Lemma counts_bounded (world : list rank_data) (los : line_of_sight) :
  particles_in_los_local los = 0 ->
  let LOS_counts :=
    map (fun r => particles_in_los_local (threadpool_map (rank_chunks r) los))
        world in
  Forall (fun c => 0 <= c) LOS_counts
  /\ sum_Z LOS_counts <= Z.of_nat (world_particles world).
Proof.
  intros Hzero. induction world as [|r world [IHn IHs]].
  - split; [constructor | reflexivity].
  - cbn [map world_particles fold_right sum_Z].
    fold (world_particles world).
    destruct (LineOfSightFilter.threadpool_map_local
                kernel_gamma time_bin_inhibited nearest (rank_chunks r) los)
      as [Hn _].
    pose proof (filter_length_le (guarded_predicate los)
                                 (concat (rank_chunks r))) as Hle.
    split.
    + constructor; [rewrite Hn, Hzero; lia | exact IHn].
    + unfold sum_Z in IHs. cbv zeta in IHs. rewrite Hn, Hzero. lia.
Qed.

(** The global count recorded for a fresh sightline. *)
Lemma recorded_total_bounded (world : list rank_data) (me : rank_data)
      (los : line_of_sight) :
  particles_in_los_local los = 0 ->
  particles_in_los_total los = 0 ->
  Z.of_nat (world_particles world) <= INT_MAX ->
  0 <= particles_in_los_total (los_recorded world me los)
    <= Z.of_nat (world_particles world).
Proof.
  intros Hl Ht Hfit.
  destruct (counts_bounded world los Hl) as [Hnn Hsum].
  unfold LineOfSight.los_recorded, LineOfSight.los_count_phase.
  set (mine := threadpool_map (rank_chunks me) los).
  set (counts := map _ world) in *.
  pose proof (LineOfSightGather.count_disp_loop_spec counts mine [] 0 Hnn)
    as Hspec.
  destruct (count_disp_loop counts mine [] 0) as [los' disps].
  cbn [fst snd] in *.
  assert (Hmine : particles_in_los_total mine = 0).
  { subst mine. rewrite threadpool_map_total. exact Ht. }
  destruct Hspec as (Htot & _ & _); try lia.
  rewrite Htot, Hmine.
  pose proof (LineOfSightGather.sum_Z_nonneg counts Hnn). lia.
Qed.

Lemma nonempty_sightlines_bounded (bound : Z) :
  forall (recs : list line_of_sight) (j : Z),
    Forall (fun los => 0 <= particles_in_los_total los <= bound) recs ->
    Forall (fun jN => 1 <= snd jN <= bound) (nonempty_sightlines j recs).
Proof.
  induction recs as [|los recs IH]; intros j Hall; [constructor|].
  inversion Hall as [|? ? Hlos Hrest]; subst.
  cbn [nonempty_sightlines]. apply Forall_app. split; [|apply IH, Hrest].
  destruct (particles_in_los_total los =? 0) eqn:E; [constructor|].
  apply Z.eqb_neq in E. constructor; [cbn [snd]; lia | constructor].
Qed.

(** X18: rank 0 never asks for an empty dataset.  When the sightlines start
    with zero counts and the particles of all ranks together fit an [int],
    every call of [write_los_hdf5_datasets] a completed pass makes has a
    particle count between 1 and the number of particles, so every dataset
    [write_los_hdf5_dataset] creates for it has a leading chunk extent of at
    least one element and at most the dataset's length. *)
Theorem pass_writes_no_empty_dataset :
  forall world me H5Fcreate_ok LOS_list st',
    Forall (fun los => particles_in_los_local los = 0
                       /\ particles_in_los_total los = 0) LOS_list ->
    Z.of_nat (world_particles world) <= INT_MAX ->
    do_line_of_sight 0 world me H5Fcreate_ok LOS_list = Returns st' ->
    Forall (fun jN =>
              1 <= snd jN <= Z.of_nat (world_particles world)
              /\ forall (props : io_props) (snapshot_compression : Z),
                   dimension props < 2 ^ 64 ->
                   exists c rest,
                     H5.chunk_dims
                       (H5.h_prop (write_los_hdf5_dataset
                                     props (snd jN) snapshot_compression))
                     = Some (c :: rest)
                     /\ 1 <= c <= snd jN)
           (written_datasets (trace st')).
Proof.
  intros world me ok LOS_list st' Hfresh Hfit Hpass.
  unfold LineOfSight.do_line_of_sight in Hpass.
  destruct ((0 =? 0) && negb ok); [discriminate|].
  unfold bind in Hpass. cbn [Z.eqb] in Hpass.
  destruct (LineOfSight.los_main_loop _ _ _ _ _ _ _ _ _ _ _ _)
    as [st2|msg] eqn:Hloop; [|discriminate].
  injection Hpass as <-. cbn [trace].
  destruct (LineOfSightPass.los_main_loop_trace _ _ _ _ _ _ _ _ _ _ _ _ _ Hloop)
    as (_ & Hw & _).
  specialize (Hw eq_refl). cbn [trace] in Hw.
  unfold written_datasets in Hw |- *. rewrite flat_map_app, Hw.
  cbn [flat_map app]. rewrite app_nil_r.
  assert (Hrecs : Forall (fun los => 0 <= particles_in_los_total los
                                     <= Z.of_nat (world_particles world))
                         (map (los_recorded world me) LOS_list)).
  { apply Forall_map. eapply Forall_impl; [|exact Hfresh].
    intros los [Hl Ht]. apply recorded_total_bounded; assumption. }
  eapply Forall_impl;
    [|exact (nonempty_sightlines_bounded _ _ 0 Hrecs)].
  intros [j N] HN. cbn [snd] in *. split; [exact HN|].
  intros props level Hdim.
  destruct (DatasetLayout.los_layout props N level) as (_ & Hchunk & _);
    [unfold INT_MAX in Hfit; lia | exact Hdim |].
  rewrite Hchunk. unfold H5.expected_chunk.
  destruct (dimension props >? 1); eexists; eexists;
    (split; [reflexivity | lia]).
Qed.

End DatasetFacts.

Lemma pass_writes_no_empty_dataset_witness :
  exists st',
    sample_pass = Returns st'
    /\ Forall (fun jN =>
                 1 <= snd jN <= Z.of_nat (world_particles sample_world)
                 /\ forall (props : io_props) (snapshot_compression : Z),
                      dimension props < 2 ^ 64 ->
                      exists c rest,
                        H5.chunk_dims
                          (H5.h_prop (write_los_hdf5_dataset
                                        props (snd jN) snapshot_compression))
                        = Some (c :: rest)
                        /\ 1 <= c <= snd jN)
              (written_datasets (trace st')).
Proof.
  eexists. split.
  - vm_compute. reflexivity.
  - apply (pass_writes_no_empty_dataset
             cubic_spline_gamma inhibited_bin box_wrap true
             always_ok_malloc always_ok_group
             sample_world sample_rank0 true sample_LOS_list).
    + repeat constructor.
    + vm_compute. discriminate.
    + vm_compute. reflexivity.
Defined.

End LineOfSightDatasets.

(* --------------------------------------------------------------------- *)
(** ** Mass bookkeeping of the stellar evolution *)

Module StarsBudgetFacts.

Import Stars StarsBudget.

(** A property of the loop state kept by the body is kept by the loop. *)
Lemma for_range_invariant (S : Type) (P : S -> Prop) (body : Z -> S -> S) :
  (forall i st, P st -> P (body i st)) ->
  forall n i st, P st -> P (for_range n i body st).
Proof.
  intros Hbody. induction n as [|n IH]; intros i st Hst; [exact Hst|].
  cbn [for_range]. apply IH, Hbody, Hst.
Qed.

Lemma nth_list_set_cases (v : Q) : forall (a : list Q) (i k : nat),
  nth k (list_set a i v) 0%Q = v \/ nth k (list_set a i v) 0%Q = nth k a 0%Q.
Proof.
  induction a as [|q a IH]; intros i k.
  - right. reflexivity.
  - destruct i as [|i], k as [|k]; cbn [list_set nth];
      [left | right | right | apply IH]; reflexivity.
Qed.

Lemma arr_set_cases (a : list Q) (i k : Z) (v : Q) :
  arr (arr_set a i v) k = v \/ arr (arr_set a i v) k = arr a k.
Proof.
  unfold arr, arr_set. destruct (i <? 0); [right; reflexivity|].
  apply nth_list_set_cases.
Qed.

Lemma arr_set_nonpositive (a : list Q) (i : Z) (v : Q) :
  (forall k, arr a k <= 0)%Q -> (v <= 0)%Q ->
  (forall k, arr (arr_set a i v) k <= 0)%Q.
Proof.
  intros Ha Hv k. destruct (arr_set_cases a i k v) as [-> | ->];
    [exact Hv | apply Ha].
Qed.

Lemma arr_repeat_zero (n : nat) (k : Z) : arr (repeat 0%Q n) k = 0%Q.
Proof.
  unfold arr. generalize (Z.to_nat k) as j. clear k.
  induction n as [|n IH]; intros j; destruct j; cbn; try reflexivity.
  apply IH.
Qed.

Lemma Qlt_bool_iff (a b : Q) : Qlt_bool a b = true <-> (a < b)%Q.
Proof.
  unfold Qlt_bool. rewrite negb_true_iff. split.
  - intros H. apply Qnot_le_lt. intros Hle. apply Qle_bool_iff in Hle.
    congruence.
  - intros H. destruct (Qle_bool b a) eqn:E; [|reflexivity].
    apply Qle_bool_iff in E. exfalso. apply (Qlt_not_le _ _ H E).
Qed.

Lemma clip_nonpositive (x : Q) :
  (x <= 0)%Q -> ((if Qlt_bool x 0 then 0 else x) <= 0)%Q.
Proof. intros Hx. destruct (Qlt_bool x 0); [apply Qle_refl | exact Hx]. Qed.

Lemma length_list_set (v : Q) : forall (a : list Q) (i : nat),
  length (list_set a i v) = length a.
Proof.
  induction a as [|q a IH]; intros i; [reflexivity|].
  destruct i as [|i]; cbn [list_set length]; [reflexivity|].
  rewrite IH. reflexivity.
Qed.

Lemma nth_list_set (v : Q) : forall (a : list Q) (i k : nat),
  (i < length a)%nat ->
  nth k (list_set a i v) 0%Q = if (k =? i)%nat then v else nth k a 0%Q.
Proof.
  induction a as [|q a IH]; intros i k Hi; [cbn in Hi; lia|].
  destruct i as [|i], k as [|k]; cbn [list_set nth Nat.eqb]; try reflexivity.
  apply IH. cbn in Hi. lia.
Qed.

Lemma arr_arr_set (a : list Q) (i k : Z) (v : Q) :
  0 <= i -> (Z.to_nat i < length a)%nat -> 0 <= k ->
  arr (arr_set a i v) k = if k =? i then v else arr a k.
Proof.
  intros Hi Hlen Hk. unfold arr, arr_set.
  destruct (i <? 0) eqn:E; [lia|].
  rewrite nth_list_set by exact Hlen.
  destruct (Z.eqb_spec k i) as [->|Hne].
  - rewrite Nat.eqb_refl. reflexivity.
  - destruct (Nat.eqb_spec (Z.to_nat k) (Z.to_nat i)) as [E'|E']; [lia|].
    reflexivity.
Qed.

Lemma length_arr_set (a : list Q) (i : Z) (v : Q) :
  length (arr_set a i v) = length a.
Proof.
  unfold arr_set. destruct (i <? 0); [reflexivity | apply length_list_set].
Qed.

(** Changing one entry changes the sum over a range that holds it by the
    difference. *)
Lemma sum_range_arr_set (a : list Q) (i : Z) (v : Q) :
  0 <= i -> (Z.to_nat i < length a)%nat ->
  forall (n : nat) (j : Z),
    0 <= j ->
    (sum_range (arr_set a i v) n j
     == sum_range a n j
        + (if (j <=? i) && (i <? j + Z.of_nat n) then v - arr a i else 0))%Q.
Proof.
  intros Hi Hlen. induction n as [|n IH]; intros j Hj.
  - cbn [sum_range]. replace (i <? j + Z.of_nat 0) with (i <? j) by (f_equal; lia).
    destruct (j <=? i) eqn:E1, (i <? j) eqn:E2; cbn [andb]; try ring.
    apply Z.leb_le in E1. apply Z.ltb_lt in E2. lia.
  - cbn [sum_range]. rewrite IH by lia. rewrite arr_arr_set by assumption.
    destruct (Z.eqb_spec j i) as [->|Hne].
    + replace (i <=? i) with true by (symmetry; apply Z.leb_refl).
      replace (i <? i + Z.of_nat (S n)) with true
        by (symmetry; apply Z.ltb_lt; lia).
      replace (i + 1 <=? i) with false by (symmetry; apply Z.leb_gt; lia).
      cbn [andb]. ring.
    + replace (j + 1 + Z.of_nat n) with (j + Z.of_nat (S n)) by lia.
      destruct (i <? j + Z.of_nat (S n)) eqn:E2.
      * destruct (j <=? i) eqn:E1.
        -- replace (j + 1 <=? i) with true
             by (symmetry; apply Z.leb_le; apply Z.leb_le in E1; lia).
           cbn [andb]. ring.
        -- replace (j + 1 <=? i) with false
             by (symmetry; apply Z.leb_gt; apply Z.leb_gt in E1; lia).
           cbn [andb]. ring.
      * rewrite !andb_false_r. ring.
Qed.

(** [to_distribute.num_SNe] is neither read nor written by the setters of
    the other fields. *)
Lemma set_num_SNIa_num_SNe (d : feedback_to_distribute) (v : Q) (c : Q) :
  set_num_SNIa (set_num_SNe d v) c = set_num_SNe (set_num_SNIa d c) v.
Proof. reflexivity. Qed.

Lemma num_SNIa_num_SNe (d : feedback_to_distribute) (v : Q) :
  num_SNIa (set_num_SNe d v) = num_SNIa d.
Proof. reflexivity. Qed.

Lemma set_num_SNII_num_SNe (d : feedback_to_distribute) (v : Q) (c : Q) :
  set_num_SNII (set_num_SNe d v) c = set_num_SNe (set_num_SNII d c) v.
Proof. reflexivity. Qed.

Lemma num_SNII_num_SNe (d : feedback_to_distribute) (v : Q) :
  num_SNII (set_num_SNe d v) = num_SNII d.
Proof. reflexivity. Qed.

Lemma set_mass_num_SNe (d : feedback_to_distribute) (v : Q) (c : Q) :
  set_mass (set_num_SNe d v) c = set_num_SNe (set_mass d c) v.
Proof. reflexivity. Qed.

Lemma mass_num_SNe (d : feedback_to_distribute) (v : Q) :
  mass (set_num_SNe d v) = mass d.
Proof. reflexivity. Qed.

Lemma set_metal_mass_num_SNe (d : feedback_to_distribute) (v : Q) (c : list Q) :
  set_metal_mass (set_num_SNe d v) c = set_num_SNe (set_metal_mass d c) v.
Proof. reflexivity. Qed.

Lemma metal_mass_num_SNe (d : feedback_to_distribute) (v : Q) :
  metal_mass (set_num_SNe d v) = metal_mass d.
Proof. reflexivity. Qed.

Lemma set_total_metal_mass_num_SNe (d : feedback_to_distribute) (v : Q) (c : Q) :
  set_total_metal_mass (set_num_SNe d v) c = set_num_SNe (set_total_metal_mass d c) v.
Proof. reflexivity. Qed.

Lemma total_metal_mass_num_SNe (d : feedback_to_distribute) (v : Q) :
  total_metal_mass (set_num_SNe d v) = total_metal_mass d.
Proof. reflexivity. Qed.

Lemma set_mass_from_AGB_num_SNe (d : feedback_to_distribute) (v : Q) (c : Q) :
  set_mass_from_AGB (set_num_SNe d v) c = set_num_SNe (set_mass_from_AGB d c) v.
Proof. reflexivity. Qed.

Lemma mass_from_AGB_num_SNe (d : feedback_to_distribute) (v : Q) :
  mass_from_AGB (set_num_SNe d v) = mass_from_AGB d.
Proof. reflexivity. Qed.

Lemma set_metal_mass_from_AGB_num_SNe (d : feedback_to_distribute) (v : Q) (c : Q) :
  set_metal_mass_from_AGB (set_num_SNe d v) c = set_num_SNe (set_metal_mass_from_AGB d c) v.
Proof. reflexivity. Qed.

Lemma metal_mass_from_AGB_num_SNe (d : feedback_to_distribute) (v : Q) :
  metal_mass_from_AGB (set_num_SNe d v) = metal_mass_from_AGB d.
Proof. reflexivity. Qed.

Lemma set_mass_from_SNII_num_SNe (d : feedback_to_distribute) (v : Q) (c : Q) :
  set_mass_from_SNII (set_num_SNe d v) c = set_num_SNe (set_mass_from_SNII d c) v.
Proof. reflexivity. Qed.

Lemma mass_from_SNII_num_SNe (d : feedback_to_distribute) (v : Q) :
  mass_from_SNII (set_num_SNe d v) = mass_from_SNII d.
Proof. reflexivity. Qed.

Lemma set_metal_mass_from_SNII_num_SNe (d : feedback_to_distribute) (v : Q) (c : Q) :
  set_metal_mass_from_SNII (set_num_SNe d v) c = set_num_SNe (set_metal_mass_from_SNII d c) v.
Proof. reflexivity. Qed.

Lemma metal_mass_from_SNII_num_SNe (d : feedback_to_distribute) (v : Q) :
  metal_mass_from_SNII (set_num_SNe d v) = metal_mass_from_SNII d.
Proof. reflexivity. Qed.

Lemma set_mass_from_SNIa_num_SNe (d : feedback_to_distribute) (v : Q) (c : Q) :
  set_mass_from_SNIa (set_num_SNe d v) c = set_num_SNe (set_mass_from_SNIa d c) v.
Proof. reflexivity. Qed.

Lemma mass_from_SNIa_num_SNe (d : feedback_to_distribute) (v : Q) :
  mass_from_SNIa (set_num_SNe d v) = mass_from_SNIa d.
Proof. reflexivity. Qed.

Lemma set_metal_mass_from_SNIa_num_SNe (d : feedback_to_distribute) (v : Q) (c : Q) :
  set_metal_mass_from_SNIa (set_num_SNe d v) c = set_num_SNe (set_metal_mass_from_SNIa d c) v.
Proof. reflexivity. Qed.

Lemma metal_mass_from_SNIa_num_SNe (d : feedback_to_distribute) (v : Q) :
  metal_mass_from_SNIa (set_num_SNe d v) = metal_mass_from_SNIa d.
Proof. reflexivity. Qed.

Lemma set_Fe_mass_from_SNIa_num_SNe (d : feedback_to_distribute) (v : Q) (c : Q) :
  set_Fe_mass_from_SNIa (set_num_SNe d v) c = set_num_SNe (set_Fe_mass_from_SNIa d c) v.
Proof. reflexivity. Qed.

Lemma Fe_mass_from_SNIa_num_SNe (d : feedback_to_distribute) (v : Q) :
  Fe_mass_from_SNIa (set_num_SNe d v) = Fe_mass_from_SNIa d.
Proof. reflexivity. Qed.

Lemma for_range_commute (S : Type) (g : S -> S) (body : Z -> S -> S) :
  (forall i st, body i (g st) = g (body i st)) ->
  forall n i st, for_range n i body (g st) = g (for_range n i body st).
Proof.
  intros Hbody. induction n as [|n IH]; intros i st; [reflexivity|].
  cbn [for_range]. rewrite Hbody. apply IH.
Qed.

Lemma for_lt_num_SNe (lo hi : Z)
      (body : Z -> feedback_to_distribute -> feedback_to_distribute) (v : Q) :
  (forall i d, body i (set_num_SNe d v) = set_num_SNe (body i d) v) ->
  forall d, for_lt lo hi body (set_num_SNe d v)
            = set_num_SNe (for_lt lo hi body d) v.
Proof.
  intros Hbody d. unfold for_lt.
  apply (for_range_commute _ (fun d => set_num_SNe d v)). exact Hbody.
Qed.

Ltac push_num_SNe :=
  repeat first
    [ rewrite set_num_SNIa_num_SNe | rewrite set_num_SNII_num_SNe
    | rewrite set_mass_num_SNe | rewrite set_metal_mass_num_SNe
    | rewrite set_total_metal_mass_num_SNe | rewrite set_mass_from_AGB_num_SNe
    | rewrite set_metal_mass_from_AGB_num_SNe
    | rewrite set_mass_from_SNII_num_SNe
    | rewrite set_metal_mass_from_SNII_num_SNe
    | rewrite set_mass_from_SNIa_num_SNe
    | rewrite set_metal_mass_from_SNIa_num_SNe
    | rewrite set_Fe_mass_from_SNIa_num_SNe
    | rewrite num_SNIa_num_SNe | rewrite num_SNII_num_SNe
    | rewrite mass_num_SNe | rewrite metal_mass_num_SNe
    | rewrite total_metal_mass_num_SNe | rewrite mass_from_AGB_num_SNe
    | rewrite metal_mass_from_AGB_num_SNe | rewrite mass_from_SNII_num_SNe
    | rewrite metal_mass_from_SNII_num_SNe | rewrite mass_from_SNIa_num_SNe
    | rewrite metal_mass_from_SNIa_num_SNe | rewrite Fe_mass_from_SNIa_num_SNe
    | rewrite for_lt_num_SNe by (intros; reflexivity) ].

Section Budget.

Variable chemistry_element_count : Z.
Variable chemistry_element_H : Z.
Variable chemistry_element_He : Z.
Variable chemistry_element_Fe : Z.
Variable n_mass_bins : Z.
Variable log_min_metallicity : Q.
Variable M_LN10 : Q.
Variable exp : Q -> Q.
Variable log10 : Q -> Q.
Variable lifetime_in_Gyr : Q -> Q -> stars_props -> Q.
Variable dying_mass_msun : Q -> Q -> stars_props -> Q.
Variable determine_imf_bins : Q -> Q -> stars_props -> Z * Z.
Variable integrate_imf : Q -> Q -> Q -> Z -> list Q -> stars_props -> Q.
Variable row_major_index_2d : Z -> Z -> Z -> Z -> Z.
Variable row_major_index_3d : Z -> Z -> Z -> Z -> Z -> Z -> Z.
Variable unit_system : Type.
Variable time_cgs_conversion_factor : unit_system -> Q.

Local Abbreviation evolve_SNIa :=
  (Stars.evolve_SNIa
     chemistry_element_count chemistry_element_Fe M_LN10 exp lifetime_in_Gyr).
Local Abbreviation evolve_SNII :=
  (Stars.evolve_SNII
     chemistry_element_count chemistry_element_H chemistry_element_He
     n_mass_bins log_min_metallicity log10 determine_imf_bins integrate_imf
     row_major_index_2d row_major_index_3d).
Local Abbreviation evolve_AGB :=
  (Stars.evolve_AGB
     chemistry_element_count chemistry_element_H chemistry_element_He
     n_mass_bins log_min_metallicity log10 determine_imf_bins integrate_imf
     row_major_index_2d row_major_index_3d).
Local Abbreviation compute_stellar_evolution :=
  (Stars.compute_stellar_evolution
     chemistry_element_count chemistry_element_H chemistry_element_He
     chemistry_element_Fe n_mass_bins log_min_metallicity M_LN10 exp log10
     lifetime_in_Gyr dying_mass_msun determine_imf_bins integrate_imf
     row_major_index_2d row_major_index_3d unit_system
     time_cgs_conversion_factor).
Local Abbreviation stars_evolve_spart :=
  (Stars.stars_evolve_spart
     chemistry_element_count chemistry_element_H chemistry_element_He
     chemistry_element_Fe n_mass_bins log_min_metallicity M_LN10 exp log10
     lifetime_in_Gyr dying_mass_msun determine_imf_bins integrate_imf
     row_major_index_2d row_major_index_3d unit_system
     time_cgs_conversion_factor).


(** The array of integrated yields and the clipped one hold nothing
    positive when no integral is positive. *)
Lemma metals_nonpositive (stars : stars_props)
      (fill : Z -> list Q -> list Q) (lo hi : Q) (sy : list Q) :
  (forall a b sy', integrate_imf a b 0 2 sy' stars <= 0)%Q ->
  let r :=
    for_lt 0 chemistry_element_count
      (fun i '(metals, sy) =>
         let sy := fill i sy in
         (arr_set metals i (integrate_imf lo hi 0 2 sy stars), sy))
      (repeat 0%Q (Z.to_nat chemistry_element_count), sy) in
  let clipped :=
    for_lt 0 chemistry_element_count
      (fun i metals =>
         if Qlt_bool (arr metals i) 0 then arr_set metals i 0%Q else metals)
      (fst r) in
  forall k, (arr clipped k <= 0)%Q.
Proof.
  intros Hint r clipped.
  assert (Hr : forall k, (arr (fst r) k <= 0)%Q).
  { subst r. unfold for_lt.
    apply (for_range_invariant _ (fun st => forall k, (arr (fst st) k <= 0)%Q)).
    - intros i [metals sy'] Hst. cbn [fst] in *.
      apply arr_set_nonpositive; [exact Hst | apply Hint].
    - cbn [fst]. intros k. rewrite arr_repeat_zero. apply Qle_refl. }
  subst clipped. unfold for_lt.
  apply (for_range_invariant _ (fun metals => forall k, (arr metals k <= 0)%Q));
    [|exact Hr].
  intros i metals Hst. destruct (Qlt_bool (arr metals i) 0); [|exact Hst].
  apply arr_set_nonpositive; [exact Hst | apply Qle_refl].
Qed.

(** X19: when none of the yield integrals is positive, a step whose mass
    interval is not empty does not pass as "no enrichment": negative
    integrals are clipped to zero, the normalisation [norm1] is then not
    positive, and both [evolve_SNII] and [evolve_AGB] stop with the error
    "wrong normalization". *)
Theorem evolve_stops_without_positive_yield :
  forall (log10_min_mass log10_max_mass : Q) (stellar_yields : list Q)
         (stars : stars_props) (sp : spart),
    (forall a b sy, integrate_imf a b 0 2 sy stars <= 0)%Q ->
    ((Qmax log10_min_mass (log10_SNII_min_mass_msun stars)
      < Qmin log10_max_mass (log10_SNII_max_mass_msun stars))%Q ->
     evolve_SNII log10_min_mass log10_max_mass stellar_yields stars sp
     = Fatal "wrong normalization!!!!")
    /\ ((log10_min_mass
         < Qmin log10_max_mass (log10_SNII_min_mass_msun stars))%Q ->
        evolve_AGB log10_min_mass log10_max_mass stellar_yields stars sp
        = Fatal "wrong normalization!!!!").
Proof.
  intros lo hi sy stars sp Hint. split.
  - intros Hopen. unfold Stars.evolve_SNII. cbv zeta.
    set (lo' := if Qlt_bool lo (log10_SNII_min_mass_msun stars)
                then log10_SNII_min_mass_msun stars else lo).
    set (hi' := if Qgt_bool hi (log10_SNII_max_mass_msun stars)
                then log10_SNII_max_mass_msun stars else hi).
    assert (Hlo : (lo' == Qmax lo (log10_SNII_min_mass_msun stars))%Q).
    { subst lo'. destruct (Qlt_bool lo _) eqn:E.
      - apply Qlt_bool_iff in E. symmetry. apply Q.max_r. apply Qlt_le_weak, E.
      - symmetry. apply Q.max_l. unfold Qlt_bool in E.
        apply negb_false_iff, Qle_bool_iff in E. exact E. }
    assert (Hhi : (hi' == Qmin hi (log10_SNII_max_mass_msun stars))%Q).
    { subst hi'. destruct (Qgt_bool hi _) eqn:E.
      - apply StarsBinsFacts.Qgt_bool_iff in E. symmetry. apply Q.min_r.
        apply Qlt_le_weak, E.
      - symmetry. apply Q.min_l. apply StarsBinsFacts.Qgt_bool_false_iff, E. }
    assert (Hge : Qge_bool lo' hi' = false).
    { unfold Qge_bool. destruct (Qle_bool hi' lo') eqn:E; [|reflexivity].
      apply Qle_bool_iff in E. rewrite Hlo, Hhi in E.
      exfalso. apply (Qlt_not_le _ _ Hopen E). }
    rewrite Hge.
    destruct (determine_imf_bins lo' hi' stars) as [ilow ihigh].
    destruct (Stars.determine_bin_yield_SNII _ _ _) as [[iz_low iz_high] dz].
    match goal with
    | |- context [for_lt 0 chemistry_element_count ?body
                         (repeat 0%Q (Z.to_nat chemistry_element_count), sy)] =>
        match body with
        | (fun i '(metals, sy0) => (arr_set metals i _, @?fill i sy0)) =>
            pose proof (metals_nonpositive stars fill lo' hi' sy Hint) as Hmetals;
            cbv zeta in Hmetals;
            destruct (for_lt 0 chemistry_element_count body
                             (repeat 0%Q (Z.to_nat chemistry_element_count), sy))
              as [mtl syl]
        end
    end.
    cbn [fst] in Hmetals.
    destruct (Qgt_bool _ 0) eqn:E; [|reflexivity].
    exfalso. apply StarsBinsFacts.Qgt_bool_iff in E.
    match type of E with
    | (0 < (if Qlt_bool ?x 0 then 0 else ?x) + ?a + ?b)%Q =>
        pose proof (clip_nonpositive x (Hint _ _ _)) as Hm;
        pose proof (Hmetals chemistry_element_H) as Ha;
        pose proof (Hmetals chemistry_element_He) as Hb;
        apply (Qlt_not_le _ _ E);
        apply (Qle_trans _ (0 + 0 + 0)); [|discriminate];
        repeat apply Qplus_le_compat; assumption
    end.
  - intros Hopen. unfold Stars.evolve_AGB. cbv zeta.
    set (hi' := if Qgt_bool hi (log10_SNII_min_mass_msun stars)
                then log10_SNII_min_mass_msun stars else hi).
    assert (Hhi : (hi' == Qmin hi (log10_SNII_min_mass_msun stars))%Q).
    { subst hi'. destruct (Qgt_bool hi _) eqn:E.
      - apply StarsBinsFacts.Qgt_bool_iff in E. symmetry. apply Q.min_r.
        apply Qlt_le_weak, E.
      - symmetry. apply Q.min_l. apply StarsBinsFacts.Qgt_bool_false_iff, E. }
    assert (Hge : Qge_bool lo hi' = false).
    { unfold Qge_bool. destruct (Qle_bool hi' lo) eqn:E; [|reflexivity].
      apply Qle_bool_iff in E. rewrite Hhi in E.
      exfalso. apply (Qlt_not_le _ _ Hopen E). }
    rewrite Hge.
    destruct (determine_imf_bins lo hi' stars) as [ilow ihigh].
    destruct (Stars.determine_bin_yield_AGB _ _ _) as [[iz_low iz_high] dz].
    match goal with
    | |- context [for_lt 0 chemistry_element_count ?body
                         (repeat 0%Q (Z.to_nat chemistry_element_count), sy)] =>
        match body with
        | (fun i '(metals, sy0) => (arr_set metals i _, @?fill i sy0)) =>
            pose proof (metals_nonpositive stars fill lo hi' sy Hint) as Hmetals;
            cbv zeta in Hmetals;
            destruct (for_lt 0 chemistry_element_count body
                             (repeat 0%Q (Z.to_nat chemistry_element_count), sy))
              as [mtl syl]
        end
    end.
    cbn [fst] in Hmetals.
    destruct (Qgt_bool _ 0) eqn:E; [|reflexivity].
    exfalso. apply StarsBinsFacts.Qgt_bool_iff in E.
    match type of E with
    | (0 < (if Qlt_bool ?x 0 then 0 else ?x) + ?a + ?b)%Q =>
        pose proof (clip_nonpositive x (Hint _ _ _)) as Hm;
        pose proof (Hmetals chemistry_element_H) as Ha;
        pose proof (Hmetals chemistry_element_He) as Hb;
        apply (Qlt_not_le _ _ E);
        apply (Qle_trans _ (0 + 0 + 0)); [|discriminate];
        repeat apply Qplus_le_compat; assumption
    end.
Qed.


(** The loop of [evolve_SNII] that adds up [metal_mass] into
    [mass_from_SNII]. *)
Lemma SNII_sum_loop : forall (n : nat) (i : Z) (d : feedback_to_distribute),
  let d' := for_range n i
              (fun i d => set_mass_from_SNII
                            d (mass_from_SNII d + arr (metal_mass d) i)%Q) d in
  metal_mass d' = metal_mass d
  /\ (mass_from_SNII d' == mass_from_SNII d + sum_range (metal_mass d) n i)%Q.
Proof.
  induction n as [|n IH]; intros i d.
  - cbn. split; [reflexivity | ring].
  - cbn [for_range sum_range]. cbv zeta.
    destruct (IH (i + 1)
                 (set_mass_from_SNII d (mass_from_SNII d + arr (metal_mass d) i)%Q))
      as [Hm Hs].
    cbn [metal_mass mass_from_SNII set_mass_from_SNII] in Hm, Hs.
    split; [exact Hm|]. rewrite Hs. ring.
Qed.

(** The loop of [evolve_AGB] that adds its yields to [metal_mass] and to
    [mass_from_AGB]. *)
Lemma AGB_yield_loop (x : Z -> Q) (N : nat) :
  forall (n : nat) (i : Z) (d : feedback_to_distribute),
    0 <= i -> (Z.to_nat i + n <= N)%nat ->
    (N <= length (metal_mass d))%nat ->
    let d' := for_range n i
                (fun i d =>
                   let d := set_metal_mass d
                              (arr_set (metal_mass d) i
                                       (arr (metal_mass d) i + x i)%Q) in
                   set_mass_from_AGB d (mass_from_AGB d + x i)%Q) d in
    (mass_from_AGB d' - mass_from_AGB d
     == sum_range (metal_mass d') N 0 - sum_range (metal_mass d) N 0)%Q.
Proof.
  induction n as [|n IH]; intros i d Hi Hn Hlen.
  - cbn. ring.
  - cbn [for_range]. cbv zeta.
    set (d1 := set_mass_from_AGB _ _).
    assert (Hlen1 : (N <= length (metal_mass d1))%nat).
    { subst d1. cbn [metal_mass set_mass_from_AGB set_metal_mass].
      rewrite length_arr_set. exact Hlen. }
    specialize (IH (i + 1) d1 ltac:(lia) ltac:(lia) Hlen1). cbv zeta in IH.
    assert (H1 : (mass_from_AGB d1 - mass_from_AGB d
                  == sum_range (metal_mass d1) N 0
                     - sum_range (metal_mass d) N 0)%Q).
    { subst d1. cbn [metal_mass mass_from_AGB set_mass_from_AGB set_metal_mass].
      rewrite sum_range_arr_set by lia.
      replace (0 <=? i) with true by (symmetry; apply Z.leb_le; lia).
      replace (i <? 0 + Z.of_nat N) with true
        by (symmetry; apply Z.ltb_lt; lia).
      cbn [andb]. ring. }
    lra.
Qed.

Lemma SNII_sum_for_lt (d : feedback_to_distribute) :
  let d' := for_lt 0 chemistry_element_count
              (fun i d => set_mass_from_SNII
                            d (mass_from_SNII d + arr (metal_mass d) i)%Q) d in
  metal_mass d' = metal_mass d
  /\ (mass_from_SNII d'
      == mass_from_SNII d
         + sum_range (metal_mass d) (Z.to_nat chemistry_element_count) 0)%Q.
Proof.
  unfold for_lt. rewrite Z.sub_0_r. apply SNII_sum_loop.
Qed.

Lemma AGB_yield_for_lt (x : Z -> Q) (d : feedback_to_distribute) :
  (Z.to_nat chemistry_element_count <= length (metal_mass d))%nat ->
  let d' := for_lt 0 chemistry_element_count
              (fun i d =>
                 let d := set_metal_mass d
                            (arr_set (metal_mass d) i
                                     (arr (metal_mass d) i + x i)%Q) in
                 set_mass_from_AGB d (mass_from_AGB d + x i)%Q) d in
  (mass_from_AGB d' - mass_from_AGB d
   == sum_range (metal_mass d') (Z.to_nat chemistry_element_count) 0
      - sum_range (metal_mass d) (Z.to_nat chemistry_element_count) 0)%Q.
Proof.
  intros Hlen. unfold for_lt. rewrite Z.sub_0_r.
  apply AGB_yield_loop; [lia | lia | exact Hlen].
Qed.



(** The three channels neither read nor write [to_distribute.num_SNe]. *)
Lemma evolve_SNIa_num_SNe (lo hi : Q) (stars : stars_props) (sp : spart)
      (age dt v : Q) :
  evolve_SNIa lo hi stars (with_num_SNe v sp) age dt
  = with_num_SNe v (evolve_SNIa lo hi stars sp age dt).
Proof.
  unfold Stars.evolve_SNIa, with_num_SNe.
  cbn [to_distribute set_to_distribute metal_mass_fraction_total mass_init].
  destruct (Qge_bool lo _); [reflexivity|].
  destruct (if Qgt_bool hi _ then _ else _) as [[hi' dt'] age'].
  cbv zeta. cbn [to_distribute set_to_distribute].
  push_num_SNe. reflexivity.
Qed.

Lemma evolve_SNII_num_SNe (lo hi : Q) (sy : list Q) (stars : stars_props)
      (sp : spart) (v : Q) :
  evolve_SNII lo hi sy stars (with_num_SNe v sp)
  = (r <- evolve_SNII lo hi sy stars sp ;;
     Returns (with_num_SNe v (fst r), snd r)).
Proof.
  unfold Stars.evolve_SNII, with_num_SNe, bind.
  cbn [to_distribute set_to_distribute metal_mass_fraction_total mass_init
       metal_mass_fraction].
  cbv zeta.
  destruct (Qge_bool _ _); [reflexivity|].
  destruct (determine_imf_bins _ _ stars) as [ilow ihigh].
  destruct (Stars.determine_bin_yield_SNII _ _ _) as [[iz_low iz_high] dz].
  destruct (for_lt 0 chemistry_element_count _ (_, sy)) as [mtl syl].
  destruct (Qgt_bool _ 0); [|reflexivity].
  cbn [fst snd to_distribute set_to_distribute].
  push_num_SNe. reflexivity.
Qed.

Lemma evolve_AGB_num_SNe (lo hi : Q) (sy : list Q) (stars : stars_props)
      (sp : spart) (v : Q) :
  evolve_AGB lo hi sy stars (with_num_SNe v sp)
  = (r <- evolve_AGB lo hi sy stars sp ;;
     Returns (with_num_SNe v (fst r), snd r)).
Proof.
  unfold Stars.evolve_AGB, with_num_SNe, bind.
  cbn [to_distribute set_to_distribute metal_mass_fraction_total mass_init
       metal_mass_fraction].
  cbv zeta.
  destruct (Qge_bool _ _); [reflexivity|].
  destruct (determine_imf_bins _ _ stars) as [ilow ihigh].
  destruct (Stars.determine_bin_yield_AGB _ _ _) as [[iz_low iz_high] dz].
  destruct (for_lt 0 chemistry_element_count _ (_, sy)) as [mtl syl].
  destruct (Qgt_bool _ 0); [|reflexivity].
  cbn [fst snd to_distribute set_to_distribute].
  push_num_SNe. reflexivity.
Qed.

Lemma compute_stellar_evolution_num_SNe (stars : stars_props) (sp : spart)
      (us : unit_system) (age dt : Q) (sy : list Q) (v : Q) :
  compute_stellar_evolution stars (with_num_SNe v sp) us age dt sy
  = (r <- compute_stellar_evolution stars sp us age dt sy ;;
     Returns (with_num_SNe v r)).
Proof.
  unfold Stars.compute_stellar_evolution. cbv zeta.
  change (metal_mass_fraction_total (with_num_SNe v sp))
    with (metal_mass_fraction_total sp).
  destruct (Qgt_bool _ _); [reflexivity|].
  destruct (Qeq_bool _ _); [reflexivity|].
  rewrite evolve_SNIa_num_SNe, evolve_SNII_num_SNe.
  unfold bind.
  destruct (Stars.evolve_SNII _ _ _ _ _ _ _ _ _ _ _ _ _ _ _) as [[sp1 sy1]|msg];
    [|reflexivity].
  cbn [fst snd]. rewrite evolve_AGB_num_SNe. unfold bind.
  destruct (Stars.evolve_AGB _ _ _ _ _ _ _ _ _ _ _ _ _ _ _) as [[sp2 sy2]|msg];
    [|reflexivity].
  cbn [fst snd]. unfold with_num_SNe.
  cbn [to_distribute set_to_distribute]. push_num_SNe. reflexivity.
Qed.


(** The zeroing loop of [stars_evolve_spart] on an array of
    [chemistry_element_count] entries. *)
Lemma zero_loop_full (d : feedback_to_distribute) :
  length (metal_mass d) = Z.to_nat chemistry_element_count ->
  for_lt 0 chemistry_element_count
         (fun i d => set_metal_mass d (arr_set (metal_mass d) i 0%Q)) d
  = set_metal_mass d (repeat 0%Q (Z.to_nat chemistry_element_count)).
Proof.
  intros Hlen. unfold for_lt. rewrite Z.sub_0_r.
  set (n := Z.to_nat chemistry_element_count) in *.
  set (body := fun (i : Z) (d : feedback_to_distribute) =>
                 set_metal_mass d (arr_set (metal_mass d) i 0%Q)).
  assert (Hshape : forall k i d0,
             for_range k i body d0
             = set_metal_mass d0 (metal_mass (for_range k i body d0))).
  { induction k as [|k IH]; intros i d0.
    - destruct d0; reflexivity.
    - cbn [for_range]. rewrite IH. subst body. reflexivity. }
  assert (Hlength : length (metal_mass (for_range n 0 body d)) = n).
  { apply (for_range_invariant _ (fun d0 => length (metal_mass d0) = n));
      [|exact Hlen].
    intros i d0 Hd0. subst body. cbn [metal_mass set_metal_mass].
    rewrite length_arr_set. exact Hd0. }
  rewrite Hshape. f_equal.
  apply (nth_ext _ _ 0%Q 0%Q).
  - rewrite repeat_length. exact Hlength.
  - intros k Hk. rewrite nth_repeat.
    destruct (StarsFacts.zero_metal_mass_loop n 0 d (Z.of_nat k)) as [Hz _];
      try lia.
    unfold arr in Hz. rewrite Nat2Z.id in Hz. exact Hz.
Qed.

(** X21: [stars_evolve_spart] starts afresh.  With the element array at
    its declared length, the outcome of a call (the particle returned or
    the error raised) does not depend on what [to_distribute] held before
    the call; and the number of supernovae it reports in
    [to_distribute.num_SNe] is zero whatever the age, the step and the wind
    delay. *)
Theorem stars_evolve_spart_forgets_leftover :
  forall (sp : spart) (leftover : feedback_to_distribute)
         (stars_properties : stars_props) (us : unit_system)
         (current_time dt : Q) (stellar_yields : list Q),
    length (metal_mass (to_distribute sp))
    = Z.to_nat chemistry_element_count ->
    length (metal_mass leftover) = Z.to_nat chemistry_element_count ->
    stars_evolve_spart (with_leftover leftover sp) stars_properties us
                       current_time dt stellar_yields
    = stars_evolve_spart sp stars_properties us current_time dt stellar_yields
    /\ forall sp',
         stars_evolve_spart sp stars_properties us current_time dt
                            stellar_yields = Returns sp' ->
         num_SNe (to_distribute sp') = 0%Q.
Proof.
  intros sp d stars us t dt sy Hlen Hlend. split.
  - set (fresh := set_to_distribute sp
                    (ToDistribute 0 0 0 0
                       (repeat 0%Q (Z.to_nat chemistry_element_count))
                       0 0 0 0 0 0 0 0)).
    assert (Hstart : forall d0,
               length (metal_mass d0) = Z.to_nat chemistry_element_count ->
               stars_evolve_spart (with_leftover d0 sp) stars us t dt sy
               = (r <- compute_stellar_evolution
                         stars (with_num_SNe (num_SNe d0) fresh) us
                         (t - birth_time sp) dt sy ;;
                  Returns (with_num_SNe
                             (Stars.compute_SNe r stars (t - birth_time sp) dt)
                             r))).
    { intros d0 Hd0. unfold Stars.stars_evolve_spart, with_leftover. cbv zeta.
      cbn [to_distribute set_to_distribute birth_time].
      rewrite zero_loop_full by exact Hd0. reflexivity. }
    assert (Hsp : with_leftover (to_distribute sp) sp = sp)
      by (destruct sp; reflexivity).
    rewrite <- Hsp at 2.
    rewrite !Hstart by assumption.
    rewrite !compute_stellar_evolution_num_SNe. unfold bind.
    destruct (compute_stellar_evolution stars fresh us _ dt sy) as [r|msg];
      reflexivity.
  - intros sp' H. unfold Stars.stars_evolve_spart, bind in H. cbv zeta in H.
    destruct (Stars.compute_stellar_evolution
                _ _ _ _ _ _ _ _ _ _ _ _ _ _ _ _ _ _ _ _ _ _ _) as [r|msg];
      [|discriminate].
    injection H as <-. cbn [to_distribute set_to_distribute num_SNe set_num_SNe].
    unfold Stars.compute_SNe. destruct (_ && _); reflexivity.
Qed.

End Budget.

Lemma evolve_stops_without_positive_yield_witness :
  Stars.evolve_SNII 9 0 1 4 (-20)%Q (fun x => x) (fun lo hi _ => (0, 3))
                    (fun lo hi m2 mode yields _ => 0%Q)
                    (fun x y nx ny => x * ny + y)
                    (fun x y z nx ny nz => (x * ny + y) * nz + z)
                    0 (3 # 2) (repeat 0%Q 4) sample_stars_props sample_spart
  = Fatal "wrong normalization!!!!"
  /\ Stars.evolve_AGB 9 0 1 4 (-20)%Q (fun x => x) (fun lo hi _ => (0, 3))
                      (fun lo hi m2 mode yields _ => 0%Q)
                      (fun x y nx ny => x * ny + y)
                      (fun x y z nx ny nz => (x * ny + y) * nz + z)
                      0 (3 # 2) (repeat 0%Q 4) sample_stars_props sample_spart
     = Fatal "wrong normalization!!!!".
Proof.
  destruct (evolve_stops_without_positive_yield
              9 0 1 4 (-20)%Q (fun x => x) (fun lo hi _ => (0, 3))
              (fun lo hi m2 mode yields _ => 0%Q)
              (fun x y nx ny => x * ny + y)
              (fun x y z nx ny nz => (x * ny + y) * nz + z)
              0 (3 # 2) (repeat 0%Q 4) sample_stars_props sample_spart)
    as [HSNII HAGB].
  - intros a b sy. apply Qle_refl.
  - split; [apply HSNII | apply HAGB]; vm_compute; reflexivity.
Defined.


Lemma stars_evolve_spart_forgets_leftover_witness :
  Stars.stars_evolve_spart
    9 0 1 8 4 (-20)%Q (23 # 10) (fun x => 1%Q) (fun x => x)
    (fun m z _ => 1%Q) (fun age z _ => (3 - age)%Q) (fun lo hi _ => (0, 3))
    (fun lo hi m2 mode yields _ => (hi - lo)%Q)
    (fun x y nx ny => x * ny + y)
    (fun x y z nx ny nz => (x * ny + y) * nz + z)
    unit (fun _ => inject_Z 31550000000000000)
    (with_leftover (ToDistribute 1 2 3 4 (repeat 7%Q 9) 5 6 7 8 9 10 11 12)
                   sample_spart)
    sample_stars_props tt 1 (3 # 2) (repeat 0%Q 4)
  = sample_stars_evolve_spart 1 (3 # 2).
Proof.
  apply (stars_evolve_spart_forgets_leftover
           9 0 1 8 4 (-20)%Q (23 # 10) (fun x => 1%Q) (fun x => x)
           (fun m z _ => 1%Q) (fun age z _ => (3 - age)%Q)
           (fun lo hi _ => (0, 3))
           (fun lo hi m2 mode yields _ => (hi - lo)%Q)
           (fun x y nx ny => x * ny + y)
           (fun x y z nx ny nz => (x * ny + y) * nz + z)
           unit (fun _ => inject_Z 31550000000000000)
           sample_spart (ToDistribute 1 2 3 4 (repeat 7%Q 9) 5 6 7 8 9 10 11 12)
           sample_stars_props tt 1 (3 # 2) (repeat 0%Q 4)).
  - reflexivity.
  - reflexivity.
Defined.

End StarsBudgetFacts.
